(** * Speech services: admission gate, model loading, temp-file eviction,
      audio conversion fallback and language heuristic

    Shallow embedding of [stt-service/main.py] and [tts-service/main.py].

    - Python [str] values are sequences of Unicode code points ([list N]).
    - Module-level globals, the file system and the wall clock form an
      explicit world that every handler threads through a small
      state / exception / trace monad.
    - Third-party collaborators (Whisper, XTTS, ffmpeg, librosa, uuid, the
      event loop) are oracles supplied by an environment record; they may
      change the file system, let time pass, and raise.
    - Times are exact rationals: the rounding of Python floats is left out.
    - The file system is a store of entries keyed by path; its calls fail
      only for the reasons the store itself shows (missing entry, entry is
      a directory, no directory to create a file in), not for permissions
      or interference from outside.
    - How pydantic reads a string as a float is left to the environment;
      numbers that are not finite are left out. *)

From Stdlib Require Import ZArith QArith List Ascii String Lia DecimalString.
From Stdlib.Init Require Import Byte.
From stdpp Require Import base option list gmap.

Close Scope Q_scope.
Open Scope Z_scope.

(* ===================================================================== *)
(** ** Python values                                                     *)
(* ===================================================================== *)

Module Py.

(** A Python string: its code points, in order. *)
Abbreviation pystr := (list N).

(** An ASCII literal of the source as a Python string. *)
Definition lit (s : string) : pystr :=
  List.map N_of_ascii (list_ascii_of_string s).

(** [str.isspace] for one code point: the white-space set of CPython's
    Unicode database. *)
Definition isspace (c : N) : bool :=
  ((9 <=? c) && (c <=? 13) || (28 <=? c) && (c <=? 32)
   || (c =? 133) || (c =? 160) || (c =? 5760)
   || (8192 <=? c) && (c <=? 8202)
   || (c =? 8232) || (c =? 8233) || (c =? 8239) || (c =? 8287)
   || (c =? 12288))%N.

Fixpoint lstrip (s : pystr) : pystr :=
  match s with
  | c :: s' => if isspace c then lstrip s' else s
  | [] => []
  end.

Definition rstrip (s : pystr) : pystr := rev (lstrip (rev s)).

(** [s.strip()] *)
Definition strip (s : pystr) : pystr := rstrip (lstrip s).

(** [s.split()]: maximal runs of non-space characters. *)
Fixpoint split_aux (cur : pystr) (s : pystr) : list pystr :=
  match s with
  | [] => match cur with [] => [] | _ => [rev cur] end
  | c :: s' =>
      if isspace c
      then match cur with [] => split_aux [] s' | _ => rev cur :: split_aux [] s' end
      else split_aux (c :: cur) s'
  end.

Definition split (s : pystr) : list pystr := split_aux [] s.

(** [s.endswith(suffix)] *)
Definition endswith (s suffix : pystr) : bool :=
  bool_decide (drop (length s - length suffix) s = suffix).

(** [s.startswith(prefix)] *)
Definition startswith (s pre : pystr) : bool :=
  bool_decide (take (length pre) s = pre).

(** [sum(1 for c in s if c in chars)] *)
Definition count_in (chars : list N) (s : pystr) : Z :=
  Z.of_nat (length (filter (λ c, c ∈ chars) s)).

(** Truthiness of an [Optional[str]]: [None] and [''] are falsy. *)
Definition truthy_str (o : option pystr) : bool :=
  match o with
  | Some (_ :: _) => true
  | _ => false
  end.

(** Truthiness of an [Optional[int]]: [None] and [0] are falsy. *)
Definition truthy_int (o : option Z) : bool :=
  match o with
  | Some z => negb (z =? 0)
  | None => false
  end.

(** [f"{x}"] for an [Optional[str]]. *)
Definition format_opt (o : option pystr) : pystr :=
  match o with
  | Some s => s
  | None => lit "None"
  end.

(** [str(n)] for an integer. *)
Definition str_of_Z (z : Z) : pystr :=
  lit (DecimalString.NilZero.string_of_int (Z.to_int z)).

(** The values a model may put in its result dictionary. *)
Inductive value :=
| VNone
| VStr (s : pystr)
| VNum (q : Q).

(** A Python [dict] with string keys. *)
Abbreviation dict := (gmap pystr value).

(** [d.get(k, default)] *)
Definition dict_get (d : dict) (k : pystr) (dflt : value) : value :=
  default dflt (d !! k).

(** The exceptions the handlers distinguish: FastAPI's [HTTPException]
    and every other subclass of [Exception], carried with its [str(e)].
    What [except Exception] does not catch ([KeyboardInterrupt],
    [SystemExit], task cancellation) is not raised by anything here. *)
Inductive exn :=
| HTTPException (status_code : Z) (detail : pystr)
| Exception (message : pystr).

(** [str(e)] *)
Definition str_exn (e : exn) : pystr :=
  match e with
  | HTTPException c d => str_of_Z c ++ lit ": " ++ d
  | Exception m => m
  end.

(** [os.path.join(a, b)] on POSIX. *)
Definition path_join (a b : pystr) : pystr :=
  if startswith b (lit "/") then b
  else match a with
       | [] => b
       | _ => if endswith a (lit "/") then a ++ b else a ++ lit "/" ++ b
       end.

End Py.

(* ===================================================================== *)
(** ** The operating system: files and the wall clock                    *)
(* ===================================================================== *)

Module FileSystem.
Import Py.

Inductive kind := Regular | Directory | Special.

#[global] Instance kind_eq_dec : EqDecision kind.
Proof. solve_decision. Defined.

(** A directory entry: what [os.stat] reports about it, and its bytes. *)
Record node := Node { n_kind : kind; n_ctime : Q; n_data : list byte }.

(** Entries are keyed by the path string the service passes to the [os]
    functions; the services only form paths as [os.path.join(DIR, name)].
    A directory is an entry too, keyed by the [os.path.dirname] of the
    paths inside it.  [clock] is the number of seconds since the epoch. *)
Record OS := MkOS { files : gmap pystr node; clock : Q }.

(** What a call into the operating system or a library returns: a value,
    or an exception (a subclass of [Exception]) with its message. *)
Inductive result (A : Type) :=
| Success (a : A)
| Failure (msg : pystr).
Arguments Success {A} a.
Arguments Failure {A} msg.

Definition set_files (f : gmap pystr node) (o : OS) : OS :=
  MkOS f (clock o).

(** [os.path.exists(p)] *)
Definition path_exists (p : pystr) (o : OS) : bool :=
  bool_decide (is_Some (files o !! p)).

(** [os.path.isfile(p)] *)
Definition isfile (p : pystr) (o : OS) : bool :=
  match files o !! p with
  | Some nd => bool_decide (n_kind nd = Regular)
  | None => false
  end.

(** [os.path.getctime(p)] *)
Definition getctime (p : pystr) (o : OS) : result Q :=
  match files o !! p with
  | Some nd => Success (n_ctime nd)
  | None => Failure (lit "FileNotFoundError")
  end.

(** [os.path.getsize(p)] *)
Definition getsize (p : pystr) (o : OS) : result Z :=
  match files o !! p with
  | Some nd => Success (Z.of_nat (length (n_data nd)))
  | None => Failure (lit "FileNotFoundError")
  end.

(** [os.remove(p)] *)
Definition remove (p : pystr) (o : OS) : OS * result unit :=
  match files o !! p with
  | Some nd =>
      match n_kind nd with
      | Directory => (o, Failure (lit "IsADirectoryError"))
      | _ => (set_files (delete p (files o)) o, Success tt)
      end
  | None => (o, Failure (lit "FileNotFoundError"))
  end.

Definition is_slash (c : N) : bool := (c =? 47)%N.

(** The string from its first ['/'] on. *)
Fixpoint from_slash (s : pystr) : pystr :=
  match s with
  | c :: s' => if is_slash c then s else from_slash s'
  | [] => []
  end.

(** The string without its leading ['/'] characters. *)
Fixpoint after_slashes (s : pystr) : pystr :=
  match s with
  | c :: s' => if is_slash c then after_slashes s' else s
  | [] => []
  end.

(** [os.path.dirname(p)] on POSIX: [p] up to and including its last
    ['/'], then without trailing slashes unless it consists of slashes. *)
Definition dirname (p : pystr) : pystr :=
  let head := from_slash (rev p) in
  match after_slashes head with
  | [] => rev head
  | stripped => rev stripped
  end.

(** Why a file cannot be created at [p], if it cannot: [p] names no file,
    or the directory it would go in is missing or is not a directory.  The
    current directory ([dirname] empty) and the root always exist; every
    other directory is an entry of the store, keyed by the [dirname] of the
    paths inside it. *)
Definition create_error (p : pystr) (o : OS) : option pystr :=
  match p with
  | [] => Some (lit "FileNotFoundError")
  | _ =>
      if endswith p (lit "/") then Some (lit "IsADirectoryError")
      else if forallb is_slash (dirname p) then None
      else match files o !! dirname p with
           | Some nd =>
               if bool_decide (n_kind nd = Directory) then None
               else Some (lit "NotADirectoryError")
           | None => Some (lit "FileNotFoundError")
           end
  end.

(** [open(p, "wb")]: create or truncate. *)
Definition open_wb (p : pystr) (o : OS) : OS * result unit :=
  match files o !! p with
  | Some nd =>
      match n_kind nd with
      | Directory => (o, Failure (lit "IsADirectoryError"))
      | k => (set_files (<[p := Node k (clock o) []]> (files o)) o, Success tt)
      end
  | None =>
      match create_error p o with
      | Some msg => (o, Failure msg)
      | None =>
          (set_files (<[p := Node Regular (clock o) []]> (files o)) o, Success tt)
      end
  end.

(** [f.write(data)] on the file opened at [p]. *)
Definition write (p : pystr) (data : list byte) (o : OS) : OS * result unit :=
  match files o !! p with
  | Some nd =>
      (set_files (<[p := Node (n_kind nd) (clock o) (n_data nd ++ data)]> (files o)) o,
       Success tt)
  | None => (o, Failure (lit "ValueError"))
  end.

(** The name under which [p] is listed in directory [d], if it is one of
    its direct entries. *)
Definition child_name (d p : pystr) : option pystr :=
  let pre := if endswith d (lit "/") then d else d ++ lit "/" in
  if startswith p pre then
    let n := drop (length pre) p in
    match n with
    | [] => None
    | _ => if bool_decide (47%N ∈ n) then None else Some n
    end
  else None.

(** [os.listdir(d)], in the (arbitrary but fixed) order of the store. *)
Definition listdir (d : pystr) (o : OS) : result (list pystr) :=
  match d with
  | [] => Failure (lit "FileNotFoundError")
  | _ => Success (omap (λ kv, child_name d kv.1) (map_to_list (files o)))
  end.

End FileSystem.

(* ===================================================================== *)
(** ** Effects: world, exceptions, trace                                 *)
(* ===================================================================== *)

Module Eff.
Import Py FileSystem.

(** What a run leaves in its trace: calls into third-party code, updates
    of the request counter, suspensions and scheduled background tasks. *)
Inductive event :=
| EvCounter (delta : Z)
| EvLoadModel (name device : pystr)
| EvFfmpeg (input output : pystr)
| EvLibrosaLoad (input : pystr)
| EvSfWrite (output : pystr)
| EvTranscribe (path : pystr)
| EvTtsToFile (text file_path : pystr) (speaker : option pystr) (language : pystr)
| EvSleep
| EvAddTask (name : pystr).

#[global] Instance event_eq_dec : EqDecision event.
Proof. solve_decision. Defined.

Section Monad.
Context {G : Type}.

(** The module-level globals of a service together with the OS. *)
Record world := World { globals : G; os : OS }.

(** How a piece of code ends: it returns, it raises, or it never gets
    there (a coroutine that is still waiting). *)
Inductive res (A : Type) :=
| Ok (a : A)
| Raise (e : exn)
| Hang.

Record run (A : Type) := Run { final : world; trace : list event; outcome : res A }.

Definition M (A : Type) : Type := world -> run A.

Definition ret {A} (a : A) : M A := λ w, Run A w [] (Ok A a).

Definition raise {A} (e : exn) : M A := λ w, Run A w [] (Raise A e).

Definition bind {A B} (m : M A) (k : A -> M B) : M B := λ w,
  match m w with
  | Run _ w1 t1 (Ok _ a) =>
      match k a w1 with
      | Run _ w2 t2 o2 => Run B w2 (t1 ++ t2) o2
      end
  | Run _ w1 t1 (Raise _ e) => Run B w1 t1 (Raise B e)
  | Run _ w1 t1 (Hang _) => Run B w1 t1 (Hang B)
  end.

(** [try: m  except Exception as e: h e] *)
Definition try_except {A} (m : M A) (h : exn -> M A) : M A := λ w,
  match m w with
  | Run _ w1 t1 (Raise _ e) =>
      match h e w1 with
      | Run _ w2 t2 o2 => Run A w2 (t1 ++ t2) o2
      end
  | r => r
  end.

(** [try: m  finally: fin] *)
Definition try_finally {A} (m : M A) (fin : M unit) : M A := λ w,
  match m w with
  | Run _ w1 t1 (Hang _) => Run A w1 t1 (Hang A)
  | Run _ w1 t1 o1 =>
      match fin w1 with
      | Run _ w2 t2 (Ok _ _) => Run A w2 (t1 ++ t2) o1
      | Run _ w2 t2 (Raise _ e) => Run A w2 (t1 ++ t2) (Raise A e)
      | Run _ w2 t2 (Hang _) => Run A w2 (t1 ++ t2) (Hang A)
      end
  end.

Definition get_globals : M G := λ w, Run G w [] (Ok G (globals w)).

Definition put_globals (g : G) : M unit := λ w,
  Run unit (World g (os w)) [] (Ok unit tt).

Definition get_os : M OS := λ w, Run OS w [] (Ok OS (os w)).

Definition log (ev : event) : M unit := λ w, Run unit w [ev] (Ok unit tt).

(** A call that may change the OS and may raise. *)
Definition call {A} (f : OS -> OS * result A) : M A := λ w,
  let '(o, r) := f (os w) in
  Run A (World (globals w) o) []
    (match r with
     | Success a => Ok A a
     | Failure msg => Raise A (Exception msg)
     end).

(** A call that only inspects the OS. *)
Definition query {A} (f : OS -> result A) : M A :=
  call (λ o, (o, f o)).

(** A call into third-party code, recorded in the trace. *)
Definition extern {A} (ev : event) (f : OS -> OS * result A) : M A :=
  bind (log ev) (λ _, call f).

(** A coroutine that is never resumed past this point. *)
Definition hang {A} : M A := λ w, Run A w [] (Hang A).

(** [await asyncio.sleep(..)]: the coroutine is suspended while the
    event loop runs whatever else is ready ([others]). *)
Definition sleep (others : world -> world) : M unit := λ w,
  Run unit (others w) [EvSleep] (Ok unit tt).

(** [for x in xs: body x] *)
Fixpoint for_each {A} (xs : list A) (body : A -> M unit) : M unit :=
  match xs with
  | [] => ret tt
  | x :: xs' => bind (body x) (λ _, for_each xs' body)
  end.

End Monad.

Arguments world G : clear implicits.
Arguments World {G} globals os.
Arguments globals {G} w.
Arguments os {G} w.
Arguments M G A : clear implicits.
Arguments run G A : clear implicits.
Arguments Ok {A} a.
Arguments Raise {A} e.
Arguments Hang {A}.
Arguments final {G A} r.
Arguments trace {G A} r.
Arguments outcome {G A} r.
Arguments Run {G A} final trace outcome.

Notation "x <- m ;; k" := (bind m (λ x, k))
  (at level 100, m at next level, right associativity).
Notation "m ;;; k" := (bind m (λ _, k))
  (at level 100, right associativity).

End Eff.

(** Strict comparison of rationals, as a boolean. *)
Definition Qlt_bool (x y : Q) : bool := negb (Qle_bool y x).

(* ===================================================================== *)
(** ** stt-service/main.py                                               *)
(* ===================================================================== *)

Module STT.
Import Py FileSystem Eff.

(** Configuration read from the environment at import time. *)
Record Config := {
  TEMP_AUDIO_DIR : pystr;
  MAX_AUDIO_SIZE : Z;
  TORCH_DEVICE : pystr;
  ENABLE_GPU : bool;
  MAX_CONCURRENT_REQUESTS : Z
}.

(** The values used when the environment variables are unset. *)
Definition default_config : Config := {|
  TEMP_AUDIO_DIR := lit "./temp";
  MAX_AUDIO_SIZE := 52428800;
  TORCH_DEVICE := lit "auto";
  ENABLE_GPU := true;
  MAX_CONCURRENT_REQUESTS := 5
|}.

(** A loaded Whisper model: all the service does with it is call
    [model.transcribe(path)]. *)
Record WhisperModel := {
  transcribe : pystr -> OS -> OS * result dict
}.

(** Module-level globals. *)
Record Globals := MkGlobals {
  whisper_model : option WhisperModel;
  model_loading : bool;
  current_requests : Z
}.

Definition initial_globals : Globals := MkGlobals None false 0.

(** The audio samples [librosa.load] hands to [sf.write]. *)
Abbreviation samples := (list Q).

(** Third-party behaviour. *)
Record Env := {
  str_lower : pystr -> pystr;
  cuda_is_available : bool;
  whisper_load_model : pystr -> pystr -> OS -> OS * result WhisperModel;
  ffmpeg_run : pystr -> pystr -> Z -> OS -> OS * result unit;
  librosa_load : pystr -> Z -> OS -> OS * result samples;
  sf_write : pystr -> samples -> Z -> OS -> OS * result unit;
  uuid4 : pystr;
  (** how pydantic reads a string given for a [float] field: the number it
      spells, if it spells one *)
  float_of_str : pystr -> option Q;
  (** what the rest of the event loop does while this coroutine sleeps *)
  others : world Globals -> world Globals;
  (** how many sleeps of a spin-wait are followed *)
  patience : nat
}.

(** The uploaded file as FastAPI presents it. *)
Record UploadFile := {
  filename : option pystr;
  size : option Z;
  content : list byte
}.

Record TranscriptionResponse := {
  transcription : pystr;
  language : pystr;
  duration : Q;
  processing_time : Q
}.

Section Service.
Context (cfg : Config) (env : Env).

Definition set_whisper_model (m : option WhisperModel) : M Globals unit :=
  g <- get_globals ;;
  put_globals (MkGlobals m (model_loading g) (current_requests g)).

Definition set_model_loading (b : bool) : M Globals unit :=
  g <- get_globals ;;
  put_globals (MkGlobals (whisper_model g) b (current_requests g)).

(** [current_requests += d] *)
Definition add_current_requests (d : Z) : M Globals unit :=
  g <- get_globals ;;
  put_globals (MkGlobals (whisper_model g) (model_loading g) (current_requests g + d)) ;;;
  log (EvCounter d).

(** [datetime.now()] / [time.time()] *)
Definition now : M Globals Q :=
  o <- get_os ;; ret (clock o).

Definition get_device : pystr :=
  if bool_decide (TORCH_DEVICE cfg = lit "auto")
  then (if cuda_is_available env && ENABLE_GPU cfg then lit "cuda" else lit "cpu")
  else TORCH_DEVICE cfg.

(** [while model_loading: await asyncio.sleep(0.1)] *)
Fixpoint spin_wait (n : nat) : M Globals unit :=
  g <- get_globals ;;
  if model_loading g then
    match n with
    | O => hang
    | S n' => sleep (others env) ;;; spin_wait n'
    end
  else ret tt.

Definition load_whisper_model : M Globals (option WhisperModel) :=
  g <- get_globals ;;
  match whisper_model g with
  | Some m => ret (Some m)
  | None =>
      if model_loading g then
        spin_wait (patience env) ;;;
        g' <- get_globals ;;
        ret (whisper_model g')
      else
        set_model_loading true ;;;
        try_finally
          (try_except
             (let device := get_device in
              model <- extern (EvLoadModel (lit "medium") device)
                         (whisper_load_model env (lit "medium") device) ;;
              set_whisper_model (Some model) ;;;
              ret (Some model))
             (λ e, raise e))
          (set_model_loading false)
  end.

(** [startup_event] *)
Definition startup_event : M Globals unit :=
  try_except (load_whisper_model ;;; ret tt) (λ e, ret tt).

Definition convert_audio_format
    (input_path output_path : pystr) (target_sr : Z) : M Globals bool :=
  try_except
    (extern (EvFfmpeg input_path output_path)
       (ffmpeg_run env input_path output_path target_sr) ;;;
     ret true)
    (λ e,
       try_except
         (audio <- extern (EvLibrosaLoad input_path)
                     (librosa_load env input_path target_sr) ;;
          extern (EvSfWrite output_path)
            (sf_write env output_path audio target_sr) ;;;
          ret true)
         (λ e2, ret false)).

Definition cleanup_temp_files : M Globals unit :=
  try_except
    (current_time <- now ;;
     names <- query (listdir (TEMP_AUDIO_DIR cfg)) ;;
     for_each names (λ filename,
       let file_path := path_join (TEMP_AUDIO_DIR cfg) filename in
       o <- get_os ;;
       if isfile file_path o then
         ctime <- query (getctime file_path) ;;
         let file_age := (current_time - ctime)%Q in
         if Qlt_bool 1800 file_age
         then call (remove file_path)
         else ret tt
       else ret tt))
    (λ e, ret tt).

(** [d[k]] *)
Definition getitem (d : dict) (k : pystr) : M Globals value :=
  match d !! k with
  | Some v => ret v
  | None => raise (Exception (lit "KeyError"))
  end.

(** [v.strip()] *)
Definition strip_method (v : value) : M Globals pystr :=
  match v with
  | VStr s => ret (strip s)
  | _ => raise (Exception (lit "AttributeError"))
  end.

(** A value as pydantic accepts it for a [float] field: a number as it
    is, a string when it spells a number. *)
Definition as_float (v : value) : option Q :=
  match v with
  | VNum d => Some d
  | VStr s => float_of_str env s
  | VNone => None
  end.

(** [TranscriptionResponse(...)]: the fields are validated against
    their declared types ([language: str], [duration: float]). *)
Definition TranscriptionResponse_init
    (transcription : pystr) (language duration : value) (processing_time : Q)
  : M Globals TranscriptionResponse :=
  match language, as_float duration with
  | VStr l, Some d =>
      ret {| transcription := transcription; language := l;
             duration := d; processing_time := processing_time |}
  | _, _ => raise (Exception (lit "ValidationError"))
  end.

(** The [try:] block of [transcribe_audio]. *)
Definition transcribe_try (audio : UploadFile) (start_time : Q)
  : M Globals TranscriptionResponse :=
  (if truthy_int (size audio)
      && (match size audio with
          | Some n => MAX_AUDIO_SIZE cfg <? n
          | None => false
          end)
   then raise (HTTPException 413 (lit "Audio file too medium"))
   else ret tt) ;;;
  loaded <- load_whisper_model ;;
  match loaded with
  | None => raise (HTTPException 503 (lit "Failed to load Whisper model"))
  | Some model =>
      let file_id := uuid4 env in
      let temp_input_path :=
        path_join (TEMP_AUDIO_DIR cfg)
          (lit "input_" ++ file_id ++ lit "_" ++ format_opt (filename audio)) in
      let temp_output_path :=
        path_join (TEMP_AUDIO_DIR cfg)
          (lit "converted_" ++ file_id ++ lit ".wav") in
      call (open_wb temp_input_path) ;;;
      call (write temp_input_path (content audio)) ;;;
      audio_path <-
        try_except
          (match filename audio with
           | None => raise (Exception (lit "AttributeError"))
           | Some name =>
               if negb (endswith (str_lower env name) (lit ".wav")) then
                 converted <- convert_audio_format
                                temp_input_path temp_output_path 16000 ;;
                 ret (if converted : bool then temp_output_path
                      else temp_input_path)
               else ret temp_input_path
           end)
          (λ e, ret temp_input_path) ;;
      result <- extern (EvTranscribe audio_path) (transcribe model audio_path) ;;
      finished <- now ;;
      let processing_time := (finished - start_time)%Q in
      let duration := dict_get result (lit "duration") (VNum 0) in
      log (EvAddTask (lit "cleanup_temp_files")) ;;;
      try_except
        (o <- get_os ;;
         (if path_exists temp_input_path o
          then call (remove temp_input_path) else ret tt) ;;;
         o' <- get_os ;;
         (if path_exists temp_output_path o'
          then call (remove temp_output_path) else ret tt))
        (λ e, ret tt) ;;;
      text <- getitem result (lit "text") ;;
      stripped <- strip_method text ;;
      TranscriptionResponse_init
        stripped
        (dict_get result (lit "language") (VStr (lit "unknown")))
        duration
        processing_time
  end.

(** The [except] clauses of [transcribe_audio]: an [HTTPException] is
    re-raised, anything else becomes a 500. *)
Definition transcribe_except (e : exn) : M Globals TranscriptionResponse :=
  match e with
  | HTTPException _ _ => raise e
  | Exception _ =>
      raise (HTTPException 500 (lit "Transcription failed: " ++ str_exn e))
  end.

Definition transcribe_audio (audio : UploadFile) : M Globals TranscriptionResponse :=
  g <- get_globals ;;
  if MAX_CONCURRENT_REQUESTS cfg <=? current_requests g then
    raise (HTTPException 429 (lit "Too many concurrent requests"))
  else
    add_current_requests 1 ;;;
    start_time <- now ;;
    try_finally
      (try_except (transcribe_try audio start_time) transcribe_except)
      (add_current_requests (-1)).

End Service.
End STT.

(* ===================================================================== *)
(** ** tts-service/main.py                                               *)
(* ===================================================================== *)

Module TTS.
Import Py FileSystem Eff.

Record Config := {
  AUDIO_OUTPUT_DIR : pystr;
  MAX_TEXT_LENGTH : Z;
  TTS_MODEL_NAME : pystr;
  DEFAULT_LANGUAGE : pystr;
  TORCH_DEVICE : pystr;
  ENABLE_GPU : bool
}.

Definition default_config : Config := {|
  AUDIO_OUTPUT_DIR := lit "./audio";
  MAX_TEXT_LENGTH := 1000;
  TTS_MODEL_NAME := lit "tts_models/multilingual/multi-dataset/xtts_v2";
  DEFAULT_LANGUAGE := lit "en";
  TORCH_DEVICE := lit "auto";
  ENABLE_GPU := true
|}.

(** A loaded XTTS model: its [speakers] attribute ([None] when the
    attribute is missing or is [None]) and its [tts_to_file] method, called
    with text, file path, optional speaker and language. *)
Record TTSModel := {
  speakers : option (list pystr);
  tts_to_file : pystr -> pystr -> option pystr -> pystr -> OS -> OS * result unit
}.

Record Globals := MkGlobals {
  tts_model : option TTSModel;
  model_loading : bool;
  model_loaded : bool
}.

Definition initial_globals : Globals := MkGlobals None false false.

Record Env := {
  str_lower : pystr -> pystr;
  TTS_AVAILABLE : bool;
  cuda_is_available : bool;
  (** [TTS(name).to(device)] *)
  TTS_load : pystr -> pystr -> OS -> OS * result TTSModel;
  uuid4 : pystr
}.

Module VoiceSettings.
Record t := {
  speaker : option pystr;
  speed : option Q;
  emotion : option pystr;
  language : option pystr
}.
End VoiceSettings.

Record TTSRequest := {
  text : pystr;
  voice_settings : option VoiceSettings.t;
  audio_format : option pystr;
  language : option pystr
}.

Record TTSResponse := {
  audio_url : pystr;
  duration : option Q;
  file_size : Z;
  status : pystr;
  message : pystr
}.

(** [set('абвгдеёжзийклмнопрстуфхцчшщъыьэюя')], by code point. *)
Definition russian_chars : list N :=
  [1072; 1073; 1074; 1075; 1076; 1077; 1105; 1078; 1079; 1080; 1081;
   1082; 1083; 1084; 1085; 1086; 1087; 1088; 1089; 1090; 1091; 1092;
   1093; 1094; 1095; 1096; 1097; 1098; 1099; 1100; 1101; 1102; 1103]%N.

(** [set('abcdefghijklmnopqrstuvwxyz')] *)
Definition english_chars : list N := lit "abcdefghijklmnopqrstuvwxyz".

Section Service.
Context (cfg : Config) (env : Env).

Definition set_tts_model (m : option TTSModel) : M Globals unit :=
  g <- get_globals ;;
  put_globals (MkGlobals m (model_loading g) (model_loaded g)).

Definition set_model_loading (b : bool) : M Globals unit :=
  g <- get_globals ;;
  put_globals (MkGlobals (tts_model g) b (model_loaded g)).

Definition set_model_loaded (b : bool) : M Globals unit :=
  g <- get_globals ;;
  put_globals (MkGlobals (tts_model g) (model_loading g) b).

(** [time.time()] *)
Definition now : M Globals Q :=
  o <- get_os ;; ret (clock o).

Definition device : pystr :=
  if bool_decide (TORCH_DEVICE cfg = lit "auto")
  then (if cuda_is_available env && ENABLE_GPU cfg then lit "cuda" else lit "cpu")
  else TORCH_DEVICE cfg.

Definition load_tts_model : M Globals unit :=
  g <- get_globals ;;
  if model_loaded g || model_loading g then ret tt
  else
    set_model_loading true ;;;
    try_finally
      (try_except
         ((if negb (TTS_AVAILABLE env)
           then raise (Exception (lit "TTS library not available"))
           else ret tt) ;;;
          model <- extern (EvLoadModel (TTS_MODEL_NAME cfg) device)
                     (TTS_load env (TTS_MODEL_NAME cfg) device) ;;
          set_tts_model (Some model) ;;;
          set_model_loaded true)
         (λ e, raise e))
      (set_model_loading false).

Definition startup_event : M Globals unit :=
  try_except load_tts_model (λ e, ret tt).

Definition cleanup_old_files : M Globals unit :=
  try_except
    (current_time <- now ;;
     names <- query (listdir (AUDIO_OUTPUT_DIR cfg)) ;;
     for_each names (λ filename,
       let file_path := path_join (AUDIO_OUTPUT_DIR cfg) filename in
       o <- get_os ;;
       if isfile file_path o then
         ctime <- query (getctime file_path) ;;
         let file_age := (current_time - ctime)%Q in
         if Qlt_bool 3600 file_age
         then call (remove file_path)
         else ret tt
       else ret tt))
    (λ e, ret tt).

(** The language handed to the model: request parameter, then voice
    settings, then the character count over the cleaned text. *)
Definition select_language (request : TTSRequest) (clean_text : pystr) : pystr :=
  let language0 := DEFAULT_LANGUAGE cfg in
  if truthy_str (language request) then
    default language0 (language request)
  else if match voice_settings request with
          | Some vs => truthy_str (VoiceSettings.language vs)
          | None => false
          end then
    default language0 (voice_settings request ≫= VoiceSettings.language)
  else if truthy_str (Some clean_text) then
    let rus_count := count_in russian_chars (str_lower env clean_text) in
    let eng_count := count_in english_chars (str_lower env clean_text) in
    if eng_count <? rus_count then lit "ru" else lit "en"
  else language0.

(** The [try:] block of [generate_speech]. *)
Definition generate_try (request : TTSRequest) : M Globals TTSResponse :=
  let file_id := uuid4 env in
  let filename :=
    lit "tts_" ++ file_id ++ lit "." ++ format_opt (audio_format request) in
  let output_path := path_join (AUDIO_OUTPUT_DIR cfg) filename in
  let clean_text := strip (text request) in
  let language := select_language request clean_text in
  let speaker_name :=
    if bool_decide (language = lit "ru")
    then lit "Dmitrii" else lit "Claribel Dervla" in
  g <- get_globals ;;
  match tts_model g with
  | None => raise (Exception (lit "AttributeError"))
  | Some model =>
      let synth (speaker : option pystr) :=
        extern (EvTtsToFile clean_text output_path speaker language)
          (tts_to_file model clean_text output_path speaker language) in
      match speakers model with
      | Some ((first :: _) as available) =>
          if bool_decide (speaker_name ∈ available) then
            synth (Some speaker_name)
          else
            let first_speaker := first in
            if truthy_str (Some first_speaker)
            then synth (Some first_speaker)
            else synth None
      | _ => synth None
      end
  end ;;;
  file_size <- query (getsize output_path) ;;
  let word_count := Z.of_nat (length (split clean_text)) in
  let estimated_duration := ((inject_Z word_count / 150) * 60)%Q in
  log (EvAddTask (lit "cleanup_old_files")) ;;;
  ret {| audio_url := lit "/audio/" ++ filename;
         duration := Some estimated_duration;
         file_size := file_size;
         status := lit "success";
         message := lit "Speech generated successfully" |}.

Definition generate_speech (request : TTSRequest) : M Globals TTSResponse :=
  g <- get_globals ;;
  if negb (model_loaded g) || bool_decide (tts_model g = None) then
    raise (HTTPException 503 (lit "TTS model not loaded"))
  else if negb (truthy_str (Some (strip (text request)))) then
    raise (HTTPException 400 (lit "Text cannot be empty"))
  else
    try_except
      (generate_try request)
      (λ e,
         raise (HTTPException 500 (lit "Failed to generate speech: " ++ str_exn e))).

End Service.
End TTS.

(* ===================================================================== *)
(** ** Vocabulary of the properties                                      *)
(* ===================================================================== *)

Module Props.
Import Py FileSystem Eff.

Section Generic.
Context {G : Type}.

(** Every exception [m] can end with satisfies [P]. *)
Definition raises_only {A} (P : exn -> Prop) (m : M G A) : Prop :=
  ∀ w e, outcome (m w) = Raise e -> P e.

(** Every event [m] leaves in the trace satisfies [P]. *)
Definition emits_only {A} (P : event -> Prop) (m : M G A) : Prop :=
  ∀ w, Forall P (trace (m w)).

(** [m] takes every world to an [R]-related one. *)
Definition preserves {A} (R : world G -> world G -> Prop) (m : M G A) : Prop :=
  ∀ w, R w (final (m w)).

(** The three together. *)
Definition sound {A} (P : exn -> Prop) (Q : event -> Prop)
    (R : world G -> world G -> Prop) (m : M G A) : Prop :=
  raises_only P m ∧ emits_only Q m ∧ preserves R m.

End Generic.

(** [e] is an ordinary exception, or an [HTTPException] with one of the
    given status codes. *)
Definition status_in (codes : list Z) (e : exn) : Prop :=
  match e with
  | HTTPException c _ => c ∈ codes
  | Exception _ => True
  end.

(** [e] is an [HTTPException] with one of the given status codes. *)
Definition http_in (codes : list Z) (e : exn) : Prop :=
  match e with
  | HTTPException c _ => c ∈ codes
  | Exception _ => False
  end.

Definition not_counter (ev : event) : Prop :=
  match ev with EvCounter _ => False | _ => True end.

(** The request counter has the same value in both worlds. *)
Definition same_counter (w w' : world STT.Globals) : Prop :=
  STT.current_requests (globals w') = STT.current_requests (globals w).

(** The size test of [transcribe_audio]:
    [audio.size and audio.size > MAX_AUDIO_SIZE]. *)
Definition oversized (cfg : STT.Config) (audio : STT.UploadFile) : bool :=
  truthy_int (STT.size audio)
  && match STT.size audio with
     | Some n => STT.MAX_AUDIO_SIZE cfg <? n
     | None => false
     end.

(** The world in which the counter has been moved by [d]. *)
Definition bump (d : Z) (w : world STT.Globals) : world STT.Globals :=
  World (STT.MkGlobals (STT.whisper_model (globals w)) (STT.model_loading (globals w))
           (STT.current_requests (globals w) + d))
        (os w).

(** The call got past the admission gate: it counted itself in. *)
Definition admitted {A} (r : run STT.Globals A) : Prop :=
  ∃ t, trace r = EvCounter 1 :: t.

(** The call was turned away with a 429 and changed nothing. *)
Definition rejected {A} (w : world STT.Globals) (r : run STT.Globals A) : Prop :=
  r = Run w [] (Raise (HTTPException 429 (lit "Too many concurrent requests"))).

(** The admission gate as the specification words it: reject when the counter is
    above the threshold, admit otherwise. *)
Definition gate_rejects_above (cfg : STT.Config) (env : STT.Env)
    (audio : STT.UploadFile) (w : world STT.Globals) : Prop :=
  let r := STT.transcribe_audio cfg env audio w in
  let c := STT.current_requests (globals w) in
  (STT.MAX_CONCURRENT_REQUESTS cfg < c -> rejected w r)
  ∧ (¬ STT.MAX_CONCURRENT_REQUESTS cfg < c -> admitted r).

(** The client reported a size, it is not zero, and it is over the limit. *)
Definition reported_oversize (cfg : STT.Config) (audio : STT.UploadFile) : Prop :=
  ∃ n, STT.size audio = Some n ∧ n ≠ 0 ∧ STT.MAX_AUDIO_SIZE cfg < n.

(** The run ended with an [HTTPException] of the given status. *)
Definition raised_http {A G} (code : Z) (r : run G A) : Prop :=
  ∃ detail, outcome r = Raise (HTTPException code detail).

(** The size check as the specification words it: the call ends in HTTP 413
    exactly when the reported size is over the limit. *)
Definition size_decides_413 (cfg : STT.Config) (env : STT.Env)
    (audio : STT.UploadFile) (w : world STT.Globals) : Prop :=
  raised_http 413 (STT.transcribe_audio cfg env audio w) ↔ reported_oversize cfg audio.

(** The balance as the specification words it: after a completed call the
    counter has the value it had before the call. *)
Definition counter_restored (cfg : STT.Config) (env : STT.Env)
    (audio : STT.UploadFile) (w : world STT.Globals) : Prop :=
  let r := STT.transcribe_audio cfg env audio w in
  outcome r ≠ Hang ->
  STT.current_requests (globals (final r)) = STT.current_requests (globals w).

(** The value of the counter after the updates recorded in a trace. *)
Fixpoint counter_after (c : Z) (t : list event) : Z :=
  match t with
  | [] => c
  | EvCounter d :: t' => counter_after (c + d) t'
  | _ :: t' => counter_after c t'
  end.

(** The successive values the counter takes along a trace. *)
Fixpoint counter_values (c : Z) (t : list event) : list Z :=
  match t with
  | [] => []
  | EvCounter d :: t' => (c + d) :: counter_values (c + d) t'
  | _ :: t' => counter_values c t'
  end.

(** Sequential execution: each request is handled to its end before the
    next one starts; a request that never returns blocks those behind it. *)
Fixpoint serve (cfg : STT.Config) (reqs : list (STT.Env * STT.UploadFile))
    (w : world STT.Globals) : world STT.Globals * list event :=
  match reqs with
  | [] => (w, [])
  | (env, audio) :: rest =>
      let r := STT.transcribe_audio cfg env audio w in
      match outcome r with
      | Hang => (final r, trace r)
      | _ => let '(w', t) := serve cfg rest (final r) in (w', trace r ++ t)
      end
  end.

(** What the response fields are when built from the model's result the
    way the specification says. *)
Definition fields_from_result (env : STT.Env) (result : dict)
    (resp : STT.TranscriptionResponse) : Prop :=
  ∃ txt,
    result !! lit "text" = Some (VStr txt)
    ∧ STT.transcription resp = strip txt
    ∧ match result !! lit "language" with
      | Some v => v = VStr (STT.language resp)
      | None => STT.language resp = lit "unknown"
      end
    ∧ match result !! lit "duration" with
      | Some v => STT.as_float env v = Some (STT.duration resp)
      | None => STT.duration resp = 0%Q
      end.

(** The world a sleeping STT coroutine finds after [k] sleeps. *)
Fixpoint after_sleeps (env : STT.Env) (k : nat) (w : world STT.Globals)
  : world STT.Globals :=
  match k with
  | O => w
  | S k' => after_sleeps env k' (STT.others env w)
  end.

(** The load in progress is seen finished at the [k]-th poll, not before. *)
Definition load_finishes_at (env : STT.Env) (k : nat) (w : world STT.Globals) : Prop :=
  (∀ j, (j < k)%nat -> STT.model_loading (globals (after_sleeps env j w)) = true)
  ∧ STT.model_loading (globals (after_sleeps env k w)) = false.

(** The TTS loader as the specification words it: a call made while a load is in
    progress does not return before that load has finished. *)
Definition tts_waits_for_load (cfg : TTS.Config) (env : TTS.Env)
    (w : world TTS.Globals) : Prop :=
  TTS.model_loading (globals w) = true ->
  let r := TTS.load_tts_model cfg env w in
  outcome r ≠ Hang -> TTS.model_loading (globals (final r)) = false.

(** Lowercase Cyrillic as the specification words it: ['а'..'я'] plus ['ё']. *)
Definition is_cyrillic_lower (c : N) : bool :=
  ((1072 <=? c) && (c <=? 1103) || (c =? 1105))%N.

(** Lowercase Latin: ['a'..'z']. *)
Definition is_latin_lower (c : N) : bool :=
  ((97 <=? c) && (c <=? 122))%N.

(** How many characters of [s] satisfy [p]. *)
Definition count_chars (p : N -> bool) (s : pystr) : Z :=
  Z.of_nat (length (List.filter p s)).

(** The language of a [tts_to_file] call is [l], and the text it was
    chosen for is not empty. *)
Definition synthesis_language (l : pystr) (clean_text : pystr) (ev : event) : Prop :=
  match ev with
  | EvTtsToFile _ _ _ l' => l' = l ∧ clean_text ≠ []
  | _ => True
  end.

Section Evict.
Context {G : Type}.

(** One round of the clean-up loop, for the directory entry [filename]. *)
Definition evict_entry (dir : pystr) (limit current_time : Q) (filename : pystr)
  : M G unit :=
  let file_path := path_join dir filename in
  o <- get_os ;;
  if isfile file_path o then
    ctime <- query (getctime file_path) ;;
    let file_age := (current_time - ctime)%Q in
    if Qlt_bool limit file_age
    then call (remove file_path)
    else ret tt
  else ret tt.

(** The clean-up task of either service: directory and age limit are
    all that differs. *)
Definition evict_older_than (dir : pystr) (limit : Q) : M G unit :=
  try_except
    (current_time <- (o <- get_os ;; ret (clock o)) ;;
     names <- query (listdir dir) ;;
     for_each names (evict_entry dir limit current_time))
    (λ e, ret tt).

End Evict.

(** The entry is a regular file older than [limit] at time [now]. *)
Definition expired (limit now : Q) (nd : node) : bool :=
  bool_decide (n_kind nd = Regular) && Qlt_bool limit (now - n_ctime nd).

(** Does the entry at [p] go in this round? *)
Definition evicted_here {G} (limit now : Q) (w : world G) (p : pystr) : bool :=
  match files (os w) !! p with
  | Some nd => expired limit now nd
  | None => false
  end.

(** Eviction purely by age, as the specification words it: of the entries of
    directory [dir] in [before], the regular files older than [limit] are
    gone in [after], and every other entry is there as it was. *)
Definition evicts_by_age (dir : pystr) (limit : Q) (before after : OS) : Prop :=
  ∀ p name nd,
    child_name dir p = Some name ->
    files before !! p = Some nd ->
    let age := (clock before - n_ctime nd)%Q in
    (n_kind nd = Regular -> (files after !! p = None ↔ (limit < age)%Q))
    ∧ (n_kind nd ≠ Regular ∨ (age <= limit)%Q -> files after !! p = Some nd).

(** Did the ffmpeg transcode of [convert_audio_format] succeed? *)
Definition ffmpeg_ok (env : STT.Env) (i o : pystr) (sr : Z) (w : world STT.Globals) : bool :=
  match (STT.ffmpeg_run env i o sr (os w)).2 with
  | Success _ => true
  | Failure _ => false
  end.

(** Does the librosa fallback (load, then write) succeed on the OS that
    the ffmpeg attempt leaves behind? *)
Definition librosa_ok (env : STT.Env) (i o : pystr) (sr : Z) (w : world STT.Globals) : bool :=
  let o1 := (STT.ffmpeg_run env i o sr (os w)).1 in
  match STT.librosa_load env i sr o1 with
  | (o2, Success audio) =>
      match (STT.sf_write env o audio sr o2).2 with
      | Success _ => true
      | Failure _ => false
      end
  | (_, Failure _) => false
  end.

End Props.

(* ===================================================================== *)
(** ** Sample collaborators, requests and worlds                         *)
(* ===================================================================== *)

Module Samples.
Import Py FileSystem Eff.

(** [str.lower] on Basic Latin and on the Russian alphabet; every other
    code point is kept. *)
Definition lower_char (c : N) : N :=
  (if (65 <=? c) && (c <=? 90) then c + 32
   else if (1040 <=? c) && (c <=? 1071) then c + 32
   else if c =? 1025 then 1105
   else c)%N.

Definition lower (s : pystr) : pystr := List.map lower_char s.

(** A reader of the decimal numerals [12] and [12.5], as a sample of how
    a string is read for a [float] field. *)
Fixpoint digits (acc : Z) (s : pystr) : option Z :=
  match s with
  | [] => Some acc
  | c :: s' =>
      if ((48 <=? c) && (c <=? 57))%N
      then digits (10 * acc + Z.of_N (c - 48)) s'
      else None
  end.

Fixpoint until_dot (s : pystr) : pystr * option pystr :=
  match s with
  | [] => ([], None)
  | c :: s' =>
      if (c =? 46)%N then ([], Some s')
      else let '(a, b) := until_dot s' in (c :: a, b)
  end.

Definition read_decimal (s : pystr) : option Q :=
  match until_dot s with
  | ([], _) | (_, Some []) => None
  | (a, None) => inject_Z <$> digits 0 a
  | (a, Some b) =>
      match digits 0 a, digits 0 b with
      | Some x, Some y =>
          Some (inject_Z x + inject_Z y / inject_Z (10 ^ Z.of_nat (length b)))%Q
      | _, _ => None
      end
  end.

(** The temp directory as the service creates it at import: there, and
    empty. *)
Definition empty_temp : OS :=
  MkOS {[ lit "./temp" := Node Directory 0 [] ]} 0.

(** A model whose transcription is always the same. *)
Definition whisper : STT.WhisperModel := {|
  STT.transcribe := λ _ o,
    (o, Success ({[ lit "text" := VStr (lit " hello world ");
                    lit "language" := VStr (lit "en") ]} : dict))
|}.

(** ffmpeg is missing, librosa works, the model loads, nothing else runs. *)
Definition stt_env : STT.Env := {|
  STT.str_lower := lower;
  STT.cuda_is_available := false;
  STT.whisper_load_model := λ _ _ o, (o, Success whisper);
  STT.ffmpeg_run := λ _ _ _ o, (o, Failure (lit "ffmpeg.Error"));
  STT.librosa_load := λ _ _ o, (o, Success [0%Q]);
  STT.sf_write := λ p _ _ o,
    (MkOS (<[p := Node Regular (clock o) []]> (files o)) (clock o), Success tt);
  STT.uuid4 := lit "1b4e28ba";
  STT.float_of_str := read_decimal;
  STT.others := λ w, w;
  STT.patience := 0
|}.

(** A three-byte upload that reports its size. *)
Definition upload : STT.UploadFile := {|
  STT.filename := Some (lit "a.mp3");
  STT.size := Some 3;
  STT.content := [Byte.x00; Byte.x01; Byte.x02]
|}.

(** An upload that reports a size larger than the default limit. *)
Definition big_upload : STT.UploadFile := {|
  STT.filename := Some (lit "big.mp3");
  STT.size := Some 60000000;
  STT.content := []
|}.

(** The service with [c] requests in flight, no model loaded yet and an
    empty temp directory. *)
Definition stt_world (c : Z) : world STT.Globals :=
  World (STT.MkGlobals None false c) empty_temp.

(** An event loop in which each sleep lasts a tenth of a second and the
    load that is in progress finishes (successfully) once the clock
    reaches 0.2. *)
Definition finishing_loop (w : world STT.Globals) : world STT.Globals :=
  let t := (clock (os w) + (1 # 10))%Q in
  if Qle_bool (2 # 10) t then
    World (STT.MkGlobals (Some whisper) false (STT.current_requests (globals w)))
          (MkOS (files (os w)) t)
  else World (globals w) (MkOS (files (os w)) t).

Definition waiting_env : STT.Env := {|
  STT.str_lower := lower;
  STT.cuda_is_available := false;
  STT.whisper_load_model := λ _ _ o, (o, Success whisper);
  STT.ffmpeg_run := λ _ _ _ o, (o, Failure (lit "ffmpeg.Error"));
  STT.librosa_load := λ _ _ o, (o, Success [0%Q]);
  STT.sf_write := λ _ _ _ o, (o, Success tt);
  STT.uuid4 := lit "1b4e28ba";
  STT.float_of_str := read_decimal;
  STT.others := finishing_loop;
  STT.patience := 5
|}.

(** An event loop in which, during a sleep, the load that is in progress
    finishes and another request is admitted (and is still being handled). *)
Definition crowded_loop (w : world STT.Globals) : world STT.Globals :=
  World (STT.MkGlobals (Some whisper) false (STT.current_requests (globals w) + 1))
        (os w).

Definition crowded_env : STT.Env := {|
  STT.str_lower := lower;
  STT.cuda_is_available := false;
  STT.whisper_load_model := λ _ _ o, (o, Success whisper);
  STT.ffmpeg_run := λ _ _ _ o, (o, Failure (lit "ffmpeg.Error"));
  STT.librosa_load := λ _ _ o, (o, Success [0%Q]);
  STT.sf_write := λ _ _ _ o, (o, Success tt);
  STT.uuid4 := lit "1b4e28ba";
  STT.float_of_str := read_decimal;
  STT.others := crowded_loop;
  STT.patience := 5
|}.

(** A model that takes two seconds and reports the duration as a string,
    and no language. *)
Definition timed : STT.WhisperModel := {|
  STT.transcribe := λ _ o,
    (MkOS (files o) (clock o + 2),
     Success ({[ lit "text" := VStr (lit " hello world ");
                 lit "duration" := VStr (lit "1.5") ]} : dict))
|}.

Definition stt_timed : world STT.Globals :=
  World (STT.MkGlobals (Some timed) false 0) empty_temp.

Definition timed_response : STT.TranscriptionResponse := {|
  STT.transcription := lit "hello world";
  STT.language := lit "unknown";
  STT.duration := (inject_Z 1 + inject_Z 5 / inject_Z 10)%Q;
  STT.processing_time := (0 + 2 - 0)%Q
|}.

(** STT worlds: a load is in progress; the model is cached. *)
Definition stt_loading : world STT.Globals :=
  World (STT.MkGlobals None true 0) empty_temp.

Definition stt_loaded : world STT.Globals :=
  World (STT.MkGlobals (Some whisper) false 0) empty_temp.

(** A model with two speakers that writes a four-byte file. *)
Definition xtts : TTS.TTSModel := {|
  TTS.speakers := Some [lit "Claribel Dervla"; lit "Dmitrii"];
  TTS.tts_to_file := λ _ path _ _ o,
    (MkOS (<[path := Node Regular (clock o) [Byte.x52; Byte.x49; Byte.x46; Byte.x46]]>
             (files o)) (clock o),
     Success tt)
|}.

Definition tts_env : TTS.Env := {|
  TTS.str_lower := lower;
  TTS.TTS_AVAILABLE := true;
  TTS.cuda_is_available := false;
  TTS.TTS_load := λ _ _ o, (o, Success xtts);
  TTS.uuid4 := lit "6fa459ea"
|}.

(** TTS worlds: a load is in progress; the model is loaded. *)
Definition tts_loading : world TTS.Globals :=
  World (TTS.MkGlobals None true false) (MkOS ∅ 0%Q).

Definition tts_loaded : world TTS.Globals :=
  World (TTS.MkGlobals (Some xtts) false true) (MkOS ∅ 0%Q).

(** "Привет, world": six Cyrillic letters against five Latin ones. *)
Definition privet_world : pystr :=
  [1055; 1088; 1080; 1074; 1077; 1090; 44; 32; 119; 111; 114; 108; 100]%N.

Definition plain_request (txt : pystr) : TTS.TTSRequest := {|
  TTS.text := txt;
  TTS.voice_settings := None;
  TTS.audio_format := Some (lit "wav");
  TTS.language := None
|}.

(** A temp directory an hour and a half after the epoch: a fresh file,
    a stale file, a stale sub-directory, and a stale file elsewhere. *)
Definition fresh : node := Node Regular 5000 [Byte.x00].
Definition stale : node := Node Regular 100 [Byte.x01].
Definition subdir : node := Node Directory 100 [].

Definition temp_os : OS :=
  MkOS (<[lit "./temp/fresh.wav" := fresh]>
        (<[lit "./temp/stale.wav" := stale]>
         (<[lit "./temp/old" := subdir]>
          (<[lit "./elsewhere/stale.wav" := stale]> ∅))))
       5400.

End Samples.

(* ===================================================================== *)
(** ** The remaining endpoints                                           *)
(* ===================================================================== *)

Module STTHealth.
Import Py FileSystem Eff.

Record HealthResponse := {
  status : pystr;
  model_loaded : bool;
  gpu_available : bool;
  supported_formats : list pystr
}.

(** [GET /health] of the STT service. *)
Definition health_check (env : STT.Env) : M STT.Globals HealthResponse :=
  g <- get_globals ;;
  let gpu_available := STT.cuda_is_available env in
  let model_loaded := bool_decide (STT.whisper_model g ≠ None) in
  let supported_formats :=
    [lit "wav"; lit "mp3"; lit "mp4"; lit "m4a"; lit "flac"; lit "ogg"; lit "webm"] in
  ret {| status := if model_loaded then lit "healthy" else lit "loading";
         model_loaded := model_loaded;
         gpu_available := gpu_available;
         supported_formats := supported_formats |}.

End STTHealth.

Module TTSAudio.
Import Py FileSystem Eff.

(** What [FileResponse(file_path, media_type=...)] is built from. *)
Record FileResponse := {
  path : pystr;
  media_type : pystr
}.

(** [GET /audio/{filename}] *)
Definition get_audio_file (cfg : TTS.Config) (filename : pystr)
  : M TTS.Globals FileResponse :=
  let file_path := path_join (TTS.AUDIO_OUTPUT_DIR cfg) filename in
  o <- get_os ;;
  if negb (path_exists file_path o) then
    raise (HTTPException 404 (lit "Audio file not found"))
  else ret {| path := file_path; media_type := lit "audio/wav" |}.

End TTSAudio.

(* ===================================================================== *)
(** ** The steps of [transcribe_audio], one by one                       *)
(* ===================================================================== *)

Module Steps.
Import Py FileSystem Eff.

Section Steps.
Context (cfg : STT.Config) (env : STT.Env) (audio : STT.UploadFile).

(** Where the upload is saved. *)
Definition temp_input_path : pystr :=
  path_join (STT.TEMP_AUDIO_DIR cfg)
    (lit "input_" ++ STT.uuid4 env ++ lit "_" ++ format_opt (STT.filename audio)).

(** Where its converted copy goes. *)
Definition temp_output_path : pystr :=
  path_join (STT.TEMP_AUDIO_DIR cfg)
    (lit "converted_" ++ STT.uuid4 env ++ lit ".wav").

(** The conversion step: the path that is handed to the model. *)
Definition choose_audio_path : M STT.Globals pystr :=
  try_except
    (match STT.filename audio with
     | None => raise (Exception (lit "AttributeError"))
     | Some name =>
         if negb (endswith (STT.str_lower env name) (lit ".wav")) then
           converted <- STT.convert_audio_format env
                          temp_input_path temp_output_path 16000 ;;
           ret (if converted : bool then temp_output_path
                else temp_input_path)
         else ret temp_input_path
     end)
    (λ e, ret temp_input_path).

(** The immediate removal of the two temp files. *)
Definition remove_temp_files : M STT.Globals unit :=
  try_except
    (o <- get_os ;;
     (if path_exists temp_input_path o
      then call (remove temp_input_path) else ret tt) ;;;
     o' <- get_os ;;
     (if path_exists temp_output_path o'
      then call (remove temp_output_path) else ret tt))
    (λ e, ret tt).

(** What [transcribe_audio] does once it holds a model. *)
Definition transcribe_rest (start_time : Q) (model : STT.WhisperModel)
  : M STT.Globals STT.TranscriptionResponse :=
  call (open_wb temp_input_path) ;;;
  call (write temp_input_path (STT.content audio)) ;;;
  audio_path <- choose_audio_path ;;
  result <- extern (EvTranscribe audio_path) (STT.transcribe model audio_path) ;;
  finished <- STT.now ;;
  let processing_time := (finished - start_time)%Q in
  let duration := dict_get result (lit "duration") (VNum 0) in
  log (EvAddTask (lit "cleanup_temp_files")) ;;;
  remove_temp_files ;;;
  text <- STT.getitem result (lit "text") ;;
  stripped <- STT.strip_method text ;;
  STT.TranscriptionResponse_init env
    stripped
    (dict_get result (lit "language") (VStr (lit "unknown")))
    duration
    processing_time.

(** What [transcribe_audio] does once it has settled on a path. *)
Definition transcribe_with (start_time : Q) (model : STT.WhisperModel)
    (audio_path : pystr) : M STT.Globals STT.TranscriptionResponse :=
  result <- extern (EvTranscribe audio_path) (STT.transcribe model audio_path) ;;
  finished <- STT.now ;;
  let processing_time := (finished - start_time)%Q in
  let duration := dict_get result (lit "duration") (VNum 0) in
  log (EvAddTask (lit "cleanup_temp_files")) ;;;
  remove_temp_files ;;;
  text <- STT.getitem result (lit "text") ;;
  stripped <- STT.strip_method text ;;
  STT.TranscriptionResponse_init env
    stripped
    (dict_get result (lit "language") (VStr (lit "unknown")))
    duration
    processing_time.

(** The file system once the upload has been written: [open], then
    [write]. *)
Definition saved_upload (o : OS) : OS :=
  (write temp_input_path (STT.content audio) (open_wb temp_input_path o).1).1.

(** Can the file for the upload be opened? *)
Definition upload_opens (o : OS) : bool :=
  match (open_wb temp_input_path o).2 with
  | Success _ => true
  | Failure _ => false
  end.

(** The test in front of the conversion:
    [not audio.filename.lower().endswith('.wav')], false when the test
    itself raises. *)
Definition needs_conversion : bool :=
  match STT.filename audio with
  | Some name => negb (endswith (STT.str_lower env name) (lit ".wav"))
  | None => false
  end.

End Steps.

(** Anything but a call of the model. *)
Definition not_transcribe (ev : event) : Prop :=
  match ev with
  | EvTranscribe _ => False
  | _ => True
  end.

(** The run is the bare exception [e] on the untouched world. *)
Definition refused {G A} (e : exn) (w : world G) (r : run G A) : Prop :=
  r = Run w [] (Raise e).

(** The module globals are the same in both worlds. *)
Definition same_globals {G} (w w' : world G) : Prop := globals w' = globals w.

(** What a request that holds a model can leave in the trace. *)
Definition body_event (ev : event) : Prop :=
  match ev with
  | EvFfmpeg _ _ | EvLibrosaLoad _ | EvSfWrite _ | EvTranscribe _ | EvAddTask _ => True
  | _ => False
  end.

(** Events of the conversion step. *)
Definition is_conversion (ev : event) : Prop :=
  match ev with
  | EvFfmpeg _ _ | EvLibrosaLoad _ | EvSfWrite _ => True
  | _ => False
  end.

(** Events that stand for a model load or a wait for one. *)
Definition is_loading (ev : event) : Prop :=
  match ev with
  | EvLoadModel _ _ | EvSleep => True
  | _ => False
  end.

(** The upload needs no conversion: its name ends in [.wav] once
    lowercased, or it has no name at all (the test for the suffix then
    raises inside the [try] around the conversion). *)
Definition keeps_format (env : STT.Env) (audio : STT.UploadFile) : Prop :=
  match STT.filename audio with
  | Some name => endswith (STT.str_lower env name) (lit ".wav") = true
  | None => True
  end.

(** The model is only called on one of [paths], and a conversion is only
    attempted when [conv] holds. *)
Definition request_event (paths : list pystr) (conv : Prop) (ev : event) : Prop :=
  match ev with
  | EvTranscribe p => p ∈ paths
  | EvFfmpeg _ _ | EvLibrosaLoad _ | EvSfWrite _ => conv
  | _ => True
  end.

(** A run that returns [None], calls no third-party code, schedules
    nothing and writes no global. *)
Definition silent {G} (w : world G) (r : run G unit) : Prop :=
  outcome r = Ok tt ∧ trace r = [] ∧ globals (final r) = globals w.

(** [after] is [before] with some regular files of directory [dir]
    removed: the clock and every other entry are as they were. *)
Definition only_removes_from (dir : pystr) (before after : OS) : Prop :=
  clock after = clock before
  ∧ ∀ p, files after !! p = files before !! p
         ∨ (files after !! p = None
            ∧ is_Some (child_name dir p) ∧ isfile p before = true).

(** [m] always comes to an end: it returns or raises. *)
Definition halts {G A} (m : M G A) : Prop := ∀ w, outcome (m w) ≠ Hang.

(** The file [generate_speech] writes for a request. *)
Definition output_name (env : TTS.Env) (request : TTS.TTSRequest) : pystr :=
  lit "tts_" ++ TTS.uuid4 env ++ lit "." ++ format_opt (TTS.audio_format request).

Definition output_path (cfg : TTS.Config) (env : TTS.Env) (request : TTS.TTSRequest)
  : pystr :=
  path_join (TTS.AUDIO_OUTPUT_DIR cfg) (output_name env request).

(** The voice [generate_speech] prefers for a language. *)
Definition default_speaker (language : pystr) : pystr :=
  if bool_decide (language = lit "ru") then lit "Dmitrii" else lit "Claribel Dervla".

(** The TTS model cannot be loaded: the library is missing, or the loader
    raises on this file system. *)
Definition tts_load_fails (cfg : TTS.Config) (env : TTS.Env) (o : OS) : bool :=
  negb (TTS.TTS_AVAILABLE env)
  || match (TTS.TTS_load env (TTS.TTS_MODEL_NAME cfg) (TTS.device cfg env) o).2 with
     | Success _ => false
     | Failure _ => true
     end.

(** What [generate_speech] can leave in the trace: calls of the model's
    [tts_to_file], and the scheduling of [cleanup_old_files]. *)
Definition speech_event (ev : event) : Prop :=
  match ev with
  | EvTtsToFile _ _ _ _ => True
  | EvAddTask name => name = lit "cleanup_old_files"
  | _ => False
  end.

(** Requests to [generate_speech], one after the other. *)
Fixpoint speak (cfg : TTS.Config) (env : TTS.Env) (reqs : list TTS.TTSRequest)
    (w : world TTS.Globals) : world TTS.Globals :=
  match reqs with
  | [] => w
  | request :: rest => speak cfg env rest (final (TTS.generate_speech cfg env request w))
  end.

End Steps.

(* ===================================================================== *)
(** ** More samples                                                      *)
(* ===================================================================== *)

Module Samples2.
Import Py FileSystem Eff Samples.

(** A [.wav] upload: no conversion needed. *)
Definition wav_upload : STT.UploadFile := {|
  STT.filename := Some (lit "Take1.WAV");
  STT.size := None;
  STT.content := [Byte.x52; Byte.x49]
|}.

(** What the sample model's result becomes in the response. *)
Definition sample_response : STT.TranscriptionResponse := {|
  STT.transcription := lit "hello world";
  STT.language := lit "en";
  STT.duration := 0;
  STT.processing_time := 0
|}.

(** An upload whose name points into a directory that does not exist. *)
Definition nested_upload : STT.UploadFile := {|
  STT.filename := Some (lit "a/b.wav");
  STT.size := None;
  STT.content := [Byte.x52; Byte.x49]
|}.

(** A model whose [transcribe] always raises. *)
Definition deaf : STT.WhisperModel := {|
  STT.transcribe := λ _ o, (o, Failure (lit "RuntimeError"))
|}.

Definition stt_deaf : world STT.Globals :=
  World (STT.MkGlobals (Some deaf) false 0) empty_temp.

(** A service whose model cannot be loaded. *)
Definition broken_env : STT.Env := {|
  STT.str_lower := lower;
  STT.cuda_is_available := true;
  STT.whisper_load_model := λ _ _ o, (o, Failure (lit "OSError"));
  STT.ffmpeg_run := λ _ _ _ o, (o, Failure (lit "ffmpeg.Error"));
  STT.librosa_load := λ _ _ o, (o, Failure (lit "NoBackendError"));
  STT.sf_write := λ _ _ _ o, (o, Success tt);
  STT.uuid4 := lit "1b4e28ba";
  STT.float_of_str := read_decimal;
  STT.others := λ w, w;
  STT.patience := 0
|}.

(** The TTS library is not installed. *)
Definition no_tts_env : TTS.Env := {|
  TTS.str_lower := lower;
  TTS.TTS_AVAILABLE := false;
  TTS.cuda_is_available := false;
  TTS.TTS_load := λ _ _ o, (o, Success xtts);
  TTS.uuid4 := lit "6fa459ea"
|}.

Definition tts_idle : world TTS.Globals :=
  World TTS.initial_globals (MkOS ∅ 0%Q).

(** The response to the sample request. *)
Definition privet_response : TTS.TTSResponse := {|
  TTS.audio_url := lit "/audio/tts_6fa459ea.wav";
  TTS.duration := Some ((inject_Z 2 / 150) * 60)%Q;
  TTS.file_size := 4;
  TTS.status := lit "success";
  TTS.message := lit "Speech generated successfully"
|}.

End Samples2.

(* ===================================================================== *)
(** ** Facts about the effect combinators                                *)
(* ===================================================================== *)

Module EffFacts.
Import Py FileSystem Eff Props.

Section Facts.
Context {G : Type}.
Implicit Types (w : world G) (P : exn -> Prop) (Q : event -> Prop).

Lemma bind_run {A B} (m : M G A) (k : A -> M G B) w :
  bind m k w =
    match outcome (m w) with
    | Ok a => Run (final (k a (final (m w))))
                (trace (m w) ++ trace (k a (final (m w))))
                (outcome (k a (final (m w))))
    | Raise e => Run (final (m w)) (trace (m w)) (Raise e)
    | Hang => Run (final (m w)) (trace (m w)) Hang
    end.
Proof.
  unfold bind. destruct (m w) as [w1 t1 [a|e|]]; simpl; [|done..].
  by destruct (k a w1).
Qed.

Lemma try_except_run {A} (m : M G A) (h : exn -> M G A) w :
  try_except m h w =
    match outcome (m w) with
    | Raise e => Run (final (h e (final (m w))))
                   (trace (m w) ++ trace (h e (final (m w))))
                   (outcome (h e (final (m w))))
    | _ => m w
    end.
Proof.
  unfold try_except. destruct (m w) as [w1 t1 [a|e|]]; simpl; [done| |done].
  by destruct (h e w1).
Qed.

Lemma try_finally_run {A} (m : M G A) (fin : M G unit) w :
  try_finally m fin w =
    match outcome (m w) with
    | Hang => m w
    | o => Run (final (fin (final (m w))))
             (trace (m w) ++ trace (fin (final (m w))))
             (match outcome (fin (final (m w))) with
              | Ok _ => o
              | Raise e => Raise e
              | Hang => Hang
              end)
    end.
Proof.
  unfold try_finally. destruct (m w) as [w1 t1 [a|e|]]; simpl; [| |done];
    by destruct (fin w1) as [w2 t2 [[]|e'|]].
Qed.

Lemma run_eta {A} (r : run G A) : Run (final r) (trace r) (outcome r) = r.
Proof. by destruct r. Qed.

Lemma bind_ok {A B} (m : M G A) (k : A -> M G B) w b :
  outcome (bind m k w) = Ok b ->
  ∃ a, outcome (m w) = Ok a ∧ outcome (k a (final (m w))) = Ok b.
Proof.
  rewrite bind_run. destruct (outcome (m w)) as [a|e|]; simpl; try done.
  intros H. by exists a.
Qed.

Lemma bind_ok_final {A B} (m : M G A) (k : A -> M G B) w b :
  outcome (bind m k w) = Ok b ->
  ∃ a, outcome (m w) = Ok a
       ∧ outcome (k a (final (m w))) = Ok b
       ∧ final (bind m k w) = final (k a (final (m w))).
Proof.
  rewrite bind_run. destruct (outcome (m w)) as [a|e|]; simpl; try done.
  intros H. by exists a.
Qed.

Lemma try_except_ok_run {A} (m : M G A) (h : exn -> M G A) w a :
  (∀ e w', outcome (h e w') ≠ Ok a) ->
  outcome (try_except m h w) = Ok a -> try_except m h w = m w.
Proof.
  rewrite try_except_run. intros Hh.
  destruct (outcome (m w)) as [a'|e|] eqn:E; simpl; try done.
  intros H. by apply Hh in H.
Qed.

Lemma try_except_ok {A} (m : M G A) (h : exn -> M G A) w a :
  (∀ e w', outcome (h e w') ≠ Ok a) ->
  outcome (try_except m h w) = Ok a -> outcome (m w) = Ok a.
Proof.
  rewrite try_except_run. intros Hh.
  destruct (outcome (m w)) as [a'|e|] eqn:E; simpl; rewrite ?E; try done.
  intros H. by apply Hh in H.
Qed.

Lemma extern_ok {A} ev (f : OS -> OS * result A) w a :
  outcome (extern ev f w) = Ok a -> (f (os w)).2 = Success a.
Proof.
  unfold extern, bind, log, call. simpl.
  destruct (f (os w)) as [o [a'|msg]]; simpl; [by intros [= ->] | done].
Qed.

Lemma query_ok {A} (f : OS -> result A) w a :
  outcome (query f w) = Ok a -> f (os w) = Success a ∧ final (query f w) = w.
Proof.
  unfold query, call. simpl. destruct (f (os w)) as [a'|msg]; simpl; [|done].
  intros [= ->]. by destruct w.
Qed.

Section Sound.
Context (Q : event -> Prop) (R : world G -> world G -> Prop).
Context (R_refl : ∀ w, R w w) (R_trans : ∀ w1 w2 w3, R w1 w2 -> R w2 w3 -> R w1 w3).

Lemma sound_weaken {A} P P' (m : M G A) :
  (∀ e, P e -> P' e) -> sound P Q R m -> sound P' Q R m.
Proof. intros HP (H1 & H2 & H3). split_and!; [|done..]. intros w e He. eauto. Qed.

Lemma sound_ret {A} P (a : A) : sound P Q R (ret a).
Proof. split_and!; [intros w e [=] | intros w; constructor | intros w; apply R_refl]. Qed.

Lemma sound_raise {A} (P : exn -> Prop) e : P e -> sound P Q R (@raise G A e).
Proof.
  intros He. split_and!; [intros w e' [= <-]; done | intros w; constructor
                         | intros w; apply R_refl].
Qed.

Lemma sound_hang {A} P : sound P Q R (@hang G A).
Proof. split_and!; [intros w e [=] | intros w; constructor | intros w; apply R_refl]. Qed.

Lemma sound_get_globals P : sound P Q R (@get_globals G).
Proof. split_and!; [intros w e [=] | intros w; constructor | intros w; apply R_refl]. Qed.

Lemma sound_get_os P : sound P Q R (@get_os G).
Proof. split_and!; [intros w e [=] | intros w; constructor | intros w; apply R_refl]. Qed.

Lemma sound_log P ev : Q ev -> sound P Q R (@log G ev).
Proof.
  intros Hev. split_and!; [intros w e [=] | intros w; by repeat constructor
                          | intros w; apply R_refl].
Qed.

Lemma sound_put_globals P g :
  (∀ w, R w (World g (os w))) -> sound P Q R (put_globals g).
Proof. intros Hg. split_and!; [intros w e [=] | intros w; constructor | intros w; apply Hg]. Qed.

Lemma sound_sleep P others :
  Q EvSleep -> (∀ w, R w (others w)) -> sound P Q R (sleep others).
Proof.
  intros HQ Ho. split_and!; [intros w e [=] | intros w; by repeat constructor
                            | intros w; apply Ho].
Qed.

Lemma sound_bind {A B} P (m : M G A) (k : A -> M G B) :
  sound P Q R m -> (∀ a, sound P Q R (k a)) -> sound P Q R (bind m k).
Proof.
  intros (Hm1 & Hm2 & Hm3) Hk. split_and!.
  - intros w e. rewrite bind_run. specialize (Hm1 w).
    destruct (outcome (m w)) as [a|e'|]; simpl; [|intros [= <-]; eauto|done].
    apply (Hk a).
  - intros w. rewrite bind_run. specialize (Hm2 w).
    destruct (outcome (m w)) as [a|e'|]; simpl; [|done..].
    apply Forall_app; split; [done|]. apply (Hk a).
  - intros w. rewrite bind_run. specialize (Hm3 w).
    destruct (outcome (m w)) as [a|e'|]; simpl; [|done..].
    eapply R_trans; [done|]. apply (Hk a).
Qed.

Lemma sound_try_except {A} P' P (m : M G A) (h : exn -> M G A) :
  sound P' Q R m -> (∀ e, P' e -> sound P Q R (h e)) -> sound P Q R (try_except m h).
Proof.
  intros (Hm1 & Hm2 & Hm3) Hh. split_and!.
  - intros w e. rewrite try_except_run. specialize (Hm1 w).
    destruct (outcome (m w)) as [a|e'|] eqn:E; simpl; rewrite ?E; try done.
    apply (Hh e'); eauto.
  - intros w. rewrite try_except_run. specialize (Hm2 w). specialize (Hm1 w).
    destruct (outcome (m w)) as [a|e'|] eqn:E; simpl; [done| |done].
    apply Forall_app; split; [done|]. apply (Hh e'); eauto.
  - intros w. rewrite try_except_run. specialize (Hm3 w). specialize (Hm1 w).
    destruct (outcome (m w)) as [a|e'|] eqn:E; simpl; [done| |done].
    eapply R_trans; [done|]. apply (Hh e'); eauto.
Qed.

Lemma sound_try_finally {A} P (m : M G A) (fin : M G unit) :
  sound P Q R m -> sound P Q R fin -> sound P Q R (try_finally m fin).
Proof.
  intros (Hm1 & Hm2 & Hm3) (Hf1 & Hf2 & Hf3). split_and!.
  - intros w e. rewrite try_finally_run.
    specialize (Hm1 w). specialize (Hf1 (final (m w))).
    destruct (outcome (m w)) as [a|e'|] eqn:E; simpl; rewrite ?E; try done;
      destruct (outcome (fin (final (m w)))) as [[]|e''|]; try done;
      intros [= <-]; eauto.
  - intros w. rewrite try_finally_run.
    specialize (Hm2 w). specialize (Hf2 (final (m w))).
    destruct (outcome (m w)) as [a|e'|]; simpl; try done;
      apply Forall_app; by split.
  - intros w. rewrite try_finally_run.
    specialize (Hm3 w). specialize (Hf3 (final (m w))).
    destruct (outcome (m w)) as [a|e'|]; simpl; try done;
      eapply R_trans; eauto.
Qed.

Context (R_os : ∀ w o, R w (World (globals w) o)).

Lemma sound_call {A} (P : exn -> Prop) (f : OS -> OS * result A) :
  (∀ msg, P (Exception msg)) -> sound P Q R (call f).
Proof.
  intros HP. unfold call. split_and!; intros w; destruct (f (os w)) as [o [a|msg]];
    simpl; try done; try constructor; try apply R_os.
  intros e [= <-]. apply HP.
Qed.

Lemma sound_query {A} (P : exn -> Prop) (f : OS -> result A) :
  (∀ msg, P (Exception msg)) -> sound P Q R (query f).
Proof. intros HP. by apply sound_call. Qed.

Lemma sound_extern {A} (P : exn -> Prop) ev (f : OS -> OS * result A) :
  Q ev -> (∀ msg, P (Exception msg)) -> sound P Q R (extern ev f).
Proof.
  intros HQ HP. apply sound_bind; [by apply sound_log|]. intros _. by apply sound_call.
Qed.

Lemma sound_for_each {A} P (xs : list A) (body : A -> M G unit) :
  (∀ x, sound P Q R (body x)) -> sound P Q R (for_each xs body).
Proof.
  intros Hb. induction xs as [|x xs IH]; simpl; [apply sound_ret|].
  apply sound_bind; [apply Hb | intros _; apply IH].
Qed.

End Sound.

End Facts.

Create HintDb sound discriminated.

(** Side conditions of the combinator rules. *)
Ltac sound_side :=
  try lazymatch goal with
      | |- sound _ _ _ _ => solve [eauto with sound]
      | |- _ => solve [done | eauto with sound | intros; simpl; eauto with sound
                      | simpl; set_solver]
      end.

(** One step through a handler: split the combinator at the head of the
    goal, or case on the value it branches on.  [bound] limits what the body
    of a [try] may raise. *)
Ltac sound_step_gen bound :=
  lazymatch goal with
  | |- sound _ _ _ (bind _ _) => apply sound_bind; [.. | intros ?]; sound_side
  | |- sound _ _ _ (ret _) => apply sound_ret; sound_side
  | |- sound _ _ _ (raise _) => apply sound_raise; sound_side
  | |- sound _ _ _ hang => apply sound_hang; sound_side
  | |- sound _ _ _ get_globals => apply sound_get_globals; sound_side
  | |- sound _ _ _ get_os => apply sound_get_os; sound_side
  | |- sound _ _ _ (log _) => apply sound_log; sound_side
  | |- sound _ _ _ (put_globals _) => apply sound_put_globals; sound_side
  | |- sound _ _ _ (sleep _) => apply sound_sleep; sound_side
  | |- sound _ _ _ (call _) => apply sound_call; sound_side
  | |- sound _ _ _ (query _) => apply sound_query; sound_side
  | |- sound _ _ _ (extern _ _) => apply sound_extern; sound_side
  | |- sound _ _ _ (try_finally _ _) => apply sound_try_finally; sound_side
  | |- sound _ _ _ (try_except _ _) =>
      apply sound_try_except with (P' := bound); [.. | intros ? ?]; sound_side
  | |- sound _ _ _ (for_each _ _) => apply sound_for_each; [.. | intros ?]; sound_side
  | |- sound _ _ _ (if ?b then _ else _) => destruct b
  | |- sound _ _ _ (match ?x with _ => _ end) => destruct x
  | |- sound _ _ _ (let _ := _ in _) => cbv zeta
  end.

Ltac sound_step := sound_step_gen (λ _ : exn, True).

End EffFacts.

(* ===================================================================== *)
(** ** Audio conversion: ffmpeg first, librosa as fallback               *)
(* ===================================================================== *)

Module ConvertFacts.
Import Py FileSystem Eff Props STT.

(** C4. [convert_audio_format] starts with the ffmpeg transcode; the
    librosa fallback is attempted exactly when ffmpeg raised; the call
    returns [True] when ffmpeg or the fallback succeeded and [False] when
    both failed, so it always returns and never raises. *)
Theorem convert_audio_format_fallback (env : Env) (i o : pystr) (sr : Z)
    (w : world Globals) :
  let r := convert_audio_format env i o sr w in
  (∃ t, trace r = EvFfmpeg i o :: t)
  ∧ (EvLibrosaLoad i ∈ trace r ↔ ffmpeg_ok env i o sr w = false)
  ∧ (ffmpeg_ok env i o sr w = true -> trace r = [EvFfmpeg i o])
  ∧ outcome r = Ok (ffmpeg_ok env i o sr w || librosa_ok env i o sr w).
Proof.
  unfold convert_audio_format, ffmpeg_ok, librosa_ok, try_except, extern, bind,
    call, log, ret; simpl.
  destruct (ffmpeg_run env i o sr (os w)) as [o1 [[]|msg]] eqn:Hff; simpl.
  - split_and!; eauto.
    split; [|done]. intros Hin. apply list_elem_of_singleton in Hin. discriminate.
  - destruct (librosa_load env i sr o1) as [o2 [audio|msg2]] eqn:Hlib; simpl.
    + destruct (sf_write env o audio sr o2) as [o3 [[]|msg3]] eqn:Hsf; simpl;
        (split_and!; [eauto | split; [done | intros _; set_solver] | done | done]).
    + split_and!; [eauto | split; [done | intros _; set_solver] | done | done].
Qed.

End ConvertFacts.

(* ===================================================================== *)
(** ** The STT handler: what it raises, emits and leaves untouched       *)
(* ===================================================================== *)

Module STTFacts.
Import Py FileSystem Eff Props Samples EffFacts STT.

Lemma status_in_exception codes msg : status_in codes (Exception msg).
Proof. done. Qed.

Section Service.
Context (cfg : Config) (env : Env).

Section Sound.
(** A relation between worlds that holds across everything a request
    does apart from its own updates of the counter. *)
Context (R : world Globals -> world Globals -> Prop).
Context (R_refl : ∀ w, R w w).
Context (R_trans : ∀ w1 w2 w3, R w1 w2 -> R w2 w3 -> R w1 w3).
Context (R_step : ∀ w m l o,
            R w (World (MkGlobals m l (current_requests (globals w))) o)).
Context (R_others : ∀ w, R w (others env w)).

Lemma R_os w o : R w (World (globals w) o).
Proof. destruct w as [[m l c] o']. apply (R_step (World (MkGlobals m l c) o')). Qed.

Hint Resolve R_os status_in_exception : sound.

Lemma sound_set_model_loading P b : sound P not_counter R (set_model_loading b).
Proof.
  split_and!; [intros w e [=] | intros w; constructor | intros w; apply R_step].
Qed.

Lemma sound_set_whisper_model P m : sound P not_counter R (set_whisper_model m).
Proof.
  split_and!; [intros w e [=] | intros w; constructor | intros w; apply R_step].
Qed.

Lemma sound_now P : sound P not_counter R now.
Proof. unfold now. repeat sound_step. Qed.

Lemma sound_spin_wait P n : sound P not_counter R (spin_wait env n).
Proof. induction n as [|n IH]; simpl; repeat sound_step. Qed.

Hint Resolve sound_set_model_loading sound_set_whisper_model sound_now
  sound_spin_wait : sound.

Lemma sound_load_whisper_model codes :
  sound (status_in codes) not_counter R (load_whisper_model cfg env).
Proof.
  unfold load_whisper_model. repeat sound_step_gen (status_in codes).
Qed.

Lemma sound_convert_audio_format P i o sr :
  sound P not_counter R (convert_audio_format env i o sr).
Proof. unfold convert_audio_format. repeat sound_step. Qed.

Hint Resolve sound_load_whisper_model sound_convert_audio_format : sound.

Lemma sound_transcribe_try codes audio start :
  (oversized cfg audio = true -> 413 ∈ codes) -> 503 ∈ codes ->
  sound (status_in codes) not_counter R (transcribe_try cfg env audio start).
Proof.
  intros H413 H503.
  unfold transcribe_try, getitem, strip_method, TranscriptionResponse_init.
  fold (oversized cfg audio).
  destruct (oversized cfg audio); repeat sound_step.
Qed.

Lemma sound_transcribe_except codes e :
  status_in codes e ->
  sound (http_in (500 :: codes)) not_counter R (transcribe_except e).
Proof.
  intros He. destruct e as [c d|m]; simpl; apply sound_raise; sound_side.
Qed.

(** The [try] / [except] of [transcribe_audio], without the counter. *)
Lemma sound_transcribe_guarded codes audio start :
  (oversized cfg audio = true -> 413 ∈ codes) -> 503 ∈ codes ->
  sound (http_in (500 :: codes)) not_counter R
    (try_except (transcribe_try cfg env audio start) transcribe_except).
Proof.
  intros H413 H503. apply sound_try_except with (P' := status_in codes); [done| |].
  - by apply sound_transcribe_try.
  - intros e He. by apply sound_transcribe_except.
Qed.

End Sound.

(** The handler with its counter updates peeled off. *)
Lemma transcribe_audio_run audio w :
  transcribe_audio cfg env audio w =
    if MAX_CONCURRENT_REQUESTS cfg <=? current_requests (globals w) then
      Run w [] (Raise (HTTPException 429 (lit "Too many concurrent requests")))
    else
      let rb := try_except (transcribe_try cfg env audio (clock (os w)))
                  transcribe_except (bump 1 w) in
      match outcome rb with
      | Hang => Run (final rb) (EvCounter 1 :: trace rb) Hang
      | o => Run (bump (-1) (final rb)) (EvCounter 1 :: trace rb ++ [EvCounter (-1)]) o
      end.
Proof.
  unfold transcribe_audio, bind at 1. simpl.
  destruct (MAX_CONCURRENT_REQUESTS cfg <=? current_requests (globals w)); [done|].
  rewrite bind_run. simpl. rewrite bind_run. simpl.
  rewrite try_finally_run. unfold bump. simpl.
  destruct (outcome _) as [a|e|] eqn:E; simpl; rewrite ?app_nil_r, ?E; done.
Qed.

Lemma oversized_spec audio :
  oversized cfg audio = true ↔ reported_oversize cfg audio.
Proof.
  unfold oversized, reported_oversize, truthy_int.
  destruct (size audio) as [n|]; simpl.
  - rewrite andb_true_iff, negb_true_iff, Z.eqb_neq, Z.ltb_lt.
    split; [intros [? ?]; by exists n | intros (? & [= <-] & ? & ?); done].
  - split; [done | intros (? & [=] & _)].
Qed.

(** The guarded body of an oversized upload stops at the size test. *)
Lemma transcribe_guarded_oversized audio start w :
  oversized cfg audio = true ->
  try_except (transcribe_try cfg env audio start) transcribe_except w
  = Run w [] (Raise (HTTPException 413 (lit "Audio file too medium"))).
Proof.
  intros Hbig. unfold try_except, transcribe_try, bind.
  fold (oversized cfg audio). by rewrite Hbig.
Qed.

(** What the guarded body can raise: 500, 503, and 413 only when the
    reported size is over the limit. *)
Lemma transcribe_guarded_raises audio start w e :
  outcome (try_except (transcribe_try cfg env audio start) transcribe_except w)
    = Raise e ->
  http_in [500; 503] e ∨ (oversized cfg audio = true ∧ http_in [413] e).
Proof.
  intros He. destruct (oversized cfg audio) eqn:Hbig.
  - rewrite transcribe_guarded_oversized in He by done.
    injection He as <-. right. split; [done|]. simpl. set_solver.
  - left.
    assert (sound (http_in [500; 503]) not_counter (λ _ _, True)
              (try_except (transcribe_try cfg env audio start) transcribe_except))
      as (Hr & _ & _).
    { apply sound_transcribe_guarded; try done; [congruence | constructor]. }
    by apply (Hr w e).
Qed.

End Service.

Lemma counter_after_app c t1 t2 :
  counter_after c (t1 ++ t2) = counter_after (counter_after c t1) t2.
Proof. revert c. induction t1 as [|[] t1 IH]; intros c; simpl; auto. Qed.

Lemma counter_values_app c t1 t2 :
  counter_values c (t1 ++ t2)
  = counter_values c t1 ++ counter_values (counter_after c t1) t2.
Proof. revert c. induction t1 as [|[] t1 IH]; intros c; simpl; auto. by rewrite IH. Qed.

Lemma counter_after_quiet c t : Forall not_counter t -> counter_after c t = c.
Proof. induction 1 as [|[] t H Ht IH]; simpl in *; auto; done. Qed.

Lemma counter_values_quiet c t : Forall not_counter t -> counter_values c t = [].
Proof. induction 1 as [|[] t H Ht IH]; simpl in *; auto; done. Qed.

Section Counter.
Context (cfg : Config) (env : Env).

(** One call: entry, body, exit. *)
Lemma transcribe_audio_trace audio w :
  let r := transcribe_audio cfg env audio w in
  if MAX_CONCURRENT_REQUESTS cfg <=? current_requests (globals w)
  then r = Run w [] (outcome r)
  else ∃ t, Forall not_counter t
       ∧ trace r = EvCounter 1 :: t
                     ++ match outcome r with Hang => [] | _ => [EvCounter (-1)] end.
Proof.
  intros r. subst r. rewrite transcribe_audio_run.
  destruct (_ <=? _); [done|]. cbv zeta.
  assert (sound (http_in [500; 413; 503]) not_counter (λ _ _, True)
            (try_except (transcribe_try cfg env audio (clock (os w))) transcribe_except))
    as (_ & He & _).
  { apply sound_transcribe_guarded; try done; intros; repeat constructor. }
  specialize (He (bump 1 w)).
  exists (trace (try_except (transcribe_try cfg env audio (clock (os w)))
                   transcribe_except (bump 1 w))).
  destruct (outcome _) as [a|e|]; simpl; rewrite ?app_nil_r; done.
Qed.

(** Whatever the event loop runs while a request sleeps leaves the
    counter as it found it (in particular: nothing else runs). *)
Hypothesis others_same_counter : ∀ w, same_counter w (others env w).

Lemma guarded_keeps_counter audio start w :
  current_requests
    (globals (final (try_except (transcribe_try cfg env audio start)
                       transcribe_except w)))
  = current_requests (globals w).
Proof.
  assert (sound (http_in [500; 413; 503]) not_counter same_counter
            (try_except (transcribe_try cfg env audio start) transcribe_except))
    as (_ & _ & Hp).
  { apply sound_transcribe_guarded; try done.
    - unfold same_counter. congruence.
    - intros _. repeat constructor.
    - repeat constructor. }
  apply Hp.
Qed.

Lemma transcribe_audio_final_counter audio w :
  let r := transcribe_audio cfg env audio w in
  let c := current_requests (globals w) in
  current_requests (globals (final r))
  = if MAX_CONCURRENT_REQUESTS cfg <=? c then c
    else match outcome r with Hang => c + 1 | _ => c end.
Proof.
  intros r c. subst r c. rewrite transcribe_audio_run.
  destruct (_ <=? _); [done|]. cbv zeta.
  pose proof (guarded_keeps_counter audio (clock (os w)) (bump 1 w)) as Hc.
  simpl in Hc.
  destruct (outcome _) as [a|e|]; simpl; rewrite ?Hc; lia.
Qed.

(** The counter in the world is the one the trace accounts for, and it
    stays within the threshold if it started there. *)
Lemma transcribe_audio_counter audio w :
  let r := transcribe_audio cfg env audio w in
  let c := current_requests (globals w) in
  current_requests (globals (final r)) = counter_after c (trace r)
  ∧ (c <= MAX_CONCURRENT_REQUESTS cfg ->
     Forall (λ v, v <= MAX_CONCURRENT_REQUESTS cfg) (counter_values c (trace r))).
Proof.
  intros r c. pose proof (transcribe_audio_trace audio w) as H.
  pose proof (transcribe_audio_final_counter audio w) as Hc.
  cbv zeta in H, Hc. fold r c in H, Hc. rewrite Hc. clear Hc.
  destruct (MAX_CONCURRENT_REQUESTS cfg <=? c) eqn:Hgate.
  - rewrite H. simpl. split; [done | constructor].
  - apply Z.leb_gt in Hgate. destruct H as (t & Hq & Ht).
    rewrite Ht. simpl. rewrite counter_after_app, counter_values_app.
    rewrite (counter_after_quiet _ _ Hq), (counter_values_quiet _ _ Hq).
    destruct (outcome r); simpl; (split; [lia|]); intros Hle;
      repeat constructor; lia.
Qed.

End Counter.

(** Served one after the other, requests keep the counter within the
    threshold at every update. *)
Lemma serve_counter cfg reqs w :
  (∀ e a, (e, a) ∈ reqs -> ∀ w', same_counter w' (others e w')) ->
  current_requests (globals w) <= MAX_CONCURRENT_REQUESTS cfg ->
  Forall (λ v, v <= MAX_CONCURRENT_REQUESTS cfg)
    (counter_values (current_requests (globals w)) (serve cfg reqs w).2)
  ∧ current_requests (globals (serve cfg reqs w).1)
    = counter_after (current_requests (globals w)) (serve cfg reqs w).2
  ∧ current_requests (globals (serve cfg reqs w).1) <= MAX_CONCURRENT_REQUESTS cfg.
Proof.
  revert w. induction reqs as [|[env audio] reqs IH]; intros w Hothers Hle; simpl.
  - split_and!; [constructor | done | done].
  - assert (∀ w', same_counter w' (others env w')) as Henv.
    { apply (Hothers env audio). constructor. }
    destruct (transcribe_audio_counter cfg env Henv audio w) as [Hfin Hvals].
    pose proof (transcribe_audio_final_counter cfg env Henv audio w) as Hc.
    cbv zeta in Hc.
    assert (current_requests (globals (final (transcribe_audio cfg env audio w)))
            <= MAX_CONCURRENT_REQUESTS cfg) as Hle'.
    { rewrite Hc. destruct (_ <=? _) eqn:Hg; [done|]. apply Z.leb_gt in Hg.
      destruct (outcome _); lia. }
    set (r := transcribe_audio cfg env audio w) in *.
    assert (let '(w', t) := serve cfg reqs (final r) in
            Forall (λ v, v <= MAX_CONCURRENT_REQUESTS cfg)
              (counter_values (current_requests (globals w)) (trace r ++ t))
            ∧ current_requests (globals w')
              = counter_after (current_requests (globals w)) (trace r ++ t)
            ∧ current_requests (globals w') <= MAX_CONCURRENT_REQUESTS cfg) as Hrest.
    { destruct (IH (final r)) as (IH1 & IH2 & IH3); [|done|].
      { intros e a Hin. apply (Hothers e a). by constructor. }
      destruct (serve cfg reqs (final r)) as [w' t]. simpl in *.
      rewrite counter_values_app, counter_after_app, <- Hfin.
      split_and!; [apply Forall_app; split; auto | done | done]. }
    destruct (outcome r); [ | | by split_and!; auto];
      by destruct (serve cfg reqs (final r)) as [w' t].
Qed.

(** C1, as amended.  The admission gate of [transcribe_audio] turns a
    request away with HTTP 429 exactly when [current_requests] is at or
    above [MAX_CONCURRENT_REQUESTS]; the rejected call leaves the world
    (counter included) as it was and emits nothing.  Below the threshold
    the request is admitted: it counts itself in and never ends in 429. *)
Theorem admission_gate (cfg : Config) (env : Env) (audio : UploadFile)
    (w : world Globals) :
  let r := transcribe_audio cfg env audio w in
  let c := current_requests (globals w) in
  (MAX_CONCURRENT_REQUESTS cfg <= c -> rejected w r)
  ∧ (c < MAX_CONCURRENT_REQUESTS cfg -> admitted r ∧ ¬ raised_http 429 r).
Proof.
  intros r c. subst r c. rewrite transcribe_audio_run. split.
  - intros Hge. apply Z.leb_le in Hge. by rewrite Hge.
  - intros Hlt. apply Z.leb_gt in Hlt. rewrite Hlt. cbv zeta.
    pose proof (transcribe_guarded_raises cfg env audio (clock (os w)) (bump 1 w)) as Hr.
    destruct (outcome _) as [a|e|]; simpl; (split; [by eexists|]);
      intros [d Hd]; simpl in Hd; try done.
    injection Hd as ->.
    destruct (Hr _ eq_refl) as [H|[_ H]]; simpl in H;
      rewrite !elem_of_cons, elem_of_nil in H; lia.
Qed.

(** The gate at work on the default configuration: five requests in
    flight are turned away, four are not. *)
Lemma admission_gate_witness :
  rejected (stt_world 5) (transcribe_audio default_config stt_env upload (stt_world 5))
  ∧ admitted (transcribe_audio default_config stt_env upload (stt_world 4)).
Proof.
  split.
  - apply (admission_gate default_config stt_env upload (stt_world 5)). simpl. lia.
  - apply (admission_gate default_config stt_env upload (stt_world 4)). simpl. lia.
Defined.

(** C1, as worded, fails on the threshold itself: with the counter equal
    to [MAX_CONCURRENT_REQUESTS] (5, not above 5) the request is rejected,
    not admitted. *)
Lemma gate_rejects_at_threshold :
  ¬ gate_rejects_above default_config stt_env upload (stt_world 5).
Proof.
  intros [_ Hadm]. destruct Hadm as [t Ht]; [simpl; lia|].
  vm_compute in Ht. discriminate Ht.
Qed.




(** C9, as amended.  The upload size limit looks at the size the client
    reported and at nothing else, and it is the second test: a request
    turned away by the admission gate never ends in 413, whatever its size.
    For a request that passed the gate the handler ends in HTTP 413 exactly
    when [audio.size] is present, nonzero and greater than [MAX_AUDIO_SIZE];
    with a missing or zero size it never ends in 413, whatever the uploaded
    bytes; and a 413 leaves the OS (files and clock) untouched, with no
    event besides the two counter updates. *)
Theorem upload_size_check (cfg : Config) (env : Env) (audio : UploadFile)
    (w : world Globals) :
  let r := transcribe_audio cfg env audio w in
  (current_requests (globals w) < MAX_CONCURRENT_REQUESTS cfg ->
   (raised_http 413 r ↔ reported_oversize cfg audio))
  ∧ (MAX_CONCURRENT_REQUESTS cfg <= current_requests (globals w) ->
     ¬ raised_http 413 r)
  ∧ (size audio = None ∨ size audio = Some 0 -> ¬ raised_http 413 r)
  ∧ (raised_http 413 r ->
     os (final r) = os w ∧ trace r = [EvCounter 1; EvCounter (-1)]).
Proof.
  intros r.
  assert (raised_http 413 r ->
          reported_oversize cfg audio
          ∧ os (final r) = os w ∧ trace r = [EvCounter 1; EvCounter (-1)]) as Honly.
  { subst r. rewrite transcribe_audio_run. intros [d Hd].
    destruct (_ <=? _); [discriminate Hd|]. cbv zeta in *.
    pose proof (transcribe_guarded_raises cfg env audio (clock (os w)) (bump 1 w)) as Hr.
    destruct (oversized cfg audio) eqn:Hbig.
    - rewrite transcribe_guarded_oversized by done. simpl.
      split; [by apply oversized_spec | done].
    - revert Hd.
      destruct (outcome (try_except _ _ _)) as [a|e|] eqn:E; simpl; try done.
      intros [= ->]. destruct (Hr _ eq_refl) as [H|[H _]]; [|done].
      simpl in H. rewrite !elem_of_cons, elem_of_nil in H. lia. }
  split_and!.
  - intros Hlt. split; [by intros H; apply Honly|].
    intros Hbig%oversized_spec. subst r. rewrite transcribe_audio_run.
    apply Z.leb_gt in Hlt. rewrite Hlt. cbv zeta.
    rewrite transcribe_guarded_oversized by done. simpl. by eexists.
  - intros Hge [d Hd]. revert Hd. subst r. rewrite transcribe_audio_run.
    apply Z.leb_le in Hge. by rewrite Hge.
  - intros Hsize H413. destruct (Honly H413) as [(n & Hn & Hnz & _) _].
    destruct Hsize as [Hs|Hs]; rewrite Hs in Hn; [done|]. by injection Hn as <-.
  - intros H413. by destruct (Honly H413) as (_ & ? & ?).
Qed.

(** The default limit at work: a reported 60 MB is refused with a 413
    before anything is written. *)
Lemma upload_size_check_witness :
  raised_http 413 (transcribe_audio default_config stt_env big_upload (stt_world 0))
  ∧ os (final (transcribe_audio default_config stt_env big_upload (stt_world 0)))
    = os (stt_world 0).
Proof.
  pose proof (upload_size_check default_config stt_env big_upload (stt_world 0))
    as (Hiff & _ & _ & Hos).
  assert (raised_http 413
            (transcribe_audio default_config stt_env big_upload (stt_world 0))) as H.
  { apply Hiff; [simpl; lia|]. exists 60000000. simpl. split_and!; [reflexivity|lia|lia]. }
  split; [exact H | apply (Hos H)].
Defined.

(** C9, as worded, fails at a closed gate: with five requests in flight
    an upload that reports 60 MB is answered 429, not 413. *)
Lemma oversize_at_closed_gate :
  ¬ size_decides_413 default_config stt_env big_upload (stt_world 5).
Proof.
  intros [_ H]. destruct H as [d Hd].
  - exists 60000000. simpl. split_and!; [reflexivity | lia | lia].
  - vm_compute in Hd. discriminate Hd.
Qed.

End STTFacts.

(* ===================================================================== *)
(** ** Model loading                                                     *)
(* ===================================================================== *)

Module LoadFacts.
Import Py FileSystem Eff Props Samples EffFacts.

Section Spin.
Context (env : STT.Env).

Lemma spin_wait_quiet n w :
  Forall (λ ev, ev = EvSleep) (trace (STT.spin_wait env n w))
  ∧ (∀ e, outcome (STT.spin_wait env n w) ≠ Raise e)
  ∧ (outcome (STT.spin_wait env n w) ≠ Hang ->
     STT.model_loading (globals (final (STT.spin_wait env n w))) = false).
Proof.
  revert w. induction n as [|n IH]; intros w; simpl; unfold bind; simpl.
  - destruct (STT.model_loading (globals w)) eqn:Hl; simpl; split_and!; try done.
  - destruct (STT.model_loading (globals w)) eqn:Hl; simpl; [|split_and!; done].
    destruct (IH (STT.others env w)) as (Ht & He & Hw).
    destruct (STT.spin_wait env n (STT.others env w)) as [w' t [[]|e|]]; simpl in *;
      split_and!; try done; try by constructor.
Qed.

Lemma spin_wait_returns n k w :
  (k <= n)%nat -> load_finishes_at env k w ->
  STT.spin_wait env n w = Run (after_sleeps env k w) (replicate k EvSleep) (Ok tt).
Proof.
  revert n w. induction k as [|k IH]; intros n w Hk [Hbefore Hat].
  - simpl in Hat. destruct n; simpl; unfold bind; simpl; by rewrite Hat.
  - destruct n as [|n]; [lia|]. simpl. unfold bind at 1. simpl.
    pose proof (Hbefore 0%nat ltac:(lia)) as H0. simpl in H0. rewrite H0.
    unfold bind. simpl.
    rewrite (IH n (STT.others env w)); [done | lia |].
    split; [|done]. intros j Hj. apply (Hbefore (S j)). lia.
Qed.

Lemma spin_wait_hangs n w :
  (∀ j, (j <= n)%nat -> STT.model_loading (globals (after_sleeps env j w)) = true) ->
  outcome (STT.spin_wait env n w) = Hang.
Proof.
  revert w. induction n as [|n IH]; intros w Hall; simpl; unfold bind at 1; simpl.
  - pose proof (Hall 0%nat ltac:(lia)) as H0. simpl in H0. by rewrite H0.
  - pose proof (Hall 0%nat ltac:(lia)) as H0. simpl in H0. rewrite H0.
    unfold bind. simpl.
    specialize (IH (STT.others env w)).
    destruct (STT.spin_wait env n (STT.others env w)) as [w' t [[]|e|]]; simpl in *;
      try done; discriminate IH; intros j Hj; apply (Hall (S j)); lia.
Qed.

End Spin.

(** The first call of [load_whisper_model] does load: the loader is
    invoked once, its model is cached and returned, and the flag is
    cleared again whether or not the loader raised. *)
Lemma load_whisper_model_first cfg env w :
  STT.whisper_model (globals w) = None ->
  STT.model_loading (globals w) = false ->
  let r := STT.load_whisper_model cfg env w in
  trace r = [EvLoadModel (lit "medium") (STT.get_device cfg env)]
  ∧ STT.model_loading (globals (final r)) = false
  ∧ match (STT.whisper_load_model env (lit "medium") (STT.get_device cfg env) (os w)).2 with
    | Success m => outcome r = Ok (Some m) ∧ STT.whisper_model (globals (final r)) = Some m
    | Failure msg =>
        outcome r = Raise (Exception msg) ∧ STT.whisper_model (globals (final r)) = None
    end.
Proof.
  intros Hnone Hidle.
  unfold STT.load_whisper_model, try_finally, try_except, extern, call, log.
  unfold bind. simpl. rewrite Hnone, Hidle. simpl.
  destruct (STT.whisper_load_model env _ _ (os w)) as [o [m|msg]]; simpl; done.
Qed.

(** A call that finds a load in progress is the spin-wait followed by a
    read of [whisper_model]. *)
Lemma load_whisper_model_waiting cfg env w :
  STT.whisper_model (globals w) = None ->
  STT.model_loading (globals w) = true ->
  STT.load_whisper_model cfg env w
  = match STT.spin_wait env (STT.patience env) w with
    | Run w' t (Ok _) => Run w' t (Ok (STT.whisper_model (globals w')))
    | Run w' t (Raise e) => Run w' t (Raise e)
    | Run w' t Hang => Run w' t Hang
    end.
Proof.
  intros Hnone Hloading. unfold STT.load_whisper_model. unfold bind at 1. simpl.
  rewrite Hnone, Hloading. unfold bind at 1.
  destruct (STT.spin_wait env (STT.patience env) w) as [w' t [[]|e|]]; simpl;
    by rewrite ?app_nil_r.
Qed.

(** C5, as amended.  Once a service's model is loaded, a further call of
    its load function returns at once: no loader call, world unchanged (STT
    returns the cached model).  A call made while a load is in progress
    starts no second load.  In the STT service it polls [model_loading],
    sleeping between polls; it never raises, it returns only once the flag is
    clear, and what it returns is [whisper_model] as the finished load left
    it.  In the TTS service it does not wait: it returns at once, with the
    world unchanged. *)
Theorem model_loading_guard
    (scfg : STT.Config) (senv : STT.Env) (sw : world STT.Globals)
    (tcfg : TTS.Config) (tenv : TTS.Env) (tw : world TTS.Globals) :
  (∀ m, STT.whisper_model (globals sw) = Some m ->
        STT.load_whisper_model scfg senv sw = Run sw [] (Ok (Some m)))
  ∧ (STT.whisper_model (globals sw) = None -> STT.model_loading (globals sw) = true ->
     let r := STT.load_whisper_model scfg senv sw in
     Forall (λ ev, ev = EvSleep) (trace r)
     ∧ (∀ e, outcome r ≠ Raise e)
     ∧ (outcome r ≠ Hang ->
        STT.model_loading (globals (final r)) = false
        ∧ outcome r = Ok (STT.whisper_model (globals (final r))))
     ∧ (∀ k, (k <= STT.patience senv)%nat -> load_finishes_at senv k sw ->
        r = Run (after_sleeps senv k sw) (replicate k EvSleep)
              (Ok (STT.whisper_model (globals (after_sleeps senv k sw))))))
  ∧ (TTS.model_loaded (globals tw) = true ->
     TTS.load_tts_model tcfg tenv tw = Run tw [] (Ok tt))
  ∧ (TTS.model_loading (globals tw) = true ->
     TTS.load_tts_model tcfg tenv tw = Run tw [] (Ok tt)).
Proof.
  split_and!.
  - intros m Hm. unfold STT.load_whisper_model, bind. simpl. by rewrite Hm.
  - intros Hnone Hloading. cbv zeta.
    rewrite (load_whisper_model_waiting scfg senv sw Hnone Hloading).
    destruct (spin_wait_quiet senv (STT.patience senv) sw) as (Ht & He & Hw).
    pose proof (spin_wait_returns senv (STT.patience senv)) as Hret.
    destruct (STT.spin_wait senv (STT.patience senv) sw) as [w' t [[]|e|]] eqn:Hspin;
      simpl in *.
    + split_and!; try done.
      * intros _. split; [by apply Hw | done].
      * intros k Hk Hfin. rewrite (Hret k sw Hk Hfin) in Hspin.
        by injection Hspin as <- <-.
    + by destruct (He e).
    + split_and!; try done. intros k Hk Hfin. by rewrite (Hret k sw Hk Hfin) in Hspin.
  - intros Hloaded. unfold TTS.load_tts_model, bind. simpl. by rewrite Hloaded.
  - intros Hloading. unfold TTS.load_tts_model, bind. simpl. rewrite Hloading.
    by rewrite orb_true_r.
Qed.

(** A request that arrives while the first load is running sleeps twice,
    then returns the model that load cached; with the model cached the
    call returns at once. *)
Lemma model_loading_guard_witness :
  STT.load_whisper_model STT.default_config waiting_env stt_loading
  = Run (after_sleeps waiting_env 2 stt_loading) [EvSleep; EvSleep] (Ok (Some whisper))
  ∧ STT.load_whisper_model STT.default_config waiting_env stt_loaded
    = Run stt_loaded [] (Ok (Some whisper))
  ∧ TTS.load_tts_model TTS.default_config tts_env tts_loaded = Run tts_loaded [] (Ok tt).
Proof.
  destruct (model_loading_guard STT.default_config waiting_env stt_loading
              TTS.default_config tts_env tts_loaded) as (_ & Hwait & Htts & _).
  destruct (model_loading_guard STT.default_config waiting_env stt_loaded
              TTS.default_config tts_env tts_loaded) as (Hcached & _ & _ & _).
  split_and!.
  - destruct (Hwait eq_refl eq_refl) as (_ & _ & _ & Hk).
    apply (Hk 2%nat); [simpl; lia|].
    split; [|reflexivity].
    intros [|[|j]] Hj; [reflexivity | reflexivity | lia].
  - apply Hcached. reflexivity.
  - apply Htts. reflexivity.
Defined.

(** C5, as worded, fails for the TTS service: called while a load is in
    progress, [load_tts_model] returns at once, with the load still in
    progress. *)
Lemma tts_load_does_not_wait :
  ¬ tts_waits_for_load TTS.default_config tts_env tts_loading.
Proof.
  intros Hwaits. specialize (Hwaits eq_refl). cbv zeta in Hwaits.
  assert (TTS.load_tts_model TTS.default_config tts_env tts_loading
          = Run tts_loading [] (Ok tt)) as Hrun by reflexivity.
  rewrite Hrun in Hwaits. simpl in Hwaits. by specialize (Hwaits ltac:(done)).
Qed.

End LoadFacts.

(* ===================================================================== *)
(** ** The TTS handler                                                   *)
(* ===================================================================== *)

Module TTSFacts.
Import Py FileSystem Eff Props Samples EffFacts TTS.

(** The handler with its two precondition tests peeled off. *)
Lemma generate_speech_run cfg env request w :
  generate_speech cfg env request w =
    if negb (model_loaded (globals w)) || bool_decide (tts_model (globals w) = None)
    then Run w [] (Raise (HTTPException 503 (lit "TTS model not loaded")))
    else if negb (truthy_str (Some (strip (text request))))
    then Run w [] (Raise (HTTPException 400 (lit "Text cannot be empty")))
    else try_except (generate_try cfg env request)
           (λ e, raise (HTTPException 500
                          (lit "Failed to generate speech: " ++ str_exn e))) w.
Proof.
  unfold generate_speech. rewrite bind_run.
  change (outcome (get_globals w)) with (Ok (globals w)).
  change (final (get_globals w)) with w.
  change (trace (get_globals w)) with (@nil event).
  cbv beta iota.
  destruct (negb (model_loaded (globals w)) || _); [done|].
  destruct (negb (truthy_str (Some (strip (text request))))); [done|].
  rewrite app_nil_l. apply run_eta.
Qed.

(** C10.  [generate_speech] tests its preconditions before anything
    else: with the model not loaded ([model_loaded] false or [tts_model]
    [None]) it raises HTTP 503, and with the model loaded and a text that
    strips to the empty string it raises HTTP 400; either way the run is
    the bare exception: no file is created, no global is changed, no
    collaborator is called. *)
Theorem speech_preconditions (cfg : Config) (env : Env) (request : TTSRequest)
    (w : world Globals) :
  let r := generate_speech cfg env request w in
  (model_loaded (globals w) = false ∨ tts_model (globals w) = None ->
   r = Run w [] (Raise (HTTPException 503 (lit "TTS model not loaded"))))
  ∧ (model_loaded (globals w) = true -> tts_model (globals w) ≠ None ->
     strip (text request) = [] ->
     r = Run w [] (Raise (HTTPException 400 (lit "Text cannot be empty")))).
Proof.
  cbv zeta. rewrite generate_speech_run. split.
  - intros [Hl|Hm].
    + by rewrite Hl.
    + rewrite Hm. by rewrite orb_true_r.
  - intros Hl Hm Hempty. rewrite Hl, Hempty. simpl.
    by destruct (tts_model (globals w)).
Qed.

(** Both rejections on the default configuration. *)
Lemma speech_preconditions_witness :
  generate_speech default_config tts_env (plain_request privet_world) tts_loading
  = Run tts_loading [] (Raise (HTTPException 503 (lit "TTS model not loaded")))
  ∧ generate_speech default_config tts_env (plain_request (lit "  ")) tts_loaded
    = Run tts_loaded [] (Raise (HTTPException 400 (lit "Text cannot be empty"))).
Proof.
  split.
  - apply (speech_preconditions default_config tts_env (plain_request privet_world)
             tts_loading). left. reflexivity.
  - apply (speech_preconditions default_config tts_env (plain_request (lit "  "))
             tts_loaded); [reflexivity | discriminate | reflexivity].
Defined.

(** C7.  A successful [/generate-speech] response has [status]
    ['success']; its [audio_url] is ['/audio/'] followed by the generated
    file name [tts_<uuid>.<audio_format>], so the extension in the URL is
    the requested format; and its [file_size] is the size of that file on
    disk when the handler returns. *)
Theorem speech_response (cfg : Config) (env : Env) (request : TTSRequest)
    (w : world Globals) (resp : TTSResponse) :
  let r := generate_speech cfg env request w in
  let filename := lit "tts_" ++ uuid4 env ++ lit "." ++ format_opt (audio_format request) in
  outcome r = Ok resp ->
  status resp = lit "success"
  ∧ audio_url resp = lit "/audio/" ++ filename
  ∧ (∀ fmt, audio_format request = Some fmt ->
            audio_url resp = lit "/audio/" ++ lit "tts_" ++ uuid4 env ++ lit "." ++ fmt)
  ∧ getsize (path_join (AUDIO_OUTPUT_DIR cfg) filename) (os (final r))
    = Success (file_size resp).
Proof.
  cbv zeta. rewrite generate_speech_run.
  destruct (negb (model_loaded (globals w)) || _); [done|].
  destruct (negb (truthy_str (Some (strip (text request))))); [done|].
  intros Hok.
  match type of Hok with
  | outcome (try_except ?m ?h ?w) = _ =>
      assert (∀ e w', outcome (h e w') ≠ Ok resp) as Hraise
        by (intros e w'; simpl; discriminate);
      rewrite (try_except_ok_run m h w resp Hraise Hok);
      apply (try_except_ok m h w resp Hraise) in Hok
  end.
  unfold generate_try in *. cbv zeta in *.
  apply bind_ok_final in Hok as (g' & _ & Hok & ->).
  apply bind_ok_final in Hok as ([] & _ & Hok & ->).
  apply bind_ok_final in Hok as (size & [Hsize ->]%query_ok & Hok & ->).
  apply bind_ok_final in Hok as ([] & _ & Hok & ->).
  injection Hok as <-. split_and!; [done | done | | exact Hsize].
  intros fmt Hfmt. simpl. by rewrite Hfmt.
Qed.

(** The sample request: a four-byte [wav] file, reported as such. *)
Lemma speech_response_witness :
  ∃ resp,
    outcome (generate_speech default_config tts_env (plain_request privet_world)
               tts_loaded) = Ok resp
    ∧ audio_url resp = lit "/audio/tts_6fa459ea.wav"
    ∧ file_size resp = 4.
Proof.
  eexists. split; [vm_compute; reflexivity|].
  destruct (speech_response default_config tts_env (plain_request privet_world)
              tts_loaded _ ltac:(vm_compute; reflexivity)) as (_ & Hurl & _ & Hsize).
  split; [exact Hurl|]. vm_compute. reflexivity.
Defined.

(** *** The character sets of the language heuristic *)

Lemma russian_chars_spec c : c ∈ russian_chars ↔ is_cyrillic_lower c = true.
Proof.
  destruct (N.ltb_spec c 1106) as [Hlt|Hge].
  - assert (forallb (λ n, bool_decide (bool_decide (N.of_nat n ∈ russian_chars)
                                      = is_cyrillic_lower (N.of_nat n)))
              (seq 0 1106) = true) as Hall by (vm_compute; reflexivity).
    rewrite forallb_forall in Hall.
    specialize (Hall (N.to_nat c) ltac:(apply in_seq; lia)).
    rewrite N2Nat.id in Hall. apply bool_decide_eq_true in Hall.
    rewrite <- Hall. by rewrite bool_decide_eq_true.
  - split.
    + intros Hin. assert (Forall (λ x, (x < 1106)%N) russian_chars) as Hsmall.
      { unfold russian_chars. repeat constructor. }
      rewrite Forall_forall in Hsmall. specialize (Hsmall c Hin). simpl in Hsmall.
      clear Hin. exfalso. lia.
    + unfold is_cyrillic_lower. intros H.
      exfalso. apply orb_true_iff in H as [[_ H%N.leb_le]%andb_true_iff|H%N.eqb_eq]; lia.
Qed.

Lemma english_chars_spec c : c ∈ english_chars ↔ is_latin_lower c = true.
Proof.
  destruct (N.ltb_spec c 123) as [Hlt|Hge].
  - assert (forallb (λ n, bool_decide (bool_decide (N.of_nat n ∈ english_chars)
                                      = is_latin_lower (N.of_nat n)))
              (seq 0 123) = true) as Hall by (vm_compute; reflexivity).
    rewrite forallb_forall in Hall.
    specialize (Hall (N.to_nat c) ltac:(apply in_seq; lia)).
    rewrite N2Nat.id in Hall. apply bool_decide_eq_true in Hall.
    rewrite <- Hall. by rewrite bool_decide_eq_true.
  - split.
    + intros Hin. assert (Forall (λ x, (x < 123)%N) english_chars) as Hsmall.
      { vm_compute. repeat constructor. }
      rewrite Forall_forall in Hsmall. specialize (Hsmall c Hin). simpl in Hsmall.
      clear Hin. exfalso. lia.
    + unfold is_latin_lower. intros [_ H%N.leb_le]%andb_true_iff. exfalso. lia.
Qed.

(** Counting membership in a literal set is counting by the predicate the
    set spells out. *)
Lemma count_in_spec chars p s :
  (∀ c, c ∈ chars ↔ p c = true) -> count_in chars s = count_chars p s.
Proof.
  intros Hp. unfold count_in, count_chars. f_equal.
  induction s as [|c s IH]; [done|]. rewrite filter_cons. simpl.
  destruct (decide (c ∈ chars)) as [Hin|Hout].
  - apply Hp in Hin. rewrite Hin. simpl. by rewrite IH.
  - destruct (p c) eqn:Hc; [by apply Hp in Hc|done].
Qed.

Section Language.
Context (cfg : Config) (env : Env).

(** Who decides the language, in order of precedence. *)
Lemma select_language_request request clean_text l :
  language request = Some l -> l ≠ [] ->
  select_language cfg env request clean_text = l.
Proof.
  intros Hl Hne. unfold select_language. rewrite Hl. by destruct l.
Qed.

Lemma select_language_voice request clean_text vs l :
  language request = None ->
  voice_settings request = Some vs -> VoiceSettings.language vs = Some l -> l ≠ [] ->
  select_language cfg env request clean_text = l.
Proof.
  intros Hnone Hvs Hl Hne. unfold select_language. rewrite Hnone, Hvs. simpl.
  rewrite Hl. by destruct l.
Qed.

Lemma select_language_heuristic request clean_text :
  language request = None ->
  (∀ vs, voice_settings request = Some vs -> VoiceSettings.language vs = None) ->
  clean_text ≠ [] ->
  select_language cfg env request clean_text =
    if count_chars is_latin_lower (str_lower env clean_text)
         <? count_chars is_cyrillic_lower (str_lower env clean_text)
    then lit "ru" else lit "en".
Proof.
  intros Hnone Hvs Hne. unfold select_language. rewrite Hnone. simpl.
  rewrite (count_in_spec _ _ _ russian_chars_spec).
  rewrite (count_in_spec _ _ _ english_chars_spec).
  destruct (voice_settings request) as [vs|]; [rewrite (Hvs vs eq_refl)|];
    by destruct clean_text.
Qed.

(** Every call of [tts_to_file] gets the selected language, and is made
    for a non-empty text. *)
Lemma generate_speech_events request w :
  Forall (synthesis_language
            (select_language cfg env request (strip (text request)))
            (strip (text request)))
    (trace (generate_speech cfg env request w)).
Proof.
  rewrite generate_speech_run.
  destruct (negb (model_loaded (globals w)) || _); [constructor|].
  destruct (strip (text request)) as [|c s] eqn:Hstrip; [constructor|]. simpl.
  assert (sound (λ _, True)
            (synthesis_language (select_language cfg env request (c :: s)) (c :: s))
            (λ _ _ : world Globals, True)
            (try_except (generate_try cfg env request)
               (λ e, raise (HTTPException 500
                              (lit "Failed to generate speech: " ++ str_exn e)))))
    as (_ & He & _); [|apply He].
  unfold generate_try. rewrite Hstrip. repeat sound_step.
Qed.

End Language.

(** C2.  The language handed to the model by [generate_speech] is
    [request.language] when that is set; otherwise
    [voice_settings.language] when that is set; otherwise it comes from
    counting characters in the lowercased, stripped text: ['ru'] exactly
    when the lowercase Cyrillic letters (['а'..'я'] and ['ё']) strictly
    outnumber the lowercase Latin letters (['a'..'z']), and ['en'] in every
    other case, ties included. *)
Theorem language_selection (cfg : Config) (env : Env) (request : TTSRequest)
    (w : world Globals) (txt path : pystr) (speaker : option pystr) (used : pystr) :
  EvTtsToFile txt path speaker used ∈ trace (generate_speech cfg env request w) ->
  let lowered := str_lower env (strip (text request)) in
  let cyrillic := count_chars is_cyrillic_lower lowered in
  let latin := count_chars is_latin_lower lowered in
  (∀ l, language request = Some l -> l ≠ [] -> used = l)
  ∧ (language request = None ->
     ∀ vs l, voice_settings request = Some vs ->
             VoiceSettings.language vs = Some l -> l ≠ [] -> used = l)
  ∧ (language request = None ->
     (∀ vs, voice_settings request = Some vs -> VoiceSettings.language vs = None) ->
     (used = lit "ru" ↔ latin < cyrillic) ∧ (cyrillic <= latin -> used = lit "en")).
Proof.
  intros Hin lowered cyrillic latin.
  pose proof (generate_speech_events cfg env request w) as Hev.
  rewrite Forall_forall in Hev. destruct (Hev _ Hin) as [-> Hne].
  split_and!.
  - intros l Hl Hl'. by apply select_language_request.
  - intros Hnone vs l Hvs Hl Hl'. by apply (select_language_voice _ _ _ _ vs).
  - intros Hnone Hvs. rewrite (select_language_heuristic _ _ _ _ Hnone Hvs Hne).
    fold lowered. fold cyrillic latin.
    destruct (latin <? cyrillic) eqn:Hcmp.
    + apply Z.ltb_lt in Hcmp. split; [done | lia].
    + apply Z.ltb_ge in Hcmp. split; [|done]. split; [discriminate | lia].
Qed.

(** "Привет, world" with no language given is synthesised as Russian:
    six Cyrillic letters against five Latin ones. *)
Lemma language_selection_witness :
  let r := generate_speech default_config tts_env (plain_request privet_world) tts_loaded in
  let path := lit "./audio/tts_6fa459ea.wav" in
  EvTtsToFile privet_world path (Some (lit "Dmitrii")) (lit "ru") ∈ trace r
  ∧ count_chars is_cyrillic_lower (lower privet_world) = 6
  ∧ count_chars is_latin_lower (lower privet_world) = 5.
Proof.
  assert (EvTtsToFile privet_world (lit "./audio/tts_6fa459ea.wav")
            (Some (lit "Dmitrii")) (lit "ru")
          ∈ trace (generate_speech default_config tts_env (plain_request privet_world)
                     tts_loaded)) as Hin.
  { vm_compute. constructor. }
  destruct (language_selection _ _ _ _ _ _ _ _ Hin) as (_ & _ & Hheur).
  destruct (Hheur eq_refl) as [Hru _]; [intros vs [=]|].
  split_and!; [exact Hin | reflexivity | reflexivity].
Defined.

End TTSFacts.

(* ===================================================================== *)
(** ** Temp-file eviction                                                *)
(* ===================================================================== *)

Module EvictFacts.
Import Py FileSystem Eff Props Samples EffFacts.

Lemma Qlt_bool_spec (x y : Q) : Qlt_bool x y = true ↔ (x < y)%Q.
Proof.
  unfold Qlt_bool. rewrite negb_true_iff. split.
  - intros H. apply Qnot_le_lt. intros Hle. apply Qle_bool_iff in Hle. congruence.
  - intros H. destruct (Qle_bool y x) eqn:E; [|done].
    apply Qle_bool_iff in E. by apply Qlt_not_le in H.
Qed.

(** Both clean-up tasks are the same loop. *)
Lemma cleanup_temp_files_evict cfg :
  STT.cleanup_temp_files cfg = evict_older_than (STT.TEMP_AUDIO_DIR cfg) 1800.
Proof. reflexivity. Qed.

Lemma cleanup_old_files_evict cfg :
  TTS.cleanup_old_files cfg = evict_older_than (TTS.AUDIO_OUTPUT_DIR cfg) 3600.
Proof. reflexivity. Qed.

(** A listed name joined to its directory is the path it was listed for. *)
Lemma child_name_join d p n :
  d ≠ [] -> child_name d p = Some n -> path_join d n = p.
Proof.
  intros Hd. unfold child_name.
  set (pre := if endswith d (lit "/") then d else d ++ lit "/").
  unfold startswith. case_bool_decide as Hpre; [|done].
  destruct (drop (length pre) p) as [|c n'] eqn:Hdrop; [done|].
  case_bool_decide as Hslash; [done|]. intros [= <-].
  assert (p = pre ++ c :: n') as ->.
  { by rewrite <- (take_drop (length pre) p), Hpre, Hdrop. }
  unfold path_join, startswith. simpl.
  case_bool_decide as Hc.
  - injection Hc as ->. destruct Hslash. by left.
  - destruct d as [|d0 d']; [done|]. subst pre.
    destruct (endswith _ _); [done | by rewrite <- app_assoc].
Qed.

Section Loop.
Context {G : Type} (dir : pystr) (limit now : Q).

Lemma evict_entry_run (name : pystr) (w : world G) :
  evict_entry dir limit now name w =
    Run (if evicted_here limit now w (path_join dir name)
         then World (globals w)
                (set_files (delete (path_join dir name) (files (os w))) (os w))
         else w)
      [] (Ok tt).
Proof.
  destruct w as [g o].
  unfold evict_entry, evicted_here, expired, isfile, query, call, getctime, remove.
  cbv zeta. unfold bind. simpl.
  destruct (files o !! path_join dir name) as [nd|] eqn:Hp; simpl; [|done].
  case_bool_decide as Hk; simpl; [|done]. rewrite Hp. simpl.
  destruct (Qlt_bool _ _); simpl; [|done].
  by rewrite Hp, Hk.
Qed.

Lemma evict_loop (names : list pystr) (w : world G) :
  NoDup (path_join dir <$> names) ->
  let r := for_each names (evict_entry dir limit now) w in
  outcome r = Ok tt ∧ trace r = [] ∧ globals (final r) = globals w
  ∧ clock (os (final r)) = clock (os w)
  ∧ ∀ p, files (os (final r)) !! p =
         match files (os w) !! p with
         | Some nd =>
             if bool_decide (p ∈ path_join dir <$> names) && expired limit now nd
             then None else Some nd
         | None => None
         end.
Proof.
  revert w. induction names as [|name names IH]; intros w Hnd.
  - simpl. split_and!; try done. intros p. by destruct (files (os w) !! p).
  - rewrite fmap_cons in Hnd |- *. apply NoDup_cons in Hnd as [Hfresh Hnd].
    cbn [for_each]. cbv zeta. rewrite bind_run, evict_entry_run.
    cbn [outcome final trace].
    set (p0 := path_join dir name) in *.
    set (w1 := if evicted_here limit now w p0 then _ else w).
    destruct (IH w1 Hnd) as (Ho & Ht & Hg & Hc & Hf).
    rewrite Ho, Ht. split_and!; try done.
    + cbn [final]. rewrite Hg. subst w1. by destruct (evicted_here limit now w p0).
    + cbn [final]. rewrite Hc. subst w1. by destruct (evicted_here limit now w p0).
    + intros p. cbn [final]. rewrite Hf. subst w1. unfold evicted_here.
      destruct (decide (p = p0)) as [->|Hne].
      * rewrite (bool_decide_eq_false_2 _ Hfresh).
        rewrite (bool_decide_eq_true_2 (p0 ∈ p0 :: _)) by by left.
        destruct (files (os w) !! p0) as [nd|] eqn:Hp; simpl; [|by rewrite Hp].
        destruct (expired limit now nd); simpl; [by rewrite lookup_delete_eq|by rewrite Hp].
      * assert (bool_decide (p ∈ p0 :: (path_join dir <$> names))
                = bool_decide (p ∈ path_join dir <$> names)) as ->.
        { apply bool_decide_ext. rewrite elem_of_cons.
          split; [by intros [?|?] | by right]. }
        destruct (match files (os w) !! p0 with Some nd => _ | None => _ end);
          simpl; [by rewrite lookup_delete_ne|done].
Qed.

End Loop.

(** The names [os.listdir] returns, joined to the directory, are the
    paths of its entries: each exactly once. *)
Lemma listed_paths (d : pystr) (l : list (pystr * node)) :
  d ≠ [] -> NoDup l.*1 ->
  NoDup (path_join d <$> omap (λ kv, child_name d kv.1) l)
  ∧ ∀ p, p ∈ path_join d <$> omap (λ kv, child_name d kv.1) l
         ↔ p ∈ l.*1 ∧ is_Some (child_name d p).
Proof.
  intros Hd. induction l as [|[k nd] l IH]; intros Hnd.
  - simpl. split; [constructor|]. intros p.
    split; [by intros ?%elem_of_nil | by intros [?%elem_of_nil _]].
  - rewrite fmap_cons in Hnd. apply NoDup_cons in Hnd as [Hk Hnd].
    destruct (IH Hnd) as [IHnd IHin]. cbn [omap list_omap fst].
    destruct (child_name d k) as [n|] eqn:Hn.
    + rewrite fmap_cons, (child_name_join d k n Hd Hn). split.
      * apply NoDup_cons. split; [|done]. by intros [? _]%IHin.
      * intros p. rewrite fmap_cons, !elem_of_cons, IHin. cbn [fst]. split.
        -- intros [->|[? ?]]; [by rewrite Hn; split; [left|eexists] | by split; [right|]].
        -- intros [[->|?] ?]; [by left | by right].
    + split; [done|]. intros p. rewrite fmap_cons, elem_of_cons, IHin. cbn [fst]. split.
      * intros [? ?]. by split; [right|].
      * intros [[->|?] Hs]; [|done]. rewrite Hn in Hs. by destruct Hs.
Qed.

Lemma listdir_nonempty d o :
  d ≠ [] -> listdir d o = Success (omap (λ kv, child_name d kv.1) (map_to_list (files o))).
Proof. by destruct d. Qed.

Section Evict.
Context {G : Type} (dir : pystr) (limit : Q).
Hypothesis dir_nonempty : dir ≠ [].

(** The clean-up task never fails, touches nothing but the files, and
    removes exactly the expired regular files listed in [dir]. *)
Lemma evict_older_than_run (w : world G) :
  let r := evict_older_than dir limit w in
  outcome r = Ok tt ∧ globals (final r) = globals w
  ∧ clock (os (final r)) = clock (os w)
  ∧ ∀ p, files (os (final r)) !! p =
         match files (os w) !! p with
         | Some nd =>
             if bool_decide (is_Some (child_name dir p))
                && expired limit (clock (os w)) nd
             then None else Some nd
         | None => None
         end.
Proof.
  destruct w as [g o].
  destruct (listed_paths dir (map_to_list (files o)) dir_nonempty
              (NoDup_fst_map_to_list _)) as [Hnd Hin].
  set (names := omap (λ kv : pystr * node, child_name dir kv.1)
                  (map_to_list (files o))) in *.
  destruct (evict_loop dir limit (clock o) names (World g o) Hnd)
    as (Ho & Ht & Hg & Hc & Hf).
  assert (evict_older_than dir limit (World g o)
          = for_each names (evict_entry dir limit (clock o)) (World g o)) as ->.
  { unfold evict_older_than, try_except, bind, query, call, get_os, ret.
    cbn [os globals]. rewrite (listdir_nonempty dir o dir_nonempty). fold names.
    clear Hg Hc Hf. revert Ho Ht.
    destruct (for_each names _ _) as [w' t' [[]|e|]]; simpl; by intros. }
  cbv zeta. split_and!; try done.
  intros p. rewrite Hf. cbn [os files].
  destruct (files o !! p) as [nd|] eqn:Hp; [|done].
  assert (bool_decide (p ∈ path_join dir <$> names)
          = bool_decide (is_Some (child_name dir p))) as ->; [|done].
  apply bool_decide_ext. rewrite Hin. split; [by intros [_ ?]|].
  intros Hs. split; [|done]. apply list_elem_of_fmap. exists (p, nd).
  split; [done|]. by apply elem_of_map_to_list.
Qed.

Lemma evict_older_than_by_age (w : world G) :
  evicts_by_age dir limit (os w) (os (final (evict_older_than dir limit w))).
Proof.
  destruct (evict_older_than_run w) as (_ & _ & _ & Hf).
  intros p name nd Hname Hp age. rewrite Hf, Hp, Hname.
  rewrite (bool_decide_eq_true_2 _ (mk_is_Some _ _ eq_refl)).
  unfold expired. fold age. simpl. split.
  - intros ->. rewrite (bool_decide_eq_true_2 _ eq_refl). simpl.
    destruct (Qlt_bool limit age) eqn:Hage.
    + apply Qlt_bool_spec in Hage. done.
    + split; [done|]. intros Hlt%Qlt_bool_spec. congruence.
  - intros [Hk|Hle].
    + by rewrite (bool_decide_eq_false_2 _ Hk).
    + destruct (Qlt_bool limit age) eqn:Hage; [|by rewrite andb_false_r].
      apply Qlt_bool_spec in Hage. by apply Qlt_not_le in Hage.
Qed.

End Evict.

(** C3.  Temp-file eviction goes by age alone.  The clean-up task of the
    STT service (limit 1800 seconds) and that of the TTS service (limit
    3600 seconds) each remove, among the entries of the service's directory,
    exactly the regular files whose age (current time minus creation time)
    exceeds the limit; regular files at or below it and entries that are
    not regular files stay as they were. *)
Theorem eviction_by_age (scfg : STT.Config) (sw : world STT.Globals)
    (tcfg : TTS.Config) (tw : world TTS.Globals) :
  STT.TEMP_AUDIO_DIR scfg ≠ [] -> TTS.AUDIO_OUTPUT_DIR tcfg ≠ [] ->
  evicts_by_age (STT.TEMP_AUDIO_DIR scfg) 1800 (os sw)
    (os (final (STT.cleanup_temp_files scfg sw)))
  ∧ evicts_by_age (TTS.AUDIO_OUTPUT_DIR tcfg) 3600 (os tw)
      (os (final (TTS.cleanup_old_files tcfg tw))).
Proof.
  intros Hs Ht. rewrite cleanup_temp_files_evict, cleanup_old_files_evict.
  split; by apply evict_older_than_by_age.
Qed.

(** The STT clean-up on the sample directory, at 5400 seconds: the file
    created at 100 goes, the one created at 5000 stays, and so does the
    sub-directory created at 100. *)
Lemma eviction_by_age_witness :
  let after :=
    os (final (STT.cleanup_temp_files STT.default_config
                 (World STT.initial_globals temp_os))) in
  files after !! lit "./temp/stale.wav" = None
  ∧ files after !! lit "./temp/fresh.wav" = Some fresh
  ∧ files after !! lit "./temp/old" = Some subdir.
Proof.
  destruct (eviction_by_age STT.default_config (World STT.initial_globals temp_os)
              TTS.default_config (World TTS.initial_globals temp_os))
    as [Hstt _]; [discriminate | discriminate |].
  split_and!.
  - apply (Hstt (lit "./temp/stale.wav") (lit "stale.wav") stale); reflexivity.
  - apply (Hstt (lit "./temp/fresh.wav") (lit "fresh.wav") fresh);
      [reflexivity | reflexivity |].
    right. vm_compute. discriminate.
  - apply (Hstt (lit "./temp/old") (lit "old") subdir); [reflexivity | reflexivity |].
    left. discriminate.
Defined.

End EvictFacts.

(* ===================================================================== *)
(** ** Loading, start-up and health                                      *)
(* ===================================================================== *)

Module StartFacts.
Import Py FileSystem Eff Props Samples Steps Samples2 EffFacts.

(** The whole run of a first load, by what the loader does. *)
Lemma load_whisper_model_first_run cfg env w :
  STT.whisper_model (globals w) = None ->
  STT.model_loading (globals w) = false ->
  STT.load_whisper_model cfg env w =
    let ev := EvLoadModel (lit "medium") (STT.get_device cfg env) in
    let c := STT.current_requests (globals w) in
    match STT.whisper_load_model env (lit "medium") (STT.get_device cfg env) (os w) with
    | (o, Success m) =>
        Run (World (STT.MkGlobals (Some m) false c) o) [ev] (Ok (Some m))
    | (o, Failure msg) =>
        Run (World (STT.MkGlobals None false c) o) [ev] (Raise (Exception msg))
    end.
Proof.
  intros Hnone Hidle.
  unfold STT.load_whisper_model, try_finally, try_except, extern, call, log.
  unfold bind. simpl. rewrite Hnone, Hidle. simpl.
  destruct (STT.whisper_load_model env _ _ (os w)) as [o [m|msg]]; simpl;
    by rewrite ?Hnone.
Qed.

Lemma load_whisper_model_cached cfg env w m :
  STT.whisper_model (globals w) = Some m ->
  STT.load_whisper_model cfg env w = Run w [] (Ok (Some m)).
Proof. intros Hm. unfold STT.load_whisper_model, bind. simpl. by rewrite Hm. Qed.

(** X1.  The first call of [load_whisper_model] (nothing cached, no load
    in progress) calls the loader once, for model ['medium'] on
    [get_device()].  If the loader returns, its model is cached and
    returned; if it raises, the exception is passed on and nothing is
    cached.  Either way [model_loading] is false again afterwards, the
    request counter is untouched, and the OS is as the loader left it. *)
Theorem first_load (cfg : STT.Config) (env : STT.Env) (w : world STT.Globals) :
  STT.whisper_model (globals w) = None ->
  STT.model_loading (globals w) = false ->
  let r := STT.load_whisper_model cfg env w in
  let loaded :=
    STT.whisper_load_model env (lit "medium") (STT.get_device cfg env) (os w) in
  trace r = [EvLoadModel (lit "medium") (STT.get_device cfg env)]
  ∧ STT.model_loading (globals (final r)) = false
  ∧ STT.current_requests (globals (final r)) = STT.current_requests (globals w)
  ∧ os (final r) = loaded.1
  ∧ match loaded.2 with
    | Success m =>
        outcome r = Ok (Some m) ∧ STT.whisper_model (globals (final r)) = Some m
    | Failure msg =>
        outcome r = Raise (Exception msg)
        ∧ STT.whisper_model (globals (final r)) = None
    end.
Proof.
  intros Hnone Hidle. cbv zeta.
  rewrite (load_whisper_model_first_run cfg env w Hnone Hidle). cbv zeta.
  by destruct (STT.whisper_load_model env _ _ (os w)) as [o [m|msg]].
Qed.

(** The first load of the sample service caches the sample model. *)
Lemma first_load_witness :
  let r := STT.load_whisper_model STT.default_config stt_env (stt_world 0) in
  trace r = [EvLoadModel (lit "medium") (lit "cpu")]
  ∧ outcome r = Ok (Some whisper)
  ∧ STT.whisper_model (globals (final r)) = Some whisper.
Proof.
  destruct (first_load STT.default_config stt_env (stt_world 0) eq_refl eq_refl)
    as (Ht & _ & _ & _ & Hout & Hm).
  split_and!; [exact Ht | exact Hout | exact Hm].
Defined.

(** X2.  When the loader raises while a request is being handled, the
    request ends in HTTP 500 carrying the loader's message (not in 503),
    the only third-party call made is that load, and the globals are back
    to what they were: nothing cached, no load in progress, same counter.
    The next request will therefore try the load again. *)
Theorem failed_load_is_500 (cfg : STT.Config) (env : STT.Env)
    (audio : STT.UploadFile) (w : world STT.Globals) (o : OS) (msg : pystr) :
  STT.whisper_model (globals w) = None ->
  STT.model_loading (globals w) = false ->
  STT.current_requests (globals w) < STT.MAX_CONCURRENT_REQUESTS cfg ->
  oversized cfg audio = false ->
  STT.whisper_load_model env (lit "medium") (STT.get_device cfg env) (os w)
    = (o, Failure msg) ->
  let r := STT.transcribe_audio cfg env audio w in
  outcome r = Raise (HTTPException 500 (lit "Transcription failed: " ++ msg))
  ∧ trace r = [EvCounter 1; EvLoadModel (lit "medium") (STT.get_device cfg env);
               EvCounter (-1)]
  ∧ globals (final r) = globals w
  ∧ os (final r) = o.
Proof.
  intros Hnone Hidle Hgate Hsize Hload. cbv zeta.
  rewrite STTFacts.transcribe_audio_run. apply Z.leb_gt in Hgate. rewrite Hgate.
  assert (try_except (STT.transcribe_try cfg env audio (clock (os w)))
            STT.transcribe_except (bump 1 w)
          = Run (World (STT.MkGlobals None false
                          (STT.current_requests (globals w) + 1)) o)
              [EvLoadModel (lit "medium") (STT.get_device cfg env)]
              (Raise (HTTPException 500 (lit "Transcription failed: " ++ msg))))
    as ->.
  { unfold try_except, STT.transcribe_try. fold (oversized cfg audio).
    rewrite Hsize. unfold bind at 1. cbn [ret]. unfold bind at 1.
    rewrite (load_whisper_model_first_run cfg env (bump 1 w)) by done.
    cbv zeta. cbn [bump os]. by rewrite Hload. }
  cbv zeta. cbn [outcome trace final]. split_and!; try done.
  destruct w as [[m l c] o0]. simpl in *. subst. f_equal. lia.
Qed.

(** The sample request against a service whose model cannot be loaded. *)
Lemma failed_load_is_500_witness :
  let r := STT.transcribe_audio STT.default_config broken_env upload (stt_world 0) in
  outcome r = Raise (HTTPException 500 (lit "Transcription failed: OSError"))
  ∧ globals (final r) = globals (stt_world 0).
Proof.
  destruct (failed_load_is_500 STT.default_config broken_env upload (stt_world 0)
              empty_temp (lit "OSError"))
    as (Hout & _ & Hg & _); try reflexivity.
  split; [exact Hout | exact Hg].
Defined.

(** X3.  [startup_event] of the STT service never raises: a failed load
    is logged and swallowed.  Started with nothing cached and no load in
    progress it always completes, and [/health] then reports ['healthy']
    with [model_loaded] true if the loader returned a model, and
    ['loading'] with [model_loaded] false if the loader raised. *)
Theorem startup_then_health (cfg : STT.Config) (env : STT.Env)
    (w : world STT.Globals) :
  let r := STT.startup_event cfg env w in
  let loaded :=
    STT.whisper_load_model env (lit "medium") (STT.get_device cfg env) (os w) in
  (∀ e, outcome r ≠ Raise e)
  ∧ (STT.whisper_model (globals w) = None -> STT.model_loading (globals w) = false ->
     outcome r = Ok tt
     ∧ ∃ h, STTHealth.health_check env (final r) = Run (final r) [] (Ok h)
            ∧ match loaded.2 with
              | Success _ =>
                  STTHealth.status h = lit "healthy" ∧ STTHealth.model_loaded h = true
              | Failure _ =>
                  STTHealth.status h = lit "loading" ∧ STTHealth.model_loaded h = false
              end).
Proof.
  cbv zeta. unfold STT.startup_event. split.
  - intros e. rewrite try_except_run, bind_run.
    destruct (outcome (STT.load_whisper_model cfg env w)); simpl; done.
  - intros Hnone Hidle. rewrite try_except_run, bind_run.
    rewrite (load_whisper_model_first_run cfg env w Hnone Hidle). cbv zeta.
    destruct (STT.whisper_load_model env _ _ (os w)) as [o [m|msg]]; simpl;
      (split; [done|]); eexists; (split; [reflexivity|]);
      unfold STTHealth.status, STTHealth.model_loaded; simpl; done.
Qed.

(** Start-up with a loader that works, and with one that does not. *)
Lemma startup_then_health_witness :
  let good := final (STT.startup_event STT.default_config stt_env (stt_world 0)) in
  let bad := final (STT.startup_event STT.default_config broken_env (stt_world 0)) in
  (∃ h, outcome (STTHealth.health_check stt_env good) = Ok h
        ∧ STTHealth.status h = lit "healthy")
  ∧ (∃ h, outcome (STTHealth.health_check broken_env bad) = Ok h
          ∧ STTHealth.status h = lit "loading").
Proof.
  split.
  - destruct (startup_then_health STT.default_config stt_env (stt_world 0))
      as (_ & H). destruct (H eq_refl eq_refl) as (_ & h & Hrun & Hh & _).
    exists h. split; [by rewrite Hrun | exact Hh].
  - destruct (startup_then_health STT.default_config broken_env (stt_world 0))
      as (_ & H). destruct (H eq_refl eq_refl) as (_ & h & Hrun & Hh & _).
    exists h. split; [by rewrite Hrun | exact Hh].
Defined.

End StartFacts.

(* ===================================================================== *)
(** ** Running a sequence step by step                                   *)
(* ===================================================================== *)

Module StepFacts.
Import Py FileSystem Eff Props Steps EffFacts.

Section Step.
Context {G : Type}.

Lemma bind_ok_inv {A B} (m : M G A) (k : A -> M G B) w b :
  outcome (bind m k w) = Ok b ->
  ∃ a, outcome (m w) = Ok a
       ∧ outcome (k a (final (m w))) = Ok b
       ∧ final (bind m k w) = final (k a (final (m w)))
       ∧ trace (bind m k w) = trace (m w) ++ trace (k a (final (m w))).
Proof.
  rewrite bind_run. destruct (outcome (m w)) as [a|e|]; simpl; try done.
  intros H. by exists a.
Qed.

Lemma bind_of_ok {A B} (m : M G A) (k : A -> M G B) w w1 t1 a :
  m w = Run w1 t1 (Ok a) ->
  bind m k w = Run (final (k a w1)) (t1 ++ trace (k a w1)) (outcome (k a w1)).
Proof. intros H. unfold bind. rewrite H. by destruct (k a w1). Qed.

Lemma bind_of_raise {A B} (m : M G A) (k : A -> M G B) w w1 t1 e :
  m w = Run w1 t1 (Raise e) -> bind m k w = Run w1 t1 (Raise e).
Proof. intros H. unfold bind. by rewrite H. Qed.

Lemma call_ok_run {A} (f : OS -> OS * result A) (g : G) o o' a :
  f o = (o', Success a) -> call f (World g o) = Run (World g o') [] (Ok a).
Proof. intros H. unfold call. simpl. by rewrite H. Qed.

Lemma call_raise_run {A} (f : OS -> OS * result A) (g : G) o o' msg :
  f o = (o', Failure msg) ->
  call f (World g o) = Run (World g o') [] (Raise (Exception msg)).
Proof. intros H. unfold call. simpl. by rewrite H. Qed.

Lemma extern_ok_run {A} ev (f : OS -> OS * result A) (g : G) o o' a :
  f o = (o', Success a) -> extern ev f (World g o) = Run (World g o') [ev] (Ok a).
Proof. intros H. unfold extern, bind, log, call. simpl. by rewrite H. Qed.

Lemma extern_raise_run {A} ev (f : OS -> OS * result A) (g : G) o o' msg :
  f o = (o', Failure msg) ->
  extern ev f (World g o) = Run (World g o') [ev] (Raise (Exception msg)).
Proof. intros H. unfold extern, bind, log, call. simpl. by rewrite H. Qed.

(** Reading the globals in front of a guarded sequence. *)
Lemma try_except_get_globals {A} (k : G -> M G A) h w :
  try_except (bind get_globals k) h w = try_except (k (globals w)) h w.
Proof.
  unfold try_except, bind, get_globals.
  by destruct (k (globals w) w) as [w1 t1 [a|e|]].
Qed.

(** A guarded sequence that starts with a third-party call: the call
    is made; if it raises, the handler takes over at once; if it returns,
    the rest runs under the same guard. *)
Lemma guarded_call_run {A B} ev (f : OS -> OS * result B)
    (k : B -> M G A) (h : exn -> M G A) w :
  try_except (bind (extern ev f) k) h w =
    match f (os w) with
    | (o, Success b) =>
        let r := try_except (k b) h (World (globals w) o) in
        Run (final r) (ev :: trace r) (outcome r)
    | (o, Failure msg) =>
        let r := h (Exception msg) (World (globals w) o) in
        Run (final r) (ev :: trace r) (outcome r)
    end.
Proof.
  unfold try_except, extern, bind, log, call. cbn [outcome final trace].
  destruct (f (os w)) as [o [b|msg]]; cbn [app].
  - destruct (k b (World (globals w) o)) as [w1 t1 [a|e|]]; cbn; try done.
    by destruct (h e w1).
  - by destruct (h (Exception msg) (World (globals w) o)).
Qed.

Lemma call_final {A} (f : OS -> OS * result A) (w : world G) :
  final (call f w) = World (globals w) (f (os w)).1.
Proof. unfold call. by destruct (f (os w)). Qed.

Lemma extern_final {A} ev (f : OS -> OS * result A) (w : world G) :
  final (extern ev f w) = World (globals w) (f (os w)).1.
Proof. unfold extern, bind, log, call. simpl. by destruct (f (os w)). Qed.

Lemma extern_trace {A} ev (f : OS -> OS * result A) (w : world G) :
  trace (extern ev f w) = [ev].
Proof. unfold extern, bind, log, call. simpl. by destruct (f (os w)). Qed.

(** What follows a step only has to be sound for the values the step
    can return. *)
Lemma sound_bind_ok {A B} P Q (R : world G -> world G -> Prop)
    (m : M G A) (k : A -> M G B) :
  (∀ w1 w2 w3, R w1 w2 -> R w2 w3 -> R w1 w3) ->
  sound P Q R m -> (∀ a w, outcome (m w) = Ok a -> sound P Q R (k a)) ->
  sound P Q R (bind m k).
Proof.
  intros R_trans (Hm1 & Hm2 & Hm3) Hk.
  assert (∀ w a, outcome (m w) = Ok a -> sound P Q R (k a)) as Hk' by eauto.
  clear Hk. split_and!.
  - intros w e. rewrite bind_run. specialize (Hm1 w). specialize (Hk' w).
    destruct (outcome (m w)) as [a|e'|]; simpl; [|intros [= <-]; eauto|done].
    apply (Hk' a eq_refl).
  - intros w. rewrite bind_run. specialize (Hm2 w). specialize (Hk' w).
    destruct (outcome (m w)) as [a|e'|]; simpl; [|done..].
    apply Forall_app; split; [done|]. apply (Hk' a eq_refl).
  - intros w. rewrite bind_run. specialize (Hm3 w). specialize (Hk' w).
    destruct (outcome (m w)) as [a|e'|]; simpl; [|done..].
    eapply R_trans; [done|]. apply (Hk' a eq_refl).
Qed.

End Step.

End StepFacts.

(* ===================================================================== *)
(** ** Code that always comes to an end                                  *)
(* ===================================================================== *)

Module HaltFacts.
Import Py FileSystem Eff Props Steps EffFacts.

Section Halts.
Context {G : Type}.

Lemma halts_ret {A} (a : A) : halts (@ret G A a).
Proof. by intros w. Qed.

Lemma halts_raise {A} e : halts (@raise G A e).
Proof. by intros w. Qed.

Lemma halts_get_globals : halts (@get_globals G).
Proof. by intros w. Qed.

Lemma halts_get_os : halts (@get_os G).
Proof. by intros w. Qed.

Lemma halts_log ev : halts (@log G ev).
Proof. by intros w. Qed.

Lemma halts_put_globals g : halts (@put_globals G g).
Proof. by intros w. Qed.

Lemma halts_sleep others : halts (@sleep G others).
Proof. by intros w. Qed.

Lemma halts_call {A} (f : OS -> OS * result A) : halts (@call G A f).
Proof. intros w. unfold call. by destruct (f (os w)) as [o [a|msg]]. Qed.

Lemma halts_query {A} (f : OS -> result A) : halts (@query G A f).
Proof. apply halts_call. Qed.

Lemma halts_bind {A B} (m : M G A) (k : A -> M G B) :
  halts m -> (∀ a, halts (k a)) -> halts (bind m k).
Proof.
  intros Hm Hk w. rewrite bind_run. specialize (Hm w).
  destruct (outcome (m w)) as [a|e|]; simpl; [apply Hk|done..].
Qed.

Lemma halts_extern {A} ev (f : OS -> OS * result A) : halts (@extern G A ev f).
Proof. apply halts_bind; [apply halts_log | intros _; apply halts_call]. Qed.

Lemma halts_try_except {A} (m : M G A) (h : exn -> M G A) :
  halts m -> (∀ e, halts (h e)) -> halts (try_except m h).
Proof.
  intros Hm Hh w. rewrite try_except_run. specialize (Hm w).
  destruct (outcome (m w)) as [a|e|] eqn:E; simpl; rewrite ?E; [done|apply Hh|done].
Qed.

Lemma halts_try_finally {A} (m : M G A) (fin : M G unit) :
  halts m -> halts fin -> halts (try_finally m fin).
Proof.
  intros Hm Hf w. rewrite try_finally_run. specialize (Hm w).
  specialize (Hf (final (m w))).
  destruct (outcome (m w)) as [a|e|]; simpl; [| |done];
    by destruct (outcome (fin (final (m w)))) as [[]|e'|].
Qed.

Lemma halts_for_each {A} (xs : list A) (body : A -> M G unit) :
  (∀ x, halts (body x)) -> halts (for_each xs body).
Proof.
  intros Hb. induction xs as [|x xs IH]; simpl; [apply halts_ret|].
  apply halts_bind; [apply Hb | intros _; apply IH].
Qed.

End Halts.

Create HintDb halts discriminated.

#[export] Hint Resolve halts_ret halts_raise halts_get_globals halts_get_os
  halts_log halts_put_globals halts_sleep halts_call halts_query halts_extern : halts.

(** One step through a piece of code that has no loop to wait in. *)
Ltac halts_step :=
  lazymatch goal with
  | |- halts (bind _ _) => apply halts_bind; [|intros ?]
  | |- halts (try_except _ _) => apply halts_try_except; [|intros ?]
  | |- halts (try_finally _ _) => apply halts_try_finally
  | |- halts (for_each _ _) => apply halts_for_each; intros ?
  | |- halts (if ?b then _ else _) => destruct b
  | |- halts (match ?x with _ => _ end) => destruct x
  | |- halts (let _ := _ in _) => cbv zeta
  | |- halts _ => solve [eauto with halts]
  end.

End HaltFacts.

(* ===================================================================== *)
(** ** A request that holds a model                                      *)
(* ===================================================================== *)

Module RestFacts.
Import Py FileSystem Eff Props Samples Steps Samples2 EffFacts StepFacts HaltFacts.

Lemma same_globals_refl {G} (w : world G) : same_globals w w.
Proof. done. Qed.

Lemma same_globals_trans {G} (w1 w2 w3 : world G) :
  same_globals w1 w2 -> same_globals w2 w3 -> same_globals w1 w3.
Proof. unfold same_globals. congruence. Qed.

Lemma same_globals_os {G} (w : world G) o : same_globals w (World (globals w) o).
Proof. done. Qed.

#[export] Hint Resolve same_globals_refl same_globals_trans same_globals_os : sound.
#[export] Hint Resolve STTFacts.status_in_exception : sound.

(** [transcribe_try] is the size test, the load, and the rest. *)
Lemma transcribe_try_steps cfg env audio start :
  STT.transcribe_try cfg env audio start =
    ((if oversized cfg audio
      then raise (HTTPException 413 (lit "Audio file too medium"))
      else ret tt) ;;;
     loaded <- STT.load_whisper_model cfg env ;;
     match loaded with
     | None => raise (HTTPException 503 (lit "Failed to load Whisper model"))
     | Some model => transcribe_rest cfg env audio start model
     end).
Proof. reflexivity. Qed.

Section Rest.
Context (cfg : STT.Config) (env : STT.Env) (audio : STT.UploadFile).

Lemma sound_convert P i o sr :
  sound P body_event same_globals (STT.convert_audio_format env i o sr).
Proof. unfold STT.convert_audio_format. repeat sound_step. Qed.

Hint Resolve sound_convert : sound.

Lemma sound_choose_audio_path P :
  sound P body_event same_globals (choose_audio_path cfg env audio).
Proof. unfold choose_audio_path. repeat sound_step. Qed.

Lemma sound_remove_temp_files P :
  sound P body_event same_globals (remove_temp_files cfg env audio).
Proof. unfold remove_temp_files. repeat sound_step. Qed.

Hint Resolve sound_choose_audio_path sound_remove_temp_files : sound.

(** With a model in hand a request raises nothing but ordinary
    exceptions, makes no load and no counter update, and writes no
    global. *)
Lemma sound_transcribe_rest start model :
  sound (status_in []) body_event same_globals
    (transcribe_rest cfg env audio start model).
Proof.
  unfold transcribe_rest, STT.now, STT.getitem, STT.strip_method,
    STT.TranscriptionResponse_init.
  repeat sound_step.
Qed.

Lemma sound_rest_guarded start model :
  sound (http_in [500]) body_event same_globals
    (try_except (transcribe_rest cfg env audio start model) STT.transcribe_except).
Proof.
  apply sound_try_except with (P' := status_in []); [eauto with sound| |].
  - apply sound_transcribe_rest.
  - intros [c d|m] He; simpl in *; [by apply elem_of_nil in He|].
    apply sound_raise; [eauto with sound|]. simpl. by left.
Qed.

(** With a model in hand there is nothing to wait for. *)
Lemma halts_rest_guarded start model :
  halts (try_except (transcribe_rest cfg env audio start model) STT.transcribe_except).
Proof.
  unfold transcribe_rest, choose_audio_path, remove_temp_files,
    STT.convert_audio_format, STT.now, STT.getitem, STT.strip_method,
    STT.TranscriptionResponse_init, STT.transcribe_except.
  repeat halts_step.
Qed.

(** The guarded body when the model is cached. *)
Lemma transcribe_guarded_cached start w m :
  STT.whisper_model (globals w) = Some m ->
  try_except (STT.transcribe_try cfg env audio start) STT.transcribe_except w =
    if oversized cfg audio
    then Run w [] (Raise (HTTPException 413 (lit "Audio file too medium")))
    else try_except (transcribe_rest cfg env audio start m) STT.transcribe_except w.
Proof.
  intros Hm. rewrite transcribe_try_steps.
  destruct (oversized cfg audio); [done|]. cbv iota.
  match goal with
  | |- try_except ?body _ _ = _ =>
      assert (body w = transcribe_rest cfg env audio start m w) as Heq
  end.
  { unfold bind at 1. cbn [ret]. unfold bind at 1.
    rewrite (StartFacts.load_whisper_model_cached cfg env w m Hm).
    by destruct (transcribe_rest cfg env audio start m w). }
  unfold try_except. by rewrite Heq.
Qed.

(** The guarded body when nothing is cached and no load is running. *)
Lemma transcribe_guarded_idle start w :
  STT.whisper_model (globals w) = None ->
  STT.model_loading (globals w) = false ->
  try_except (STT.transcribe_try cfg env audio start) STT.transcribe_except w =
    if oversized cfg audio
    then Run w [] (Raise (HTTPException 413 (lit "Audio file too medium")))
    else
      let ev := EvLoadModel (lit "medium") (STT.get_device cfg env) in
      let c := STT.current_requests (globals w) in
      match STT.whisper_load_model env (lit "medium") (STT.get_device cfg env) (os w)
      with
      | (o, Success m) =>
          let r' := try_except (transcribe_rest cfg env audio start m)
                      STT.transcribe_except
                      (World (STT.MkGlobals (Some m) false c) o) in
          Run (final r') (ev :: trace r') (outcome r')
      | (o, Failure msg) =>
          Run (World (STT.MkGlobals None false c) o) [ev]
            (Raise (HTTPException 500 (lit "Transcription failed: " ++ msg)))
      end.
Proof.
  intros Hnone Hidle. rewrite transcribe_try_steps.
  destruct (oversized cfg audio); [done|]. cbv iota zeta.
  unfold try_except. unfold bind at 1. cbn [ret]. unfold bind at 1.
  rewrite (StartFacts.load_whisper_model_first_run cfg env w Hnone Hidle).
  cbv zeta.
  destruct (STT.whisper_load_model env _ _ (os w)) as [o [m|msg]]; [|done].
  destruct (transcribe_rest cfg env audio start m _) as [w' t' [a|e|]];
    [done| |done].
  by destruct (STT.transcribe_except e w').
Qed.

End Rest.

(** Name the run of the guarded rest of the request. *)
Ltac name_rest r :=
  match goal with
  | |- context [try_except (transcribe_rest ?c ?e ?a ?s ?m) ?h ?w0] =>
      set (r := try_except (transcribe_rest c e a s m) h w0) in *
  end.

(** X4.  Whatever goes wrong, [transcribe_audio] raises nothing but an
    [HTTPException] with status 429, 413, 503 or 500.  The 503 is only
    possible for a request that arrived with no model cached and a load in
    progress (it waited, and that load failed): a request that has to load
    the model itself answers 500 when the loader raises.  The same goes
    for a request that never gets an answer: it is one that arrived while
    a load was in progress. *)
Theorem transcribe_error_statuses (cfg : STT.Config) (env : STT.Env)
    (audio : STT.UploadFile) (w : world STT.Globals) :
  let r := STT.transcribe_audio cfg env audio w in
  (∀ e, outcome r = Raise e -> http_in [429; 413; 503; 500] e)
  ∧ (raised_http 503 r ∨ outcome r = Hang ->
     STT.whisper_model (globals w) = None ∧ STT.model_loading (globals w) = true).
Proof.
  cbv zeta. rewrite STTFacts.transcribe_audio_run.
  destruct (_ <=? _) eqn:Hgate.
  { split; [intros e [= <-]; simpl; by left | intros [[d [=]]|[=]]]. }
  cbv zeta. split.
  - pose proof (STTFacts.transcribe_guarded_raises cfg env audio (clock (os w))
                  (bump 1 w)) as Hr.
    intros e.
    destruct (outcome (try_except _ _ _)) as [a|e'|] eqn:E; simpl; try done.
    intros [= <-]. destruct (Hr _ eq_refl) as [H|[_ H]]; destruct e' as [c d|]; simpl in *;
      try done; rewrite !elem_of_cons, elem_of_nil in *; lia.
  - intros Hbad.
    assert (∀ m w0,
              let r' := try_except (transcribe_rest cfg env audio (clock (os w)) m)
                          STT.transcribe_except w0 in
              outcome r' ≠ Hang ∧ ∀ d, outcome r' ≠ Raise (HTTPException 503 d))
      as Hrest.
    { intros m w0. cbv zeta. split; [apply halts_rest_guarded|].
      intros d Hd.
      destruct (sound_rest_guarded cfg env audio (clock (os w)) m) as (He & _ & _).
      specialize (He w0 _ Hd). simpl in He.
      rewrite !elem_of_cons, elem_of_nil in He. lia. }
    destruct (STT.whisper_model (globals w)) as [m|] eqn:Hm.
    + exfalso. revert Hbad.
      rewrite (transcribe_guarded_cached cfg env audio _ (bump 1 w) m) by done.
      destruct (oversized cfg audio); [by intros [[d [=]]|[=]]|].
      destruct (Hrest m (bump 1 w)) as [Hh H503]. name_rest r'.
      destruct (outcome r') as [a|e'|]; simpl; [by intros [[d [=]]|[=]] | | done].
      intros [[d [= ->]]|[=]]. by apply (H503 d).
    + split; [done|]. destruct (STT.model_loading (globals w)) eqn:Hl; [done|].
      exfalso. revert Hbad.
      rewrite (transcribe_guarded_idle cfg env audio _ (bump 1 w)) by done.
      destruct (oversized cfg audio); [by intros [[d [=]]|[=]]|]. cbv zeta.
      destruct (STT.whisper_load_model env _ _ _) as [o [m|msg]];
        [|by intros [[d [=]]|[=]]].
      cbn [outcome]. name_rest r'.
      match goal with
      | r0 := try_except _ _ ?w0 |- _ => destruct (Hrest m w0) as [Hh' H503']
      end.
      fold r' in Hh', H503'.
      destruct (outcome r') as [a|e'|]; simpl; [by intros [[d [=]]|[=]] | | done].
      intros [[d [= ->]]|[=]]. by apply (H503' d).
Qed.



Section Paths.
Context (cfg : STT.Config) (env : STT.Env) (audio : STT.UploadFile).

Local Abbreviation input := (temp_input_path cfg env audio).
Local Abbreviation output := (temp_output_path cfg env).

(** The conversion step always hands over a path: the upload or its
    converted copy. *)
Lemma choose_audio_path_value w a :
  outcome (choose_audio_path cfg env audio w) = Ok a -> a = input ∨ a = output.
Proof.
  unfold choose_audio_path. rewrite try_except_run.
  destruct (STT.filename audio) as [name|]; [|simpl; intros [= <-]; by left].
  destruct (negb _); [|simpl; intros [= <-]; by left].
  rewrite bind_run.
  destruct (outcome (STT.convert_audio_format env _ _ _ w)) as [[]|e|];
    simpl; intros [= <-]; auto.
Qed.

Lemma choose_audio_path_events w :
  Forall is_conversion (trace (choose_audio_path cfg env audio w)).
Proof.
  assert (sound (λ _, True) is_conversion (λ _ _ : world STT.Globals, True)
            (choose_audio_path cfg env audio)) as (_ & He & _); [|apply He].
  unfold choose_audio_path, STT.convert_audio_format. repeat sound_step.
Qed.

(** An upload that needs no conversion is handed over as it is. *)
Lemma choose_audio_path_keeps w :
  keeps_format env audio ->
  choose_audio_path cfg env audio w = Run w [] (Ok input).
Proof.
  unfold keeps_format, choose_audio_path, try_except.
  destruct (STT.filename audio) as [name|]; [|done]. by intros ->.
Qed.

Section Events.
Context (paths : list pystr) (conv : Prop).
Hypothesis choose_events :
  ∀ w, Forall (request_event paths conv) (trace (choose_audio_path cfg env audio w)).
Hypothesis choose_paths :
  ∀ w a, outcome (choose_audio_path cfg env audio w) = Ok a -> a ∈ paths.

Local Abbreviation Q := (request_event paths conv).
Local Abbreviation R := (λ _ _ : world STT.Globals, True).

Lemma sound_choose_events : sound (λ _, True) Q R (choose_audio_path cfg env audio).
Proof. split_and!; [done | exact choose_events | done]. Qed.

Lemma sound_rest_events start model :
  sound (λ _, True) Q R (transcribe_rest cfg env audio start model).
Proof.
  unfold transcribe_rest.
  sound_step; [repeat sound_step|]. sound_step; [repeat sound_step|].
  apply sound_bind_ok; [done | apply sound_choose_events |]. intros p w Ha.
  apply choose_paths in Ha.
  unfold remove_temp_files, STT.now, STT.getitem, STT.strip_method,
    STT.TranscriptionResponse_init.
  repeat sound_step.
Qed.

Lemma sound_spin_events n : sound (λ _, True) Q R (STT.spin_wait env n).
Proof. induction n as [|n IH]; simpl; repeat sound_step. Qed.

Hint Resolve sound_rest_events sound_spin_events : sound.

Lemma events_transcribe_audio w :
  Forall Q (trace (STT.transcribe_audio cfg env audio w)).
Proof.
  assert (sound (λ _, True) Q R (STT.transcribe_audio cfg env audio))
    as (_ & He & _); [|apply He].
  unfold STT.transcribe_audio, STT.add_current_requests, STT.now.
  repeat sound_step.
  - rewrite transcribe_try_steps.
    unfold STT.load_whisper_model, STT.set_model_loading, STT.set_whisper_model.
    repeat sound_step. apply sound_rest_events.
  - unfold STT.transcribe_except. repeat sound_step.
Qed.

End Events.

End Paths.

Section Removal.
Context (cfg : STT.Config) (env : STT.Env) (audio : STT.UploadFile).

Local Abbreviation input := (temp_input_path cfg env audio).
Local Abbreviation output := (temp_output_path cfg env).

(** [if os.path.exists(p): os.remove(p)] *)
Lemma remove_if_exists_run p (w : world STT.Globals) :
  let r := (if path_exists p (os w) then call (remove p) else ret tt) w in
  trace r = [] ∧ globals (final r) = globals w
  ∧ isfile p (os (final r)) = false
  ∧ (∀ q, files (os w) !! q = None -> files (os (final r)) !! q = None)
  ∧ (outcome r = Ok tt ∧ files (os (final r)) !! p = None
     ∨ (∃ e, outcome r = Raise e) ∧ final r = w ∧ path_exists p (os w) = true).
Proof.
  destruct w as [g o]. unfold path_exists, isfile. cbn [os].
  destruct (files o !! p) as [nd|] eqn:Hp.
  - rewrite (bool_decide_eq_true_2 _ (mk_is_Some _ _ eq_refl)).
    unfold call, remove. cbn [os globals]. rewrite Hp.
    destruct (n_kind nd) eqn:Hk; cbn.
    + rewrite lookup_delete_eq. split_and!; try done; [|by left].
      intros q Hq. destruct (decide (p = q)) as [->|Hne];
        [apply lookup_delete_eq | by rewrite lookup_delete_ne].
    + rewrite Hp, Hk. split_and!; try done. right. split_and!; [by eexists|done..].
    + rewrite lookup_delete_eq. split_and!; try done; [|by left].
      intros q Hq. destruct (decide (p = q)) as [->|Hne];
        [apply lookup_delete_eq | by rewrite lookup_delete_ne].
  - rewrite bool_decide_eq_false_2 by (by intros [? ?]).
    cbn. rewrite Hp. split_and!; try done. by left.
Qed.

(** The immediate removal never fails and never leaves the upload
    behind as a file; the converted copy can only stay behind as a file
    when the removal of the upload raised. *)
Lemma remove_temp_files_run w :
  let r := remove_temp_files cfg env audio w in
  outcome r = Ok tt ∧ trace r = [] ∧ globals (final r) = globals w
  ∧ isfile input (os (final r)) = false
  ∧ (isfile output (os (final r)) = true -> path_exists input (os (final r)) = true).
Proof.
  unfold remove_temp_files. cbv zeta.
  rewrite try_except_run, bind_run. cbn [get_os outcome final trace].
  rewrite bind_run.
  destruct (remove_if_exists_run input w) as (Ht1 & Hg1 & Hf1 & Hm1 & Hc1).
  cbv zeta in *.
  set (r1 := (if path_exists input (os w) then call (remove input) else ret tt) w) in *.
  destruct Hc1 as [[Ho1 Hn1]|[[e He] [Hw Hex]]].
  - rewrite Ho1. cbn [outcome final trace]. rewrite bind_run.
    cbn [get_os outcome final trace].
    destruct (remove_if_exists_run output (final r1)) as (Ht2 & Hg2 & Hf2 & Hm2 & Hc2).
    cbv zeta in *.
    set (r2 := (if path_exists output (os (final r1)) then call (remove output)
                else ret tt) (final r1)) in *.
    assert (isfile input (os (final r2)) = false) as Hin.
    { unfold isfile. by rewrite (Hm2 input Hn1). }
    destruct Hc2 as [[Ho2 Hn2]|[[e He] [Hw Hex]]].
    + rewrite Ho2. cbn. rewrite Ht1, Ht2, Hg2, Hg1, Hin, Hf2. by split_and!.
    + rewrite He. cbn. rewrite Ht1, Ht2, Hg2, Hg1, Hin, Hf2. by split_and!.
  - rewrite He. cbn. rewrite Ht1, Hg1, Hf1, Hw, Hex. by split_and!.
Qed.

(** A request that holds a model and succeeds has called the model,
    scheduled the clean-up task and removed its upload. *)
Lemma transcribe_rest_ok start model w resp :
  let r := transcribe_rest cfg env audio start model w in
  outcome r = Ok resp ->
  globals (final r) = globals w
  ∧ isfile input (os (final r)) = false
  ∧ (isfile output (os (final r)) = true -> path_exists input (os (final r)) = true)
  ∧ EvAddTask (lit "cleanup_temp_files") ∈ trace r
  ∧ ∃ p, EvTranscribe p ∈ trace r.
Proof.
  cbv zeta. intros Hok.
  destruct (sound_transcribe_rest cfg env audio start model) as (_ & _ & Hg).
  split; [apply Hg|]. clear Hg.
  unfold transcribe_rest in *.
  apply bind_ok_inv in Hok as ([] & _ & Hok & -> & ->).
  apply bind_ok_inv in Hok as ([] & _ & Hok & -> & ->).
  apply bind_ok_inv in Hok as (p & _ & Hok & -> & ->).
  apply bind_ok_inv in Hok as (result & Hcall & Hok & -> & ->).
  apply bind_ok_inv in Hok as (finished & _ & Hok & -> & ->).
  apply bind_ok_inv in Hok as ([] & _ & Hok & -> & ->).
  apply bind_ok_inv in Hok as ([] & _ & Hok & -> & ->).
  match type of Hok with
  | context [remove_temp_files cfg env audio ?w0] =>
      destruct (remove_temp_files_run w0) as (_ & _ & _ & Hin & Hout);
      set (w1 := final (remove_temp_files cfg env audio w0)) in *
  end.
  assert (∀ r : run STT.Globals STT.TranscriptionResponse,
            outcome r = Ok resp -> final r = w1 ->
            isfile input (os (final r)) = false
            ∧ (isfile output (os (final r)) = true
               -> path_exists input (os (final r)) = true)) as Hfin.
  { intros r _ ->. by split. }
  assert (final ((text <- STT.getitem result (lit "text") ;;
                  stripped <- STT.strip_method text ;;
                  STT.TranscriptionResponse_init env stripped
                    (dict_get result (lit "language") (VStr (lit "unknown")))
                    (dict_get result (lit "duration") (VNum 0))
                    (finished - start)%Q) w1) = w1) as Hpure.
  { unfold STT.getitem, STT.strip_method, STT.TranscriptionResponse_init, bind.
    destruct (result !! lit "text") as [[|txt|]|]; try done. simpl.
    destruct (dict_get result (lit "language") _) as [|l|q]; simpl; try done.
    by destruct (STT.as_float env _). }
  destruct (Hfin _ Hok Hpure) as [H1 H2]. split_and!; [exact H1 | exact H2 | |].
  - rewrite !elem_of_app. do 5 right. left.
    apply list_elem_of_singleton. reflexivity.
  - exists p. rewrite !elem_of_app. right. right. right. left.
    unfold extern, bind, log, call. simpl.
    destruct (STT.transcribe model p _) as [o' [d|msg]]; simpl; by left.
Qed.

End Removal.

(** What [load_whisper_model] returns is what it leaves cached. *)
Lemma load_returns_cached cfg env w loaded :
  outcome (STT.load_whisper_model cfg env w) = Ok loaded ->
  STT.whisper_model (globals (final (STT.load_whisper_model cfg env w))) = loaded.
Proof.
  destruct (STT.whisper_model (globals w)) as [m|] eqn:Hm.
  { rewrite (StartFacts.load_whisper_model_cached cfg env w m Hm). simpl.
    by intros [= <-]. }
  destruct (STT.model_loading (globals w)) eqn:Hl.
  - rewrite (LoadFacts.load_whisper_model_waiting cfg env w Hm Hl).
    destruct (STT.spin_wait env _ w) as [w' t [[]|e|]]; simpl; [|done..].
    by intros [= <-].
  - rewrite (StartFacts.load_whisper_model_first_run cfg env w Hm Hl). cbv zeta.
    destruct (STT.whisper_load_model env _ _ (os w)) as [o [m|msg]]; simpl; [|done].
    by intros [= <-].
Qed.

(** X6.  The model is never asked to transcribe anything but the saved
    upload [TEMP_AUDIO_DIR/input_<uuid>_<filename>] or its converted copy
    [TEMP_AUDIO_DIR/converted_<uuid>.wav].  For an upload whose name ends
    in [.wav] (whatever its case), and for one without a name, no
    conversion is attempted (neither ffmpeg nor librosa is called) and the
    model is only ever handed the upload itself. *)
Theorem transcribed_path (cfg : STT.Config) (env : STT.Env)
    (audio : STT.UploadFile) (w : world STT.Globals) :
  let r := STT.transcribe_audio cfg env audio w in
  let input := temp_input_path cfg env audio in
  let output := temp_output_path cfg env in
  Forall (request_event [input; output] True) (trace r)
  ∧ (keeps_format env audio -> Forall (request_event [input] False) (trace r)).
Proof.
  cbv zeta. split.
  - apply events_transcribe_audio.
    + intros w0. eapply Forall_impl; [apply choose_audio_path_events|]. by intros [].
    + intros w0 a [->| ->]%choose_audio_path_value; rewrite !elem_of_cons; auto.
  - intros Hkeep. apply events_transcribe_audio.
    + intros w0. rewrite choose_audio_path_keeps by done. constructor.
    + intros w0 a. rewrite choose_audio_path_keeps by done.
      intros [= <-]. by left.
Qed.

(** A [.WAV] upload is transcribed as it is. *)
Lemma transcribed_path_witness :
  Forall (request_event [lit "./temp/input_1b4e28ba_Take1.WAV"] False)
    (trace (STT.transcribe_audio STT.default_config stt_env wav_upload stt_loaded)).
Proof.
  destruct (transcribed_path STT.default_config stt_env wav_upload stt_loaded)
    as [_ H].
  apply H. reflexivity.
Defined.

(** X7.  A request that is answered with a transcription has called the
    model, has scheduled the clean-up task, and has removed its upload:
    the path it was saved at is not a file any more when the handler
    returns.  Its converted copy is not a file any more either, unless the
    removal of the upload raised (its path had become a directory), which
    skips the second removal.  The model is cached afterwards. *)
Theorem success_removes_upload (cfg : STT.Config) (env : STT.Env)
    (audio : STT.UploadFile) (w : world STT.Globals)
    (resp : STT.TranscriptionResponse) :
  let r := STT.transcribe_audio cfg env audio w in
  let input := temp_input_path cfg env audio in
  let output := temp_output_path cfg env in
  outcome r = Ok resp ->
  isfile input (os (final r)) = false
  ∧ (isfile output (os (final r)) = true -> path_exists input (os (final r)) = true)
  ∧ EvAddTask (lit "cleanup_temp_files") ∈ trace r
  ∧ (∃ p, EvTranscribe p ∈ trace r)
  ∧ is_Some (STT.whisper_model (globals (final r))).
Proof.
  cbv zeta. rewrite STTFacts.transcribe_audio_run.
  destruct (_ <=? _); [done|]. cbv zeta.
  destruct (outcome (try_except _ _ _)) as [a|e|] eqn:Hok; cbn [outcome]; [|done..].
  intros [= ->]. cbn [final trace].
  match type of Hok with
  | outcome (try_except ?m ?h ?w0) = _ =>
      assert (∀ e w', outcome (h e w') ≠ Ok resp) as Hraise
        by (by intros [c d|msg] w');
      rewrite (try_except_ok_run m h w0 resp Hraise Hok);
      apply (try_except_ok m h w0 resp Hraise) in Hok
  end.
  rewrite transcribe_try_steps in *.
  apply bind_ok_inv in Hok as ([] & Hsize & Hok & -> & ->).
  apply bind_ok_inv in Hok as (loaded & Hload & Hok & -> & ->).
  apply load_returns_cached in Hload as Hcached.
  destruct loaded as [model|]; [|done].
  destruct (transcribe_rest_ok cfg env audio _ model _ resp Hok)
    as (Hg & Hin & Hout & Htask & p & Hp).
  split_and!.
  - exact Hin.
  - exact Hout.
  - apply elem_of_cons. right. rewrite !elem_of_app. left. right. by right.
  - exists p. apply elem_of_cons. right. rewrite !elem_of_app. left. right. by right.
  - unfold bump at 1. cbn [globals STT.whisper_model]. rewrite Hg, Hcached. by eexists.
Qed.

(** The sample upload, transcribed by the sample model. *)
Lemma success_removes_upload_witness :
  let r := STT.transcribe_audio STT.default_config stt_env upload stt_loaded in
  isfile (temp_input_path STT.default_config stt_env upload) (os (final r)) = false
  ∧ EvAddTask (lit "cleanup_temp_files") ∈ trace r.
Proof.
  destruct (success_removes_upload STT.default_config stt_env upload stt_loaded
              (Samples2.sample_response) ltac:(vm_compute; reflexivity))
    as (Hin & _ & Htask & _).
  split; [exact Hin | exact Htask].
Defined.

(** A file that could be opened can be written. *)
Lemma write_after_open p data o :
  (open_wb p o).2 = Success tt ->
  write p data (open_wb p o).1 = ((write p data (open_wb p o).1).1, Success tt).
Proof.
  unfold open_wb, write.
  destruct (files o !! p) as [nd|] eqn:Hp.
  - destruct (n_kind nd); simpl; try done; by rewrite lookup_insert_eq.
  - destruct (create_error p o); simpl; [done|]. by rewrite lookup_insert_eq.
Qed.



Section Choice.
Context (cfg : STT.Config) (env : STT.Env) (audio : STT.UploadFile).

Local Abbreviation input := (temp_input_path cfg env audio).
Local Abbreviation output := (temp_output_path cfg env).

(** Saving, choosing the path, and the rest. *)
Lemma transcribe_rest_steps start model :
  transcribe_rest cfg env audio start model =
    (call (open_wb input) ;;;
     call (write input (STT.content audio)) ;;;
     audio_path <- choose_audio_path cfg env audio ;;
     transcribe_with cfg env audio start model audio_path).
Proof. reflexivity. Qed.

Lemma convert_outcome i o sr w :
  outcome (STT.convert_audio_format env i o sr w)
  = Ok (ffmpeg_ok env i o sr w || librosa_ok env i o sr w).
Proof.
  unfold STT.convert_audio_format, ffmpeg_ok, librosa_ok, try_except, extern, bind,
    call, log, ret; simpl.
  destruct (STT.ffmpeg_run env i o sr (os w)) as [o1 [[]|msg]]; simpl; [done|].
  destruct (STT.librosa_load env i sr o1) as [o2 [samples|msg2]]; simpl; [|done].
  by destruct (STT.sf_write env o samples sr o2) as [o3 [[]|msg3]].
Qed.

(** The converted copy is chosen exactly when a conversion was needed
    and one of the two converters succeeded. *)
Lemma choose_audio_path_outcome w :
  outcome (choose_audio_path cfg env audio w)
  = Ok (if needs_conversion env audio
           && (ffmpeg_ok env input output 16000 w
               || librosa_ok env input output 16000 w)
        then output else input).
Proof.
  unfold choose_audio_path, needs_conversion. rewrite try_except_run.
  destruct (STT.filename audio) as [name|]; [|done].
  destruct (negb _); [|done].
  rewrite bind_run, convert_outcome. cbn.
  by destruct (ffmpeg_ok _ _ _ _ _ || _).
Qed.

Lemma choose_audio_path_quiet w :
  Forall not_transcribe (trace (choose_audio_path cfg env audio w)).
Proof.
  eapply Forall_impl; [apply choose_audio_path_events|]. by intros [].
Qed.

(** Once the path is settled the model is called on it, once. *)
Lemma transcribe_with_trace start model p w :
  ∃ t, trace (transcribe_with cfg env audio start model p w) = EvTranscribe p :: t
       ∧ Forall not_transcribe t.
Proof.
  unfold transcribe_with. rewrite bind_run.
  assert (trace (extern (EvTranscribe p) (STT.transcribe model p) w)
          = [EvTranscribe p]) as Hcall.
  { unfold extern, bind, log, call. simpl.
    by destruct (STT.transcribe model p (os w)) as [o [a|msg]]. }
  destruct (outcome (extern _ _ w)) as [result|e|]; cbn [trace]; rewrite Hcall;
    [|by exists []..].
  eexists. split; [reflexivity|]. cbv beta.
  match goal with
  | |- Forall _ (trace (?k ?w0)) =>
      assert (sound (λ _, True) not_transcribe (λ _ _ : world STT.Globals, True) k)
        as (_ & He & _); [|apply He]
  end.
  unfold remove_temp_files, STT.now, STT.getitem, STT.strip_method,
    STT.TranscriptionResponse_init.
  repeat sound_step.
Qed.

(** The one path a request that holds a model transcribes, if it gets
    to save its upload. *)
Lemma rest_transcribes start model g o q :
  let saved := World g (saved_upload cfg env audio o) in
  EvTranscribe q ∈ trace (transcribe_rest cfg env audio start model (World g o))
  ↔ upload_opens cfg env audio o = true
    ∧ q = if needs_conversion env audio
               && (ffmpeg_ok env input output 16000 saved
                   || librosa_ok env input output 16000 saved)
          then output else input.
Proof.
  intros saved. subst saved. unfold upload_opens, saved_upload.
  rewrite transcribe_rest_steps.
  pose proof (write_after_open input (STT.content audio) o) as Hwrite.
  destruct (open_wb input o) as [o1 [[]|msg]] eqn:Hopen; cbn [fst snd] in *.
  2:{ rewrite (bind_of_raise _ _ _ _ _ _ (call_raise_run _ g _ _ msg Hopen)).
      cbn [trace]. split; [by intros ?%elem_of_nil | by intros [? _]]. }
  specialize (Hwrite eq_refl).
  rewrite (bind_of_ok _ _ _ _ _ _ (call_ok_run _ g _ _ tt Hopen)). cbn [trace].
  rewrite (bind_of_ok _ _ _ _ _ _ (call_ok_run _ g _ _ tt Hwrite)). cbn [trace].
  set (saved := World g (write input (STT.content audio) o1).1).
  rewrite bind_run, choose_audio_path_outcome. cbn [trace].
  pose proof (choose_audio_path_quiet saved) as Hquiet.
  set (p := if needs_conversion env audio && _ then output else input).
  destruct (transcribe_with_trace start model p
              (final (choose_audio_path cfg env audio saved))) as (t & -> & Ht).
  rewrite !app_nil_l, elem_of_app, elem_of_cons.
  rewrite Forall_forall in Hquiet, Ht. split.
  - intros [Hin|[[= ->]|Hin]]; [by apply Hquiet in Hin | done | by apply Ht in Hin].
  - intros [_ ->]. right. by left.
Qed.

End Choice.

(** X9.  A request that holds the model and has passed gate and size
    test calls the model if and only if the file for its upload could be
    opened (it cannot when the upload's name points into a directory that
    does not exist), and then on exactly one path: on the converted copy
    when the upload needed a conversion (its name does not end in [.wav])
    and ffmpeg or the librosa fallback succeeded in converting the saved
    upload; on the upload as saved in every other case (no conversion
    needed, no file name, both converters failed). *)
Theorem converted_copy_is_used (cfg : STT.Config) (env : STT.Env)
    (audio : STT.UploadFile) (w : world STT.Globals) (m : STT.WhisperModel) :
  let input := temp_input_path cfg env audio in
  let output := temp_output_path cfg env in
  STT.whisper_model (globals w) = Some m ->
  STT.current_requests (globals w) < STT.MAX_CONCURRENT_REQUESTS cfg ->
  oversized cfg audio = false ->
  let saved := World (globals w) (saved_upload cfg env audio (os w)) in
  let converted :=
    needs_conversion env audio
    && (ffmpeg_ok env input output 16000 saved
        || librosa_ok env input output 16000 saved) in
  let r := STT.transcribe_audio cfg env audio w in
  ∀ p, EvTranscribe p ∈ trace r
       ↔ upload_opens cfg env audio (os w) = true
         ∧ p = if converted then output else input.
Proof.
  intros input output Hm Hgate Hsize saved converted r p. subst r.
  rewrite STTFacts.transcribe_audio_run. apply Z.leb_gt in Hgate. rewrite Hgate.
  rewrite (transcribe_guarded_cached cfg env audio _ (bump 1 w) m) by done.
  rewrite Hsize. cbv zeta. name_rest r'.
  assert (trace r' = trace (transcribe_rest cfg env audio (clock (os w)) m (bump 1 w)))
    as Htrace.
  { subst r'. rewrite try_except_run.
    destruct (outcome (transcribe_rest _ _ _ _ _ _)) as [a|[c d|msg]|]; try done;
      cbn; by rewrite app_nil_r. }
  pose proof (rest_transcribes cfg env audio (clock (os w)) m
                (globals (bump 1 w)) (os w) p) as Hp.
  cbv zeta in Hp. fold input output in Hp.
  change (World (globals (bump 1 w)) (os w)) with (bump 1 w) in Hp.
  rewrite <- Htrace in Hp. unfold converted, saved, ffmpeg_ok, librosa_ok.
  unfold ffmpeg_ok, librosa_ok in Hp. cbn [os] in Hp |- *. rewrite <- Hp.
  assert (∀ d t, EvTranscribe p ∈ EvCounter d :: t ↔ EvTranscribe p ∈ t) as Hskip.
  { intros d t. rewrite elem_of_cons. split; [by intros [?|?] | by right]. }
  destruct (outcome r') as [a|e|]; cbn [trace]; rewrite Hskip; try done;
    rewrite elem_of_app, Hskip, elem_of_nil; split; [by intros [?|?] | by left
                                                    | by intros [?|?] | by left].
Qed.

(** An [.mp3] upload: ffmpeg is missing, the librosa fallback converts
    it, and the model gets the converted copy.  An upload named
    [a/b.wav]: there is no directory [input_<uuid>_a] to put it in, and the
    model is not called. *)
Lemma converted_copy_is_used_witness :
  EvTranscribe (lit "./temp/converted_1b4e28ba.wav")
    ∈ trace (STT.transcribe_audio STT.default_config stt_env upload stt_loaded)
  ∧ ∀ p, EvTranscribe p
           ∉ trace (STT.transcribe_audio STT.default_config stt_env nested_upload
                      stt_loaded).
Proof.
  split.
  - apply (converted_copy_is_used STT.default_config stt_env upload stt_loaded whisper
             eq_refl eq_refl eq_refl).
    split; reflexivity.
  - intros p Hp.
    apply (converted_copy_is_used STT.default_config stt_env nested_upload stt_loaded
             whisper eq_refl eq_refl eq_refl) in Hp as [Hopens _].
    vm_compute in Hopens. discriminate Hopens.
Defined.

(** C6.  A successful [/transcribe] response carries the four fields of
    [TranscriptionResponse], built from what the call of the model in this
    very request returned: the model is the one [load_whisper_model] handed
    over, it was called on the path the conversion step settled on for the
    saved upload, on the file system as that step left it, and
    [transcription] is the stripped ['text'] of its result, [language] the
    result's ['language'] or ['unknown'] when the key is absent, [duration]
    the result's ['duration'] as a float or 0 when absent, and
    [processing_time] the time from the start of the handling to the
    return of the model. *)
Theorem transcription_response (cfg : STT.Config) (env : STT.Env)
    (audio : STT.UploadFile) (w : world STT.Globals)
    (resp : STT.TranscriptionResponse) :
  let r := STT.transcribe_audio cfg env audio w in
  let loaded := STT.load_whisper_model cfg env (bump 1 w) in
  let saved :=
    World (globals (final loaded)) (saved_upload cfg env audio (os (final loaded))) in
  let chosen := choose_audio_path cfg env audio saved in
  outcome r = Ok resp ->
  ∃ (model : STT.WhisperModel) (audio_path : pystr) (result : dict),
    let called := STT.transcribe model audio_path (os (final chosen)) in
    outcome loaded = Ok (Some model)
    ∧ outcome chosen = Ok audio_path
    ∧ EvTranscribe audio_path ∈ trace r
    ∧ called.2 = Success result
    ∧ fields_from_result env result resp
    ∧ STT.processing_time resp = (clock called.1 - clock (os w))%Q.
Proof.
  cbv zeta. rewrite STTFacts.transcribe_audio_run.
  destruct (_ <=? _); [done|]. cbv zeta.
  destruct (outcome (try_except _ _ _)) as [a|e|] eqn:Hok; cbn [outcome]; [|done..].
  intros [= ->]. cbn [trace].
  match type of Hok with
  | outcome (try_except ?m ?h ?w0) = _ =>
      assert (∀ e w', outcome (h e w') ≠ Ok resp) as Hraise
        by (by intros [c d|msg] w');
      rewrite (try_except_ok_run m h w0 resp Hraise Hok);
      apply (try_except_ok m h w0 resp Hraise) in Hok
  end.
  rewrite transcribe_try_steps in *.
  apply bind_ok_inv in Hok as ([] & Hsize & Hok & _ & ->).
  destruct (oversized cfg audio); [done|].
  change (final (ret tt (bump 1 w))) with (bump 1 w) in *.
  apply bind_ok_inv in Hok as (loaded & Hload & Hok & _ & ->).
  destruct loaded as [model|]; [|done].
  rewrite transcribe_rest_steps in *.
  apply bind_ok_inv in Hok as ([] & _ & Hok & _ & ->).
  apply bind_ok_inv in Hok as ([] & _ & Hok & _ & ->).
  rewrite !call_final in *. cbn [globals os] in *.
  fold (saved_upload cfg env audio
          (os (final (STT.load_whisper_model cfg env (bump 1 w))))) in *.
  apply bind_ok_inv in Hok as (audio_path & Hchoose & Hok & _ & ->).
  unfold transcribe_with in *.
  apply bind_ok_inv in Hok as (result & Hres & Hok & _ & ->).
  rewrite extern_final, extern_trace in *. cbn [globals os] in *.
  apply extern_ok in Hres.
  apply bind_ok_inv in Hok as (finished & Hnow & Hok & _ & _).
  injection Hnow as <-.
  change (final (STT.now ?w0)) with w0 in Hok.
  apply bind_ok in Hok as ([] & _ & Hok).
  apply bind_ok in Hok as ([] & _ & Hok).
  apply bind_ok in Hok as (text & Htext & Hok).
  apply bind_ok in Hok as (stripped & Hstrip & Hok).
  unfold STT.getitem in Htext. unfold STT.strip_method in Hstrip.
  unfold STT.TranscriptionResponse_init, dict_get in Hok.
  destruct (result !! lit "text") as [v|] eqn:Hv; [|done].
  injection Htext as ->. destruct text as [|txt|]; try done.
  injection Hstrip as <-.
  exists model, audio_path, result. cbv zeta.
  split_and!; [done | done | | exact Hres | | ].
  - apply elem_of_cons. right. rewrite !elem_of_app. left. do 5 right. left.
    by left.
  - exists txt. rewrite Hv.
    destruct (result !! lit "language") as [[]|], (result !! lit "duration") as [d|];
      simpl in Hok; try done;
      try (destruct (STT.as_float env d) eqn:Hd; [|done]);
      by injection Hok as <-.
  - destruct (result !! lit "language") as [[]|], (result !! lit "duration") as [d|];
      simpl in Hok; try done;
      try (destruct (STT.as_float env d) eqn:Hd; [|done]);
      by injection Hok as <-.
Qed.

(** A model that takes two seconds and gives its duration as the string
    ['1.5']: the response has duration 1.5, language ['unknown'] and a
    processing time of two seconds. *)
Lemma transcription_response_witness :
  outcome (STT.transcribe_audio STT.default_config stt_env wav_upload stt_timed)
  = Ok timed_response
  ∧ fields_from_result stt_env
      ({[ lit "text" := VStr (lit " hello world ");
          lit "duration" := VStr (lit "1.5") ]} : dict) timed_response.
Proof.
  assert (outcome (STT.transcribe_audio STT.default_config stt_env wav_upload stt_timed)
          = Ok timed_response) as Hok by (vm_compute; reflexivity).
  split; [exact Hok|].
  destruct (transcription_response STT.default_config stt_env wav_upload stt_timed _ Hok)
    as (model & audio_path & result & Hload & _ & _ & Hres & Hfields & _).
  injection Hload as <-. injection Hres as <-. exact Hfields.
Defined.

End RestFacts.

(* ===================================================================== *)
(** ** The clean-up tasks                                                *)
(* ===================================================================== *)

Module CleanFacts.
Import Py FileSystem Eff Props Samples Steps Samples2 EffFacts EvictFacts.

Section Clean.
Context {G : Type} (dir : pystr) (limit : Q).

Lemma evict_older_than_quiet (w : world G) :
  trace (evict_older_than dir limit w) = [].
Proof.
  assert (sound (λ _, True) (λ _, False) (λ _ _ : world G, True)
            (evict_older_than dir limit)) as (_ & He & _).
  { unfold evict_older_than, evict_entry. repeat sound_step. }
  specialize (He w). by destruct He.
Qed.

(** Without a directory name there is nothing to list. *)
Lemma evict_older_than_nowhere (w : world G) :
  dir = [] -> evict_older_than dir limit w = Run w [] (Ok tt).
Proof.
  intros ->. destruct w as [g o].
  unfold evict_older_than, try_except, bind, query, call, get_os, ret. done.
Qed.

Lemma evict_older_than_silent (w : world G) :
  silent w (evict_older_than dir limit w).
Proof.
  destruct (decide (dir = [])) as [Hd|Hd].
  - by rewrite evict_older_than_nowhere.
  - destruct (evict_older_than_run dir limit Hd w) as (Ho & Hg & _).
    split_and!; [done | apply evict_older_than_quiet | done].
Qed.

Lemma evict_older_than_frame (w : world G) :
  only_removes_from dir (os w) (os (final (evict_older_than dir limit w))).
Proof.
  destruct (decide (dir = [])) as [Hd|Hd].
  - rewrite evict_older_than_nowhere by done. split; [done|]. intros p. by left.
  - destruct (evict_older_than_run dir limit Hd w) as (_ & _ & Hc & Hf).
    split; [done|]. intros p. rewrite Hf. unfold isfile, expired.
    destruct (files (os w) !! p) as [nd|]; [|by left].
    case_bool_decide as Hchild; simpl; [|by left].
    case_bool_decide as Hk; simpl; [|by left].
    destruct (Qlt_bool _ _); [by right | by left].
Qed.

(** A second run at the same time finds nothing left to remove. *)
Lemma evict_older_than_again (w : world G) :
  let w1 := final (evict_older_than dir limit w) in
  evict_older_than dir limit w1 = Run w1 [] (Ok tt).
Proof.
  cbv zeta. destruct (decide (dir = [])) as [Hd|Hd].
  - by rewrite !evict_older_than_nowhere.
  - destruct (evict_older_than_run dir limit Hd w) as (_ & _ & Hc1 & Hf1).
    set (w1 := final (evict_older_than dir limit w)) in *.
    destruct (evict_older_than_run dir limit Hd w1) as (Ho & Hg & Hc & Hf).
    pose proof (evict_older_than_quiet w1) as Ht.
    destruct (evict_older_than dir limit w1) as [w2 t2 o2]. simpl in *.
    subst t2 o2. f_equal.
    destruct w2 as [g2 [f2 c2]], w1 as [g1 [f1 c1]]. simpl in *. subst g2 c2.
    do 2 f_equal. apply map_eq. intros p. rewrite Hf, Hf1. rewrite Hc1.
    destruct (files (os w) !! p) as [nd|]; [|done].
    destruct (bool_decide _ && expired limit (clock (os w)) nd) eqn:E; [done|].
    by rewrite E.
Qed.

End Clean.

(** X10.  The clean-up tasks of both services are safe to run at any
    time: they always return (every exception is caught), call no
    third-party code, schedule nothing, and write no global; in the file
    system they leave the clock and every entry alone except for regular
    files directly inside their own directory ([TEMP_AUDIO_DIR],
    [AUDIO_OUTPUT_DIR]), which they may remove: nothing is created or
    modified, and nothing outside the directory, no sub-directory and no
    entry below a sub-directory is removed. *)
Theorem cleanup_is_contained (scfg : STT.Config) (sw : world STT.Globals)
    (tcfg : TTS.Config) (tw : world TTS.Globals) :
  let rs := STT.cleanup_temp_files scfg sw in
  let rt := TTS.cleanup_old_files tcfg tw in
  silent sw rs
  ∧ only_removes_from (STT.TEMP_AUDIO_DIR scfg) (os sw) (os (final rs))
  ∧ silent tw rt
  ∧ only_removes_from (TTS.AUDIO_OUTPUT_DIR tcfg) (os tw) (os (final rt)).
Proof.
  cbv zeta. rewrite cleanup_temp_files_evict, cleanup_old_files_evict.
  split_and!; auto using evict_older_than_silent, evict_older_than_frame.
Qed.

(** X11.  Running a clean-up task again at the same time changes nothing:
    the first run has removed everything that was due. *)
Theorem cleanup_idempotent (scfg : STT.Config) (sw : world STT.Globals)
    (tcfg : TTS.Config) (tw : world TTS.Globals) :
  let sw1 := final (STT.cleanup_temp_files scfg sw) in
  let tw1 := final (TTS.cleanup_old_files tcfg tw) in
  STT.cleanup_temp_files scfg sw1 = Run sw1 [] (Ok tt)
  ∧ TTS.cleanup_old_files tcfg tw1 = Run tw1 [] (Ok tt).
Proof.
  cbv zeta. rewrite cleanup_temp_files_evict, cleanup_old_files_evict.
  split; apply evict_older_than_again.
Qed.

End CleanFacts.

(* ===================================================================== *)
(** ** The TTS service: loading, availability, synthesis, download       *)
(* ===================================================================== *)

Module SpeechFacts.
Import Py FileSystem Eff Props Samples Steps Samples2 EffFacts StepFacts HaltFacts
  RestFacts.

(** The whole run of a first load. *)
Lemma load_tts_model_first_run cfg env w :
  TTS.model_loaded (globals w) = false ->
  TTS.model_loading (globals w) = false ->
  TTS.load_tts_model cfg env w =
    let ev := EvLoadModel (TTS.TTS_MODEL_NAME cfg) (TTS.device cfg env) in
    let kept := TTS.MkGlobals (TTS.tts_model (globals w)) false false in
    if TTS.TTS_AVAILABLE env then
      match TTS.TTS_load env (TTS.TTS_MODEL_NAME cfg) (TTS.device cfg env) (os w) with
      | (o, Success m) =>
          Run (World (TTS.MkGlobals (Some m) false true) o) [ev] (Ok tt)
      | (o, Failure msg) => Run (World kept o) [ev] (Raise (Exception msg))
      end
    else Run (World kept (os w)) []
           (Raise (Exception (lit "TTS library not available"))).
Proof.
  intros Hloaded Hidle.
  unfold TTS.load_tts_model, try_finally, try_except, extern, call, log,
    TTS.set_model_loading, TTS.set_tts_model, TTS.set_model_loaded.
  unfold bind. simpl. rewrite Hloaded, Hidle. simpl.
  destruct (TTS.TTS_AVAILABLE env); simpl; rewrite ?Hloaded; [|done].
  destruct (TTS.TTS_load env _ _ (os w)) as [o [m|msg]]; simpl; by rewrite ?Hloaded.
Qed.

(** X12.  The first call of [load_tts_model] (not loaded, no load in
    progress).  Without the TTS library it raises ['TTS library not
    available'] and the loader is not called.  With it, the loader is
    called once, for [TTS_MODEL_NAME] on the selected device: if it
    returns, its model is stored and [model_loaded] is set; if it raises,
    the exception is passed on, [model_loaded] stays false and [tts_model]
    is not touched.  In every case [model_loading] is false again
    afterwards. *)
Theorem tts_first_load (cfg : TTS.Config) (env : TTS.Env) (w : world TTS.Globals) :
  TTS.model_loaded (globals w) = false ->
  TTS.model_loading (globals w) = false ->
  let r := TTS.load_tts_model cfg env w in
  let loaded :=
    TTS.TTS_load env (TTS.TTS_MODEL_NAME cfg) (TTS.device cfg env) (os w) in
  TTS.model_loading (globals (final r)) = false
  ∧ if TTS.TTS_AVAILABLE env then
      trace r = [EvLoadModel (TTS.TTS_MODEL_NAME cfg) (TTS.device cfg env)]
      ∧ os (final r) = loaded.1
      ∧ match loaded.2 with
        | Success m =>
            outcome r = Ok tt
            ∧ TTS.tts_model (globals (final r)) = Some m
            ∧ TTS.model_loaded (globals (final r)) = true
        | Failure msg =>
            outcome r = Raise (Exception msg)
            ∧ TTS.tts_model (globals (final r)) = TTS.tts_model (globals w)
            ∧ TTS.model_loaded (globals (final r)) = false
        end
    else r = Run w [] (Raise (Exception (lit "TTS library not available"))).
Proof.
  intros Hloaded Hidle. cbv zeta.
  rewrite (load_tts_model_first_run cfg env w Hloaded Hidle). cbv zeta.
  destruct (TTS.TTS_AVAILABLE env).
  - by destruct (TTS.TTS_load env _ _ (os w)) as [o [m|msg]].
  - split; [done|]. destruct w as [[m l d] o]. simpl in *. by subst.
Qed.

(** The sample loader, and a service without the library. *)
Lemma tts_first_load_witness :
  TTS.tts_model (globals (final (TTS.load_tts_model TTS.default_config tts_env tts_idle)))
    = Some xtts
  ∧ TTS.load_tts_model TTS.default_config no_tts_env tts_idle
    = Run tts_idle [] (Raise (Exception (lit "TTS library not available"))).
Proof.
  split.
  - destruct (tts_first_load TTS.default_config tts_env tts_idle eq_refl eq_refl)
      as (_ & _ & _ & _ & Hm & _). exact Hm.
  - destruct (tts_first_load TTS.default_config no_tts_env tts_idle eq_refl eq_refl)
      as (_ & Hr). exact Hr.
Defined.

Section Speech.
Context (cfg : TTS.Config) (env : TTS.Env).

Lemma sound_generate_speech request :
  sound (http_in [503; 400; 500]) speech_event same_globals
    (TTS.generate_speech cfg env request).
Proof.
  unfold TTS.generate_speech. sound_step; [sound_step|].
  destruct (negb _ || _).
  { apply sound_raise; [done|]. simpl. rewrite !elem_of_cons. auto. }
  destruct (negb _).
  { apply sound_raise; [done|]. simpl. rewrite !elem_of_cons. auto. }
  apply sound_try_except with (P' := λ _, True); [eauto with sound| |].
  - unfold TTS.generate_try. repeat sound_step.
  - intros e _. apply sound_raise; [done|]. simpl. rewrite !elem_of_cons. auto.
Qed.

Lemma halts_generate_speech request : halts (TTS.generate_speech cfg env request).
Proof. unfold TTS.generate_speech, TTS.generate_try. repeat halts_step. Qed.

Lemma speak_globals reqs w : globals (speak cfg env reqs w) = globals w.
Proof.
  revert w. induction reqs as [|request reqs IH]; intros w; simpl; [done|].
  rewrite IH. destruct (sound_generate_speech request) as (_ & _ & Hg). apply Hg.
Qed.

End Speech.

(** X13.  [startup_event] of the TTS service never raises; started with
    no model loaded and no load in progress, it completes, and it decides
    once and for all whether the service can speak: nothing but start-up
    calls the loader, and [generate_speech] writes no global, so after any
    number of requests a request is turned away with 503 exactly when the
    load at start-up failed. *)
Theorem startup_decides_availability (cfg : TTS.Config) (env : TTS.Env)
    (w : world TTS.Globals) :
  let s := TTS.startup_event cfg env w in
  (∀ e, outcome s ≠ Raise e)
  ∧ (TTS.model_loaded (globals w) = false -> TTS.model_loading (globals w) = false ->
     outcome s = Ok tt
     ∧ ∀ reqs request,
         raised_http 503
           (TTS.generate_speech cfg env request (speak cfg env reqs (final s)))
         ↔ tts_load_fails cfg env (os w) = true).
Proof.
  cbv zeta. unfold TTS.startup_event. split.
  { intros e. rewrite try_except_run.
    destruct (outcome (TTS.load_tts_model cfg env w)) eqn:E; simpl; by rewrite ?E. }
  intros Hloaded Hidle. rewrite try_except_run.
  rewrite (load_tts_model_first_run cfg env w Hloaded Hidle). cbv zeta.
  unfold tts_load_fails.
  assert (∀ (w0 : world TTS.Globals) request,
            raised_http 503 (TTS.generate_speech cfg env request w0)
            ↔ negb (TTS.model_loaded (globals w0))
              || bool_decide (TTS.tts_model (globals w0) = None) = true) as H503.
  { intros w0 request. rewrite TTSFacts.generate_speech_run.
    destruct (negb _ || _); [split; [done | by eexists]|].
    split; [|done]. intros [d Hd]. exfalso. revert Hd.
    destruct (negb _); [done|].
    rewrite try_except_run.
    destruct (outcome (TTS.generate_try cfg env request w0)) eqn:E; simpl;
      by rewrite ?E. }
  destruct (TTS.TTS_AVAILABLE env); simpl.
  - destruct (TTS.TTS_load env _ _ (os w)) as [o [m|msg]]; simpl;
      (split; [done|]); intros reqs request;
      rewrite H503, speak_globals; simpl; by rewrite ?Hloaded.
  - split; [done|]. intros reqs request.
    rewrite H503, speak_globals. simpl. by rewrite ?Hloaded.
Qed.

(** After a start-up without the TTS library the sample request gets a
    503, also as the third request in a row. *)
Lemma startup_decides_availability_witness :
  let w0 := final (TTS.startup_event TTS.default_config no_tts_env tts_idle) in
  raised_http 503
    (TTS.generate_speech TTS.default_config no_tts_env (plain_request privet_world)
       (speak TTS.default_config no_tts_env
          [plain_request privet_world; plain_request (lit "hello")] w0)).
Proof.
  destruct (startup_decides_availability TTS.default_config no_tts_env tts_idle)
    as (_ & H).
  destruct (H eq_refl eq_refl) as (_ & H503).
  apply H503. reflexivity.
Defined.

(** X14.  [generate_speech] always answers: it returns a response or
    raises an [HTTPException] with status 503, 400 or 500, nothing else.
    It calls nothing but the model's [tts_to_file] and the scheduler, and
    it leaves the module globals (model, flags) as they were. *)
Theorem speech_error_statuses (cfg : TTS.Config) (env : TTS.Env)
    (request : TTS.TTSRequest) (w : world TTS.Globals) :
  let r := TTS.generate_speech cfg env request w in
  outcome r ≠ Hang
  ∧ (∀ e, outcome r = Raise e -> http_in [503; 400; 500] e)
  ∧ Forall speech_event (trace r)
  ∧ globals (final r) = globals w.
Proof.
  cbv zeta. destruct (sound_generate_speech cfg env request) as (He & Hq & Hg).
  split_and!; [apply halts_generate_speech | apply He | apply Hq | apply Hg].
Qed.

(** X15.  A request that passes the two precondition tests makes exactly
    one call of the model's [tts_to_file], for the stripped text, the
    selected language and the file the response will name.  The voice it
    passes is one the model has: the language's default voice (['Dmitrii']
    for ['ru'], ['Claribel Dervla'] otherwise) when the model lists it, else
    the model's first voice (when that is not the empty string).  If the
    call raises, the answer is a 500 carrying its message; if the call
    returns but the size of the file cannot be read afterwards, the answer
    is a 500 too; in both cases nothing is scheduled.  Otherwise the
    clean-up is scheduled once and the answer is a response that reports
    the size of the file.  The file system is left as the call left it. *)
Theorem one_synthesis_call (cfg : TTS.Config) (env : TTS.Env)
    (request : TTS.TTSRequest) (w : world TTS.Globals) (model : TTS.TTSModel) :
  TTS.model_loaded (globals w) = true ->
  TTS.tts_model (globals w) = Some model ->
  strip (TTS.text request) ≠ [] ->
  let r := TTS.generate_speech cfg env request w in
  let text := strip (TTS.text request) in
  let language := TTS.select_language cfg env request text in
  let path := output_path cfg env request in
  ∃ speaker,
    let synth := EvTtsToFile text path speaker language in
    let called := TTS.tts_to_file model text path speaker language (os w) in
    (∀ s, speaker = Some s -> ∃ l, TTS.speakers model = Some l ∧ s ∈ l)
    ∧ (∀ l, TTS.speakers model = Some l -> default_speaker language ∈ l ->
            speaker = Some (default_speaker language))
    ∧ (∀ first l, TTS.speakers model = Some (first :: l) ->
                  default_speaker language ∉ first :: l -> first ≠ [] ->
                  speaker = Some first)
    ∧ os (final r) = called.1
    ∧ match called.2 with
      | Failure msg =>
          outcome r
          = Raise (HTTPException 500 (lit "Failed to generate speech: " ++ msg))
          ∧ trace r = [synth]
      | Success _ =>
          match getsize path called.1 with
          | Failure msg =>
              outcome r
              = Raise (HTTPException 500 (lit "Failed to generate speech: " ++ msg))
              ∧ trace r = [synth]
          | Success n =>
              trace r = [synth; EvAddTask (lit "cleanup_old_files")]
              ∧ ∃ resp, outcome r = Ok resp ∧ TTS.file_size resp = n
          end
      end.
Proof.
  intros Hloaded Hmodel Htext. cbv zeta.
  rewrite TTSFacts.generate_speech_run. rewrite Hloaded, Hmodel.
  destruct (strip (TTS.text request)) as [|c s] eqn:Hs; [done|].
  cbn [negb orb truthy_str]. rewrite bool_decide_eq_false_2 by done. cbv iota.
  unfold TTS.generate_try. cbv zeta. rewrite Hs.
  fold (output_name env request). fold (output_path cfg env request).
  set (language := TTS.select_language cfg env request (c :: s)).
  fold (default_speaker language).
  rewrite try_except_get_globals. cbv beta. rewrite Hmodel. cbv iota.
  assert (∀ speaker,
    let synth := EvTtsToFile (c :: s) (output_path cfg env request) speaker language in
    let called := TTS.tts_to_file model (c :: s) (output_path cfg env request)
                    speaker language (os w) in
    let r := try_except
               (extern synth
                  (TTS.tts_to_file model (c :: s) (output_path cfg env request)
                     speaker language) ;;;
                file_size <- query (getsize (output_path cfg env request)) ;;
                log (EvAddTask (lit "cleanup_old_files")) ;;;
                ret {| TTS.audio_url := lit "/audio/" ++ output_name env request;
                       TTS.duration :=
                         Some ((inject_Z (Z.of_nat (length (split (c :: s)))) / 150)
                               * 60)%Q;
                       TTS.file_size := file_size;
                       TTS.status := lit "success";
                       TTS.message := lit "Speech generated successfully" |})
               (λ e, raise (HTTPException 500
                              (lit "Failed to generate speech: " ++ str_exn e))) w in
    os (final r) = called.1
    ∧ match called.2 with
      | Failure msg =>
          outcome r
          = Raise (HTTPException 500 (lit "Failed to generate speech: " ++ msg))
          ∧ trace r = [synth]
      | Success _ =>
          match getsize (output_path cfg env request) called.1 with
          | Failure msg =>
              outcome r
              = Raise (HTTPException 500 (lit "Failed to generate speech: " ++ msg))
              ∧ trace r = [synth]
          | Success n =>
              trace r = [synth; EvAddTask (lit "cleanup_old_files")]
              ∧ ∃ resp, outcome r = Ok resp ∧ TTS.file_size resp = n
          end
      end) as Hrun.
  { intros speaker. cbv zeta. rewrite guarded_call_run.
    destruct (TTS.tts_to_file model _ _ speaker language (os w)) as [o [[]|msg]];
      cbn [fst snd]; [|done].
    unfold try_except, query, bind, call, log, ret, raise. cbn.
    destruct (getsize _ o) as [n|msg]; cbn; [|done].
    split_and!; [done | done | by eexists]. }
  destruct (TTS.speakers model) as [[|first l]|] eqn:Hsp.
  - exists None. split_and!; [done | by intros l' [= <-] ?%elem_of_nil | done | ..];
      apply (Hrun None).
  - case_bool_decide as Hin.
    + exists (Some (default_speaker language)).
      split_and!; [intros ? [= <-]; eauto | done | by intros ? ? [= <- <-] ? | ..];
        apply (Hrun (Some (default_speaker language))).
    + destruct first as [|c0 first'].
      * exists None.
        split_and!; [done | by intros ? [= <-] ? | by intros ? ? [= <- <-] ? | ..];
          apply (Hrun None).
      * exists (Some (c0 :: first')).
        split_and!; [intros ? [= <-]; eexists; split; [done|by left]
                    | by intros ? [= <-] ? | by intros ? ? [= <- <-] ? | ..];
          apply (Hrun (Some (c0 :: first'))).
  - exists None. split_and!; [done | done | done | ..]; apply (Hrun None).
Qed.

(** The sample request: Russian text, so the call is made for ['Dmitrii'];
    the model writes four bytes, and the response reports them. *)
Lemma one_synthesis_call_witness :
  let r := TTS.generate_speech TTS.default_config tts_env (plain_request privet_world)
             tts_loaded in
  trace r
  = [EvTtsToFile privet_world (lit "./audio/tts_6fa459ea.wav") (Some (lit "Dmitrii"))
       (lit "ru");
     EvAddTask (lit "cleanup_old_files")]
  ∧ ∃ resp, outcome r = Ok resp ∧ TTS.file_size resp = 4.
Proof.
  destruct (one_synthesis_call TTS.default_config tts_env (plain_request privet_world)
              tts_loaded xtts eq_refl eq_refl ltac:(vm_compute; discriminate))
    as (speaker & _ & Hdefault & _ & _ & Hrun).
  rewrite (Hdefault _ eq_refl ltac:(vm_compute; do 2 constructor)) in Hrun.
  exact Hrun.
Defined.

(** X16.  What [generate_speech] has answered for can be downloaded: the
    name in the response's [audio_url] is one that [get_audio_file] serves
    from the file system the handler leaves behind, as the file the model
    was asked to write, and with media type ['audio/wav'] whatever the
    requested [audio_format].  A name that has no entry in
    [AUDIO_OUTPUT_DIR] is answered with a 404. *)
Theorem generated_file_is_served (cfg : TTS.Config) (env : TTS.Env)
    (request : TTS.TTSRequest) (w : world TTS.Globals) (resp : TTS.TTSResponse) :
  let r := TTS.generate_speech cfg env request w in
  outcome r = Ok resp ->
  TTS.audio_url resp = lit "/audio/" ++ output_name env request
  ∧ TTSAudio.get_audio_file cfg (output_name env request) (final r)
    = Run (final r) []
        (Ok {| TTSAudio.path := output_path cfg env request;
               TTSAudio.media_type := lit "audio/wav" |})
  ∧ ∀ name (w' : world TTS.Globals),
      files (os w') !! path_join (TTS.AUDIO_OUTPUT_DIR cfg) name = None ->
      TTSAudio.get_audio_file cfg name w'
      = Run w' [] (Raise (HTTPException 404 (lit "Audio file not found"))).
Proof.
  cbv zeta. intros Hok.
  assert (TTS.audio_url resp = lit "/audio/" ++ output_name env request
          ∧ is_Some (files (os (final (TTS.generate_speech cfg env request w)))
                     !! output_path cfg env request)) as [Hurl Hfile].
  { revert Hok. rewrite TTSFacts.generate_speech_run.
    destruct (negb (TTS.model_loaded (globals w)) || _); [done|].
    destruct (negb (truthy_str (Some (strip (TTS.text request))))); [done|].
    intros Hok.
    match type of Hok with
    | outcome (try_except ?m ?h ?w) = _ =>
        assert (∀ e w', outcome (h e w') ≠ Ok resp) as Hraise
          by (intros e w'; simpl; discriminate);
        rewrite (try_except_ok_run m h w resp Hraise Hok);
        apply (try_except_ok m h w resp Hraise) in Hok
    end.
    unfold TTS.generate_try in *. cbv zeta in *.
    fold (output_name env request) in *. fold (output_path cfg env request) in *.
    apply bind_ok_final in Hok as (g' & _ & Hok & ->).
    apply bind_ok_final in Hok as ([] & _ & Hok & ->).
    apply bind_ok_final in Hok as (size & [Hsize ->]%query_ok & Hok & ->).
    apply bind_ok_final in Hok as ([] & _ & Hok & ->).
    injection Hok as <-. split; [done|]. cbn [final log ret].
    unfold getsize in Hsize.
    destruct (files _ !! output_path cfg env request); [by eexists | done]. }
  split; [exact Hurl|]. split.
  - unfold TTSAudio.get_audio_file, bind, get_os, path_exists. cbn.
    fold (output_path cfg env request).
    rewrite (bool_decide_eq_true_2 _ Hfile). cbn.
    by destruct (final _).
  - intros name [g' o'] Hnone. unfold TTSAudio.get_audio_file, bind, get_os, path_exists.
    cbn in *. rewrite Hnone. by rewrite bool_decide_eq_false_2 by (by intros [? ?]).
Qed.

(** The sample request, then the download of what it generated. *)
Lemma generated_file_is_served_witness :
  let r := TTS.generate_speech TTS.default_config tts_env (plain_request privet_world)
             tts_loaded in
  outcome (TTSAudio.get_audio_file TTS.default_config (lit "tts_6fa459ea.wav") (final r))
  = Ok {| TTSAudio.path := lit "./audio/tts_6fa459ea.wav";
          TTSAudio.media_type := lit "audio/wav" |}.
Proof.
  destruct (generated_file_is_served TTS.default_config tts_env
              (plain_request privet_world) tts_loaded privet_response
              ltac:(vm_compute; reflexivity)) as (_ & Hget & _).
  cbv zeta. change (lit "tts_6fa459ea.wav")
    with (output_name tts_env (plain_request privet_world)).
  by rewrite Hget.
Defined.

End SpeechFacts.
